(** * Appointment optimizer: route construction, scheduling and distance fallback

    A shallow embedding of the route-optimization core of the appointment
    optimizer (the two [optimize] API routes, the [distance-matrix] and
    [distance] API routes, the client-side optimizers and the page function
    that schedules the optimized route) together with the properties the
    design document states about it and further properties of the code.

    Modelling conventions.
    - A JavaScript [number] is a rational ([Num]), [Infinity], which the
      code uses as "no candidate yet", or [NaN], which arithmetic on
      [undefined] produces and which the haversine formula of the code
      returns for some antipodal points (module [Doubles] has the formula
      in binary64 and the pair (8, 0), (-8, 180)).  Sums of rationals are
      exact: rounding error is outside the model.
    - The modules [RoundTripApi], [OptimizeApi], [Client] and the ones that
      follow them take the distance function with rational values, as a
      section variable: they are the program on points whose distances are
      numbers.  The modules of [Js] are the round-trip optimizer, the two
      schedule generators and the client-side optimizer with the distance
      taken in [number] and with a [Date] that may be the Invalid Date;
      on points whose distances are numbers they compute what the former
      compute.
    - The haversine formula needs [Math.sin], [Math.cos], [Math.atan2] and
      [Math.sqrt].  Module [Haversine] has the formula over the real
      numbers, module [Doubles] over binary64 floats with the three
      trigonometric functions as parameters.
    - An array is a [list]; an access that yields [undefined] is a
      [nth_error] that yields [None]; reading a property of [undefined]
      throws, which is the [TypeError] completion.
    - A [Date] is the number of minutes elapsed since 2024-01-01 00:00 local
      time, the day every schedule is anchored to; a [Js.Date] is such a
      number within the range of a JavaScript [Date], or the Invalid
      Date. *)

From Stdlib Require Import Floats.
From Stdlib Require Import String Ascii Bool Arith ZArith QArith Qround Qabs Lia.
From Stdlib Require Import Reals Lra Qreals.
From Stdlib Require Import List Permutation.
Import ListNotations.

(** * Part I: the program *)

(** ** Numbers *)

Inductive number : Type :=
| Num (q : Q)
| Infinity
| NaN.

Definition Qltb (x y : Q) : bool := negb (Qle_bool y x).

(** The JavaScript comparison [x < y]. *)
Definition lessThan (x y : number) : bool :=
  match x, y with
  | Num p, Num q => Qltb p q
  | Num _, Infinity => true
  | _, _ => false
  end.

(** The JavaScript sum [x + y]; no negative infinity occurs in the program. *)
Definition plus (x y : number) : number :=
  match x, y with
  | Num p, Num q => Num (p + q)
  | NaN, _ | _, NaN => NaN
  | _, _ => Infinity
  end.

(** A value read from an array cell: [undefined] converts to [NaN]. *)
Definition toNumber (v : option Q) : number :=
  match v with
  | Some q => Num q
  | None => NaN
  end.

(** Numeric equality of two results (the value, not its representation). *)
Definition sameNumber (x y : number) : Prop :=
  match x, y with
  | Num p, Num q => (p == q)%Q
  | Infinity, Infinity => True
  | _, _ => False
  end.

(** ** Completions: a normal value or a thrown [TypeError] *)

Inductive Completion (A : Type) : Type :=
| Normal (a : A)
| TypeError.

Arguments Normal {A} a.
Arguments TypeError {A}.

Definition bind {A B : Type} (c : Completion A) (k : A -> Completion B)
  : Completion B :=
  match c with
  | Normal a => k a
  | TypeError => TypeError
  end.

Declare Scope completion_scope.
Delimit Scope completion_scope with completion.
Notation "'let*' x ':=' c 'in' k" := (bind c (fun x => k))
  (at level 61, x name, c at next level, right associativity)
  : completion_scope.
Local Open Scope completion_scope.

(** ** Data *)

Record Coordinates : Type := { lat : Q; lng : Q }.

(** [interface AppointmentData]; [duration] is the INTEGER column of the
    appointments table. *)
Record AppointmentData : Type := {
  id : string;
  client : string;
  address : string;
  appointmentType : string;
  duration : Z;
  notes : option string;
  latitude : Q;
  longitude : Q
}.

(** The object literal [{ lat: a.latitude, lng: a.longitude }]. *)
Definition coordsOf (a : AppointmentData) : Coordinates :=
  {| lat := latitude a; lng := longitude a |}.

(** ** The haversine distance, over the real numbers *)

Module Haversine.

(** [Math.atan2(y, x)]. *)
Definition atan2 (y x : R) : R :=
  if Rlt_dec 0 x then atan (y / x)
  else if Rlt_dec x 0 then
    (if Rle_dec 0 y then atan (y / x) + PI else atan (y / x) - PI)
  else if Rlt_dec 0 y then PI / 2
  else if Rlt_dec y 0 then - PI / 2
  else 0.

(** [calculateDistance] (and [calculateHaversineDistance], which has the
    same body); [radius] is the constant [R] of the source. *)
Definition calculateDistance (coord1 coord2 : Coordinates) : R :=
  let radius := 3959%R in
  let dLat := ((Q2R (lat coord2) - Q2R (lat coord1)) * PI / 180)%R in
  let dLon := ((Q2R (lng coord2) - Q2R (lng coord1)) * PI / 180)%R in
  let a :=
    (sin (dLat / 2) * sin (dLat / 2)
     + cos (Q2R (lat coord1) * PI / 180) * cos (Q2R (lat coord2) * PI / 180)
       * sin (dLon / 2) * sin (dLon / 2))%R in
  let c := (2 * atan2 (sqrt a) (sqrt (1 - a)))%R in
  (radius * c)%R.

End Haversine.

(** ** Arrays *)

(** [l.forEach((x, index) => ...)] threading the variables the callback
    assigns; [index] is the position of the head of [l] in the array. *)
Fixpoint forEach {A St : Type} (callback : St -> A -> nat -> St)
  (l : list A) (index : nat) (s : St) : St :=
  match l with
  | [] => s
  | x :: rest => forEach callback rest (S index) (callback s x index)
  end.

(** The same traversal with a callback that may throw. *)
Fixpoint forEachC {A St : Type} (callback : St -> A -> nat -> Completion St)
  (l : list A) (index : nat) (s : St) : Completion St :=
  match l with
  | [] => Normal s
  | x :: rest =>
      let* s' := callback s x index in forEachC callback rest (S index) s'
  end.

(** [for (let i = start; i < start + count; i++) body], threading the
    variables the body assigns. *)
Fixpoint forLoop {St : Type} (body : St -> nat -> Completion St)
  (start count : nat) (s : St) : Completion St :=
  match count with
  | O => Normal s
  | S count' => let* s' := body s start in forLoop body (S start) count' s'
  end.

(** What is left of the array after [l.splice(i, 1)]. *)
Fixpoint removeAt {A : Type} (i : nat) (l : list A) : list A :=
  match l, i with
  | [], _ => []
  | _ :: rest, O => rest
  | x :: rest, S j => x :: removeAt j rest
  end.

(** [l.findIndex(p)], with [None] for the result [-1]. *)
Fixpoint findIndex {A : Type} (p : A -> bool) (l : list A) : option nat :=
  match l with
  | [] => None
  | x :: rest => if p x then Some 0%nat else option_map S (findIndex p rest)
  end.

(** [l.findIndex(p) + 1] (and [l.indexOf(x) + 1]): the matrix index of an
    appointment, the origin being at index 0. *)
Definition plusOne (i : option nat) : nat :=
  match i with
  | Some k => S k
  | None => 0
  end.

(** The variables [nearestIndex] and [nearestDistance] of a selection pass. *)
Record Nearest : Type := {
  nearestIndex : nat;
  nearestDistance : number
}.

Definition noneYet : Nearest :=
  {| nearestIndex := 0; nearestDistance := Infinity |}.

(** ** Dates and clock strings *)

(** Minutes elapsed since 2024-01-01 00:00. *)
Definition Date : Type := Z.

(** A start time given as ["HH:MM"]. *)
Record TimeOfDay : Type := { hours : Z; minutes : Z }.

(** [new Date(`2024-01-01 ${startTime}`)]. *)
Definition newDate (startTime : TimeOfDay) : Date :=
  (60 * hours startTime + minutes startTime)%Z.

(** [d.setMinutes(d.getMinutes() + k)] for an integral [k]. *)
Definition addMinutes (d : Date) (k : Z) : Date := (d + k)%Z.

(** [Math.ceil(distance * travelTimePerMile)]. *)
Definition travelMinutes (distance travelTimePerMile : Q) : Z :=
  Qceiling (distance * travelTimePerMile).

Definition digit (n : Z) : ascii :=
  ascii_of_nat (48 + Z.to_nat n).

Definition twoDigits (n : Z) : string :=
  String (digit (n / 10)) (String (digit (n mod 10)) EmptyString).

(** [d.toLocaleTimeString('en-US', { hour: '2-digit', minute: '2-digit' })]:
    the time of day on a twelve-hour clock, the day itself being dropped. *)
Definition toLocaleTimeString (d : Date) : string :=
  let minuteOfDay := (d mod 1440)%Z in
  let hour := (minuteOfDay / 60)%Z in
  let hour12 := if (hour mod 12 =? 0)%Z then 12%Z else (hour mod 12)%Z in
  (twoDigits hour12 ++ ":" ++ twoDigits (minuteOfDay mod 60) ++ " "
     ++ (if (hour <? 12)%Z then "AM" else "PM"))%string.

(** ** Calls to external collaborators, in the order they are issued *)

Inductive Call : Type :=
| PrismaFindMany (userId orderBy : string)
| PrismaUpdate (appointmentId : string) (optimizedOrder : nat)
    (suggestedTime : option string)
| Fetch (url : string).

Definition isFetch (c : Call) : bool :=
  match c with
  | Fetch _ => true
  | _ => false
  end.

(** [l.map((x, index) => f x index)] *)
Fixpoint mapi {A B : Type} (f : A -> nat -> B) (l : list A) (index : nat)
  : list B :=
  match l with
  | [] => []
  | x :: rest => f x index :: mapi f rest (S index)
  end.

(** ** The round-trip optimize route (server side, haversine distances) *)

Module RoundTripApi.

(** The JSON documents the handler answers with. *)
Module Reply.

Record Stored : Type := {
  appointment : AppointmentData;
  optimizedOrder : nat;
  suggestedTime : option string
}.

Record Summary : Type := {
  totalStops : nat;
  hasStartingLocation : bool;
  estimatedDayDuration : option Z;
  startTime : TimeOfDay;
  summaryReturnTime : option string
}.

Record Optimization : Type := {
  optimizedRoute : list Stored;
  totalDistance : number;
  totalTravelTime : option Z;
  totalAppointmentTime : Z;
  returnTime : option string;
  optimizationType : string;
  summary : Summary
}.

Inductive Body : Type :=
| Failure (error : string)
| Success (result : Optimization).

Record Response : Type := {
  body : Body;
  status : nat
}.

End Reply.

(** The parsed request body: [startTime] and [startingLocation], either of
    which may be absent. *)
Record Request : Type := {
  startTime : option TimeOfDay;
  startingLocation : option Coordinates
}.

Section WithDistance.

(** [calculateDistance], the haversine distance in miles. *)
Variable calculateDistance : Coordinates -> Coordinates -> Q.

(** The callback of [unvisited.forEach] in [optimizeSingleRoute]; [len] is
    [unvisited.length] and [target] is [appointments[targetEndIndex]]. *)
Definition nearerExcept (len : nat) (target : option AppointmentData)
  (currentLocation : Coordinates) (n : Nearest)
  (appointment : AppointmentData) (index : nat) : Completion Nearest :=
  let* isTarget :=
    if (1 <? len)%nat then
      match target with
      | Some targetEndAppointment =>
          Normal (String.eqb (id appointment) (id targetEndAppointment))
      | None => TypeError
      end
    else Normal false in
  if isTarget then Normal n
  else
    let distance := calculateDistance currentLocation (coordsOf appointment) in
    if lessThan (Num distance) (nearestDistance n)
    then Normal {| nearestIndex := index; nearestDistance := Num distance |}
    else Normal n.

(** The [while (unvisited.length > 0)] loop of [optimizeSingleRoute], unrolled
    at most [turns] times; the value is [route] when the loop is left. *)
Fixpoint whileUnvisited (turns : nat) (target : option AppointmentData)
  (unvisited route : list AppointmentData) (currentLocation : Coordinates)
  : Completion (list AppointmentData) :=
  match unvisited, turns with
  | [], _ => Normal route
  | [lastOne], _ => Normal (route ++ [lastOne])
  | _, O => Normal route
  | _, S turns' =>
      let* n := forEachC
                  (nearerExcept (length unvisited) target currentLocation)
                  unvisited 0 noneYet in
      match nth_error unvisited (nearestIndex n) with
      | None => TypeError
      | Some nearestAppointment =>
          whileUnvisited turns' target
            (removeAt (nearestIndex n) unvisited)
            (route ++ [nearestAppointment])
            (coordsOf nearestAppointment)
      end
  end.

Definition optimizeSingleRoute (appointments : list AppointmentData)
  (origin : Coordinates) (targetEndIndex : nat)
  : Completion (list AppointmentData) :=
  let targetEndAppointment := nth_error appointments targetEndIndex in
  whileUnvisited (length appointments) targetEndAppointment
    appointments [] origin.

(** The loop over consecutive appointments of a route. *)
Fixpoint addLegs (route : list AppointmentData) (totalDistance : Q) : Q :=
  match route with
  | a :: (b :: _) as rest =>
      addLegs rest
        (totalDistance + calculateDistance (coordsOf a) (coordsOf b))
  | _ => totalDistance
  end.

Definition calculateRoundTripDistance (route : list AppointmentData)
  (origin : Coordinates) : Q :=
  match route with
  | [] => 0
  | first :: _ =>
      let totalDistance := 0 + calculateDistance origin (coordsOf first) in
      let totalDistance := addLegs route totalDistance in
      let lastAppointment := last route first in
      let returnDistance :=
        calculateDistance (coordsOf lastAppointment) origin in
      totalDistance + returnDistance
  end.

(** The variables [bestRoute] and [bestTotalDistance]. *)
Record Best : Type := {
  bestRoute : list AppointmentData;
  bestTotalDistance : number
}.

(** The body of the loop over [endIndex]. *)
Definition tryEnding (appointments : list AppointmentData)
  (origin : Coordinates) (b : Best) (endIndex : nat) : Completion Best :=
  let* candidateRoute := optimizeSingleRoute appointments origin endIndex in
  let totalDistance := calculateRoundTripDistance candidateRoute origin in
  if lessThan (Num totalDistance) (bestTotalDistance b)
  then Normal {| bestRoute := candidateRoute;
                 bestTotalDistance := Num totalDistance |}
  else Normal b.

Record RoundTrip : Type := {
  route : list AppointmentData;
  totalDistance : number
}.

Definition optimizeRoundTripRoute (appointments : list AppointmentData)
  (startLocation : option Coordinates) : Completion RoundTrip :=
  if (length appointments <=? 1)%nat then
    let totalDistance :=
      match appointments, startLocation with
      | [only], Some start =>
          let toAppointment := calculateDistance start (coordsOf only) in
          let returnTrip := calculateDistance (coordsOf only) start in
          toAppointment + returnTrip
      | _, _ => 0
      end in
    Normal {| route := appointments; totalDistance := Num totalDistance |}
  else
    let* origin :=
      match startLocation, appointments with
      | Some start, _ => Normal start
      | None, first :: _ => Normal (coordsOf first)
      | None, [] => TypeError
      end in
    let* b := forLoop (tryEnding appointments origin) 0 (length appointments)
                {| bestRoute := []; bestTotalDistance := Infinity |} in
    Normal {| route := bestRoute b; totalDistance := bestTotalDistance b |}.

(** The [route.forEach] of [generateAppointmentTimes]: [previous] is
    [route[index - 1]] ([None] at index 0), [currentTime] the running clock,
    [arrivals] the instants at which a time has been pushed so far. *)
Fixpoint walk (travelTimePerMile : Q) (origin : option Coordinates)
  (previous : option AppointmentData) (rest : list AppointmentData)
  (currentTime : Date) (arrivals : list Date) : list Date * Date :=
  match rest with
  | [] => (arrivals, currentTime)
  | appointment :: rest' =>
      let currentTime :=
        match previous, origin with
        | Some before, _ =>
            let distance :=
              calculateDistance (coordsOf before) (coordsOf appointment) in
            addMinutes currentTime (travelMinutes distance travelTimePerMile)
        | None, Some start =>
            let distance := calculateDistance start (coordsOf appointment) in
            addMinutes currentTime (travelMinutes distance travelTimePerMile)
        | None, None => currentTime
        end in
      let arrivals := arrivals ++ [currentTime] in
      let currentTime := addMinutes currentTime (duration appointment) in
      walk travelTimePerMile origin (Some appointment) rest'
        currentTime arrivals
  end.

(** The instant of arrival at every stop, in route order. *)
Definition arrivalInstants (route : list AppointmentData)
  (startTime : TimeOfDay) (travelTimePerMile : Q)
  (origin : option Coordinates) : list Date :=
  fst (walk travelTimePerMile origin None route (newDate startTime) []).

Record Schedule : Type := {
  times : list string;
  returnTime : option string
}.

(** Every pushed time is the rendering of the clock at that instant. *)
Definition generateAppointmentTimes (route : list AppointmentData)
  (startTime : TimeOfDay) (travelTimePerMile : Q)
  (origin : option Coordinates) : Schedule :=
  let '(arrivals, currentTime) :=
    walk travelTimePerMile origin None route (newDate startTime) [] in
  let returnTime :=
    match origin, route with
    | Some start, first :: _ =>
        let lastAppointment := last route first in
        let returnDistance :=
          calculateDistance (coordsOf lastAppointment) start in
        let returnTravelMinutes :=
          travelMinutes returnDistance travelTimePerMile in
        Some (toLocaleTimeString (addMinutes currentTime returnTravelMinutes))
    | _, _ => None
    end in
  {| times := map toLocaleTimeString arrivals; returnTime := returnTime |}.

(** [Math.ceil(x)] of a distance total; [None] stands for a non-finite value. *)
Definition ceilOf (x : number) (factor : Q) : option Z :=
  match x with
  | Num q => Some (Qceiling (q * factor))
  | _ => None
  end.

(** The handler [POST].  [request] is [None] when the body is not JSON;
    [stored] is what [prisma.appointment.findMany] returns for the user.  The
    result is the response together with the calls made to collaborators.
    The table's key is [id], so after the updates the second [findMany]
    reads the rows back in the order the updates assigned. *)
Definition POST (request : option Request) (stored : list AppointmentData)
  : Reply.Response * list Call :=
  let failed :=
    {| Reply.body := Reply.Failure "Failed to optimize round-trip route";
       Reply.status := 500 |} in
  match request with
  | None => (failed, [])
  | Some req =>
      let startTime :=
        match startTime req with
        | Some t => t
        | None => {| hours := 9; minutes := 0 |}
        end in
      let userId := "demo-user"%string in
      let appointments := stored in
      let calls := [PrismaFindMany userId "createdAt"] in
      if (length appointments =? 0)%nat then
        ({| Reply.body := Reply.Failure "No appointments found to optimize";
            Reply.status := 400 |}, calls)
      else
        match optimizeRoundTripRoute appointments (startingLocation req) with
        | TypeError => (failed, calls)
        | Normal optimized =>
            let optimizedRoute := route optimized in
            let schedule :=
              generateAppointmentTimes optimizedRoute startTime 3
                (startingLocation req) in
            let totalAppointmentTime :=
              fold_left (fun sum apt => (sum + duration apt)%Z)
                optimizedRoute 0%Z in
            let estimatedTotalTravelTime :=
              ceilOf (totalDistance optimized) 3 in
            let updates :=
              mapi (fun apt index =>
                      PrismaUpdate (id apt) (index + 1)
                        (nth_error (times schedule) index))
                optimizedRoute 0 in
            let updatedAppointments :=
              mapi (fun apt index =>
                      {| Reply.appointment := apt;
                         Reply.optimizedOrder := index + 1;
                         Reply.suggestedTime :=
                           nth_error (times schedule) index |})
                optimizedRoute 0 in
            ({| Reply.body :=
                  Reply.Success
                    {| Reply.optimizedRoute := updatedAppointments;
                       Reply.totalDistance := totalDistance optimized;
                       Reply.totalTravelTime := estimatedTotalTravelTime;
                       Reply.totalAppointmentTime := totalAppointmentTime;
                       Reply.returnTime := returnTime schedule;
                       Reply.optimizationType := "round-trip";
                       Reply.summary :=
                         {| Reply.totalStops := length optimizedRoute;
                            Reply.hasStartingLocation :=
                              match startingLocation req with
                              | Some _ => true
                              | None => false
                              end;
                            Reply.estimatedDayDuration :=
                              option_map
                                (fun t => (t + totalAppointmentTime)%Z)
                                estimatedTotalTravelTime;
                            Reply.startTime := startTime;
                            Reply.summaryReturnTime :=
                              returnTime schedule |} |};
                Reply.status := 200 |},
             calls ++ updates
               ++ [PrismaFindMany userId "optimizedOrder"])
        end
  end.

End WithDistance.

End RoundTripApi.

(** ** The plain optimize route (server side, open path) *)

Module OptimizeApi.

Section WithDistance.

(** [calculateDistance], the haversine distance in miles. *)
Variable calculateDistance : Coordinates -> Coordinates -> Q.

(** The callback of [unvisited.forEach] in [optimizeRoute]. *)
Definition nearer (currentLocation : Coordinates) (n : Nearest)
  (appointment : AppointmentData) (index : nat) : Nearest :=
  let distance := calculateDistance currentLocation (coordsOf appointment) in
  if lessThan (Num distance) (nearestDistance n)
  then {| nearestIndex := index; nearestDistance := Num distance |}
  else n.

(** The [while (unvisited.length > 0)] loop of [optimizeRoute], unrolled at
    most [turns] times; the value is [route] when the loop is left. *)
Fixpoint whileUnvisited (turns : nat)
  (unvisited route : list AppointmentData) (currentLocation : Coordinates)
  : Completion (list AppointmentData) :=
  match unvisited, turns with
  | [], _ => Normal route
  | _, O => Normal route
  | _, S turns' =>
      let n := forEach (nearer currentLocation) unvisited 0 noneYet in
      match nth_error unvisited (nearestIndex n) with
      | None => TypeError
      | Some nearestAppointment =>
          whileUnvisited turns'
            (removeAt (nearestIndex n) unvisited)
            (route ++ [nearestAppointment])
            (coordsOf nearestAppointment)
      end
  end.

Definition optimizeRoute (appointments : list AppointmentData)
  (startLocation : option Coordinates) : Completion (list AppointmentData) :=
  if (length appointments <=? 1)%nat then Normal appointments
  else
    let* currentLocation :=
      match startLocation, appointments with
      | Some start, _ => Normal start
      | None, first :: _ => Normal (coordsOf first)
      | None, [] => TypeError
      end in
    whileUnvisited (length appointments) appointments [] currentLocation.

(** The [route.forEach] of [generateAppointmentTimes]: [previous] is
    [route[index - 1]] ([None] at index 0). *)
Fixpoint walk (travelTimePerMile : Q)
  (previous : option AppointmentData) (rest : list AppointmentData)
  (currentTime : Date) (arrivals : list Date) : list Date * Date :=
  match rest with
  | [] => (arrivals, currentTime)
  | appointment :: rest' =>
      let currentTime :=
        match previous with
        | Some before =>
            let distance :=
              calculateDistance (coordsOf before) (coordsOf appointment) in
            addMinutes currentTime (travelMinutes distance travelTimePerMile)
        | None => currentTime
        end in
      let arrivals := arrivals ++ [currentTime] in
      let currentTime := addMinutes currentTime (duration appointment) in
      walk travelTimePerMile (Some appointment) rest' currentTime arrivals
  end.

(** The instant of arrival at every stop, in route order. *)
Definition arrivalInstants (route : list AppointmentData)
  (startTime : TimeOfDay) (travelTimePerMile : Q) : list Date :=
  fst (walk travelTimePerMile None route (newDate startTime) []).

(** Every pushed time is the rendering of the clock at that instant. *)
Definition generateAppointmentTimes (route : list AppointmentData)
  (startTime : TimeOfDay) (travelTimePerMile : Q) : list string :=
  map toLocaleTimeString (arrivalInstants route startTime travelTimePerMile).

(** The loop over consecutive appointments of a route. *)
Fixpoint addLegs (route : list AppointmentData) (totalDistance : Q) : Q :=
  match route with
  | a :: (b :: _) as rest =>
      addLegs rest
        (totalDistance + calculateDistance (coordsOf a) (coordsOf b))
  | _ => totalDistance
  end.

Definition calculateTotalDistance (route : list AppointmentData)
  (startLocation : option Coordinates) : Q :=
  if (length route <=? 1)%nat then 0
  else
    let totalDistance := 0 in
    let totalDistance :=
      match startLocation, route with
      | Some start, first :: _ =>
          totalDistance + calculateDistance start (coordsOf first)
      | _, _ => totalDistance
      end in
    addLegs route totalDistance.

End WithDistance.

End OptimizeApi.

(** ** The distance-matrix route (server side, precise provider) *)

Module DistanceMatrixApi.

(** One cell of the provider's answer: [element.status] and
    [element.distance.value] in meters ([None] when [element.distance] is
    absent). *)
Module Element.
Record t : Type := { status : string; distance : option Q }.
End Element.

Module Row.
Record t : Type := { elements : list Element.t }.
End Row.

(** The provider's answer: [data.status] and [data.rows]. *)
Module Data.
Record t : Type := { status : string; rows : list Row.t }.
End Data.

(** What the call to the provider comes to: the fetch is rejected, or it
    answers with a body that is JSON ([Some data]) or is not ([None]). *)
Inductive Provider : Type :=
| Rejected
| Answered (data : option Data.t).

(** The parsed request body; a field is [None] when it is not an array. *)
Record Request : Type := {
  origins : option (list Coordinates);
  destinations : option (list Coordinates)
}.

Inductive Response : Type :=
| Failure (error : string) (status : nat)
| Success (distanceMatrix : list (list Q)).

Definition metersToMiles : Q := 621371 # 1000000000.

Definition providerUrl : string :=
  "https://maps.googleapis.com/maps/api/distancematrix/json".

(** [process.env.GOOGLE_MAPS_API_KEY] is there and is not the empty string:
    the test [!apiKey], negated. *)
Definition configured (apiKey : option string) : bool :=
  match apiKey with
  | Some key => negb (String.eqb key "")
  | None => false
  end.

(** [l.map((x, index) => f x index)] with a callback that may throw. *)
Fixpoint mapiC {A B : Type} (f : A -> nat -> Completion B) (l : list A)
  (index : nat) : Completion (list B) :=
  match l with
  | [] => Normal []
  | x :: rest =>
      let* y := f x index in
      let* ys := mapiC f rest (S index) in
      Normal (y :: ys)
  end.

Section WithDistance.

(** [calculateHaversineDistance], the haversine distance in miles. *)
Variable calculateHaversineDistance : Coordinates -> Coordinates -> Q.

Definition haversineMatrix (origins destinations : list Coordinates)
  : list (list Q) :=
  map (fun origin =>
         map (fun dest => calculateHaversineDistance origin dest)
           destinations)
    origins.

(** The cell computed for one element of the provider's answer. *)
Definition convertElement (origins destinations : list Coordinates)
  (originIndex : nat) (element : Element.t) (destIndex : nat)
  : Completion Q :=
  if String.eqb (Element.status element) "OK" then
    match Element.distance element with
    | Some value => Normal (value * metersToMiles)
    | None => TypeError
    end
  else
    match nth_error origins originIndex, nth_error destinations destIndex with
    | Some origin, Some dest => Normal (calculateHaversineDistance origin dest)
    | _, _ => TypeError
    end.

Definition convertRows (origins destinations : list Coordinates)
  (data : Data.t) : Completion (list (list Q)) :=
  mapiC (fun row originIndex =>
           mapiC (convertElement origins destinations originIndex)
             (Row.elements row) 0)
    (Data.rows data) 0.

(** The handler [POST].  [authorized] tells whether the session carries a
    user id, [request] is [None] when the body is not JSON, [apiKey] is the
    value of the environment variable if it is set (it counts as a key when
    it is not empty) and [provider] is what the call to the provider comes
    to, should it be made.  The query string of the call is left out
    of its trace. *)
Definition POST (authorized : bool) (request : option Request)
  (apiKey : option string) (provider : Provider) : Response * list Call :=
  if negb authorized then (Failure "Unauthorized" 401, [])
  else
    match request with
    | None => (Failure "Failed to calculate distance matrix" 500, [])
    | Some req =>
        match origins req, destinations req with
        | Some origins, Some destinations =>
            if ((length origins =? 0)%nat || (length destinations =? 0)%nat)%bool
            then (Failure "Invalid origins or destinations provided" 400, [])
            else
              if negb (configured apiKey)
              then (Success (haversineMatrix origins destinations), [])
              else
                let fallback :=
                  Success (haversineMatrix origins destinations) in
                let answer :=
                  match provider with
                  | Rejected => fallback
                  | Answered None => fallback
                  | Answered (Some data) =>
                      if String.eqb (Data.status data) "OK" then
                        match convertRows origins destinations data with
                        | Normal distanceMatrix => Success distanceMatrix
                        | TypeError => fallback
                        end
                      else fallback
                  end in
                (answer, [Fetch providerUrl])
        | _, _ => (Failure "Invalid origins or destinations provided" 400, [])
        end
    end.

End WithDistance.

End DistanceMatrixApi.

(** ** The client-side round-trip optimizer (distance matrix) *)

(** Whether two array cells hold the same appointment object.  The cells of
    [appointments] are distinct rows, which differ at least in their [id]:
    comparing the contents then agrees with comparing the references. *)
Definition sameQ (x y : Q) : bool :=
  (Qnum x =? Qnum y)%Z && (Qden x =? Qden y)%positive.

Definition sameNotes (x y : option string) : bool :=
  match x, y with
  | Some s, Some t => String.eqb s t
  | None, None => true
  | _, _ => false
  end.

Definition sameObject (a b : AppointmentData) : bool :=
  String.eqb (id a) (id b) && String.eqb (client a) (client b)
  && String.eqb (address a) (address b)
  && String.eqb (appointmentType a) (appointmentType b)
  && (duration a =? duration b)%Z && sameNotes (notes a) (notes b)
  && sameQ (latitude a) (latitude b) && sameQ (longitude a) (longitude b).

(** [appointments.indexOf(appointment)], with [None] for the result [-1]. *)
Definition indexOf (appointments : list AppointmentData)
  (appointment : AppointmentData) : option nat :=
  findIndex (sameObject appointment) appointments.

Module Client.

(** The body of the answer of [/api/distance-matrix]: [data.distanceMatrix],
    [None] when the field is absent. *)
Record Data : Type := { distanceMatrix : option (list (list Q)) }.

(** What [fetch('/api/distance-matrix')] comes to: it is rejected, or it
    answers with [response.ok] and a body that is JSON or is not. *)
Inductive FetchOutcome : Type :=
| Rejected
| Responded (ok : bool) (json : option Data).

(** [distanceMatrix[i][j]]: reading a row of an absent matrix or a cell of an
    absent row throws; an absent cell is [undefined]. *)
Definition cell (distanceMatrix : option (list (list Q))) (i j : nat)
  : Completion number :=
  match distanceMatrix with
  | None => TypeError
  | Some matrix =>
      match nth_error matrix i with
      | None => TypeError
      | Some row => Normal (toNumber (nth_error row j))
      end
  end.

(** The variables [nearestIndex], [nearestDistance], [selectedAppointment]. *)
Record Selection : Type := {
  nearest : Nearest;
  selectedAppointment : option AppointmentData
}.

Definition byId (wanted : AppointmentData) (apt : AppointmentData) : bool :=
  String.eqb (id apt) (id wanted).

Section WithDistance.

(** [calculateHaversineDistance], the haversine distance in miles. *)
Variable calculateHaversineDistance : Coordinates -> Coordinates -> Q.

Definition haversineMatrix (origins destinations : list Coordinates)
  : list (list Q) :=
  map (fun origin =>
         map (fun dest => calculateHaversineDistance origin dest)
           destinations)
    origins.

Definition calculateDistanceMatrix (origins destinations : list Coordinates)
  (outcome : FetchOutcome) : option (list (list Q)) :=
  if ((length origins =? 0)%nat || (length destinations =? 0)%nat)%bool
  then Some []
  else
    match outcome with
    | Responded true (Some data) => distanceMatrix data
    | _ => Some (haversineMatrix origins destinations)
    end.

(** The callback of [unvisited.forEach] in [optimizeSingleRoute]. *)
Definition nearerExcept (appointments : list AppointmentData)
  (distanceMatrix : option (list (list Q))) (len : nat)
  (target : option AppointmentData) (currentIndex : nat) (s : Selection)
  (appointment : AppointmentData) (index : nat) : Completion Selection :=
  let* isTarget :=
    if (1 <? len)%nat then
      match target with
      | Some targetEndAppointment =>
          Normal (String.eqb (id appointment) (id targetEndAppointment))
      | None => TypeError
      end
    else Normal false in
  if isTarget then Normal s
  else
    let appointmentIndex := plusOne (indexOf appointments appointment) in
    let* distance := cell distanceMatrix currentIndex appointmentIndex in
    if lessThan distance (nearestDistance (nearest s))
    then Normal {| nearest := {| nearestIndex := index;
                                 nearestDistance := distance |};
                   selectedAppointment := Some appointment |}
    else Normal s.

(** The selection made in one turn of the loop of [optimizeSingleRoute]. *)
Definition select (appointments : list AppointmentData)
  (distanceMatrix : option (list (list Q)))
  (target : option AppointmentData) (unvisited : list AppointmentData)
  (currentIndex : nat) : Completion Selection :=
  let nothing := {| nearest := noneYet; selectedAppointment := None |} in
  let* forced :=
    if (length unvisited =? 2)%nat then
      match target with
      | None => TypeError
      | Some targetEndAppointment =>
          match findIndex (byId targetEndAppointment) unvisited with
          | Some targetInRemaining =>
              let otherIndex :=
                if (targetInRemaining =? 0)%nat then 1%nat else 0%nat in
              Normal {| nearest := {| nearestIndex := otherIndex;
                                      nearestDistance := Infinity |};
                        selectedAppointment :=
                          nth_error unvisited otherIndex |}
          | None => Normal nothing
          end
      end
    else Normal nothing in
  let* scanned :=
    match selectedAppointment forced with
    | Some _ => Normal forced
    | None =>
        forEachC
          (nearerExcept appointments distanceMatrix (length unvisited)
             target currentIndex)
          unvisited 0 forced
    end in
  match selectedAppointment scanned with
  | Some _ => Normal scanned
  | None =>
      Normal {| nearest := {| nearestIndex := 0;
                              nearestDistance :=
                                nearestDistance (nearest scanned) |};
                selectedAppointment := nth_error unvisited 0 |}
  end.

(** The [while (unvisited.length > 1)] loop of [optimizeSingleRoute],
    unrolled at most [turns] times; the value is [unvisited] and [route]
    when the loop is left. *)
Fixpoint whileSeveral (turns : nat) (appointments : list AppointmentData)
  (distanceMatrix : option (list (list Q)))
  (target : option AppointmentData)
  (unvisited route : list AppointmentData) (currentIndex : nat)
  : Completion (list AppointmentData * list AppointmentData) :=
  if (length unvisited <=? 1)%nat then Normal (unvisited, route)
  else
    match turns with
    | O => Normal (unvisited, route)
    | S turns' =>
        let* s := select appointments distanceMatrix target unvisited
                    currentIndex in
        match nth_error unvisited (nearestIndex (nearest s)) with
        | None => TypeError
        | Some nearestAppointment =>
            let appointmentIndex :=
              plusOne (indexOf appointments nearestAppointment) in
            whileSeveral turns' appointments distanceMatrix target
              (removeAt (nearestIndex (nearest s)) unvisited)
              (route ++ [nearestAppointment])
              appointmentIndex
        end
    end.

Definition optimizeSingleRoute (appointments : list AppointmentData)
  (distanceMatrix : option (list (list Q))) (origin : Coordinates)
  (originIndex targetEndIndex : nat) : Completion (list AppointmentData) :=
  let targetEndAppointment := nth_error appointments targetEndIndex in
  let* left := whileSeveral (length appointments) appointments
                 distanceMatrix targetEndAppointment appointments []
                 originIndex in
  match fst left with
  | [lastOne] => Normal (snd left ++ [lastOne])
  | _ => Normal (snd left)
  end.

(** The matrix index of a stop of the route, found by its [id] among the
    appointments of the page. *)
Definition matrixIndex (appointments : list AppointmentData)
  (stop : AppointmentData) : nat :=
  plusOne (findIndex (byId stop) appointments).

(** The loop over consecutive appointments of a route. *)
Fixpoint addLegs (appointments : list AppointmentData)
  (distanceMatrix : option (list (list Q)))
  (route : list AppointmentData) (totalDistance : number)
  : Completion number :=
  match route with
  | a :: (b :: _) as rest =>
      let currentIndex := matrixIndex appointments a in
      let nextIndex := matrixIndex appointments b in
      let* leg := cell distanceMatrix currentIndex nextIndex in
      addLegs appointments distanceMatrix rest (plus totalDistance leg)
  | _ => Normal totalDistance
  end.

(** [appointments] is the list the page holds, which is the list the
    optimizer is called with. *)
Definition calculateRoundTripDistance (appointments : list AppointmentData)
  (route : list AppointmentData) (origin : Coordinates)
  (distanceMatrix : option (list (list Q))) (hasStartLocation : bool)
  : Completion number :=
  match route with
  | [] => Normal (Num 0)
  | first :: _ =>
      let originIndex := 0%nat in
      let* totalDistance :=
        if hasStartLocation then
          let firstAppointmentIndex := matrixIndex appointments first in
          let* leg := cell distanceMatrix originIndex firstAppointmentIndex in
          Normal (plus (Num 0) leg)
        else Normal (Num 0) in
      let* totalDistance :=
        addLegs appointments distanceMatrix route totalDistance in
      let lastAppointmentIndex :=
        matrixIndex appointments (last route first) in
      let* returnDistance :=
        cell distanceMatrix lastAppointmentIndex originIndex in
      Normal (plus totalDistance returnDistance)
  end.

(** The variables [bestRoute] and [bestTotalDistance]. *)
Record Best : Type := {
  bestRoute : list AppointmentData;
  bestTotalDistance : number
}.

(** The body of the loop over [potentialEndIndex]. *)
Definition tryEnding (appointments : list AppointmentData)
  (distanceMatrix : option (list (list Q))) (origin : Coordinates)
  (hasStartLocation : bool) (b : Best) (potentialEndIndex : nat)
  : Completion Best :=
  let* routeCandidate :=
    optimizeSingleRoute appointments distanceMatrix origin 0
      potentialEndIndex in
  let* totalDistance :=
    calculateRoundTripDistance appointments routeCandidate origin
      distanceMatrix hasStartLocation in
  if lessThan totalDistance (bestTotalDistance b)
  then Normal {| bestRoute := routeCandidate;
                 bestTotalDistance := totalDistance |}
  else Normal b.

(** The round-trip optimizer run on a given matrix. *)
Definition bestOverEndings (appointments : list AppointmentData)
  (distanceMatrix : option (list (list Q))) (origin : Coordinates)
  (hasStartLocation : bool) : Completion (list AppointmentData) :=
  let* b := forLoop
              (tryEnding appointments distanceMatrix origin hasStartLocation)
              0 (length appointments)
              {| bestRoute := []; bestTotalDistance := Infinity |} in
  Normal (bestRoute b).

Definition optimizeRouteWithDriving (appointments : list AppointmentData)
  (startLocation : option Coordinates) (outcome : FetchOutcome)
  : Completion (list AppointmentData) :=
  if (length appointments <=? 1)%nat then Normal appointments
  else
    let coords := map coordsOf appointments in
    let* origin :=
      match startLocation, coords with
      | Some start, _ => Normal start
      | None, first :: _ => Normal first
      | None, [] => TypeError
      end in
    let allCoords := origin :: coords in
    let distanceMatrix :=
      calculateDistanceMatrix allCoords allCoords outcome in
    bestOverEndings appointments distanceMatrix origin
      (match startLocation with Some _ => true | None => false end).

End WithDistance.

End Client.

(** ** The plain optimize route: the handler *)

(** Whether a number is truthy: every number but zero is. *)
Definition truthy (x : Q) : bool := negb (Qeq_bool x 0).

Module OptimizeHandler.

(** The JSON documents the handler answers with. *)
Module Reply.

Record Stored : Type := {
  appointment : AppointmentData;
  optimizedOrder : nat;
  suggestedTime : option string
}.

Record Optimization : Type := {
  optimizedRoute : list Stored;
  totalDistance : Q;
  totalTravelTime : Z;
  startingLocation : option Coordinates
}.

Inductive Body : Type :=
| Failure (error : string)
| Success (result : Optimization).

Record Response : Type := {
  body : Body;
  status : nat
}.

End Reply.

(** The parsed request body: [startTime] and [startingLocation], either of
    which may be absent. *)
Record Request : Type := {
  startTime : option TimeOfDay;
  startingLocation : option Coordinates
}.

(** [startCoords]: the starting location is kept only when it is there and
    both its [lat] and its [lng] are truthy; [parseFloat] leaves a number as
    it is. *)
Definition startCoordsOf (startingLocation : option Coordinates)
  : option Coordinates :=
  match startingLocation with
  | Some given =>
      if (truthy (lat given) && truthy (lng given))%bool
      then Some {| lat := lat given; lng := lng given |}
      else None
  | None => None
  end.

Section WithDistance.

(** [calculateDistance], the haversine distance in miles. *)
Variable calculateDistance : Coordinates -> Coordinates -> Q.

(** The handler [POST].  [session] is the id of the user of the session
    ([None] when there is no session or no user id in it), [request] is
    [None] when the body is not JSON, [stored] is what
    [prisma.appointment.findMany] returns for the user.  The table's key is
    [id], so after the updates the second [findMany] reads the rows back in
    the order the updates assigned. *)
Definition POST (session : option string) (request : option Request)
  (stored : list AppointmentData) : Reply.Response * list Call :=
  let failed :=
    {| Reply.body := Reply.Failure "Failed to optimize route";
       Reply.status := 500 |} in
  let unauthorized :=
    {| Reply.body := Reply.Failure "Unauthorized"; Reply.status := 401 |} in
  match session with
  | None => (unauthorized, [])
  | Some userId =>
      if String.eqb userId "" then (unauthorized, [])
      else
        match request with
        | None => (failed, [])
        | Some req =>
            let startTime :=
              match startTime req with
              | Some t => t
              | None => {| hours := 9; minutes := 0 |}
              end in
            let appointments := stored in
            let calls := [PrismaFindMany userId "createdAt"] in
            if (length appointments =? 0)%nat then
              ({| Reply.body :=
                    Reply.Failure "No appointments found to optimize";
                  Reply.status := 400 |}, calls)
            else
              let startCoords := startCoordsOf (startingLocation req) in
              match OptimizeApi.optimizeRoute calculateDistance appointments
                      startCoords with
              | TypeError => (failed, calls)
              | Normal optimizedRoute =>
                  let suggestedTimes :=
                    OptimizeApi.generateAppointmentTimes calculateDistance
                      optimizedRoute startTime 3 in
                  let totalDistance :=
                    OptimizeApi.calculateTotalDistance calculateDistance
                      optimizedRoute startCoords in
                  let updates :=
                    mapi (fun apt index =>
                            PrismaUpdate (id apt) (index + 1)
                              (nth_error suggestedTimes index))
                      optimizedRoute 0 in
                  let updatedAppointments :=
                    mapi (fun apt index =>
                            {| Reply.appointment := apt;
                               Reply.optimizedOrder := index + 1;
                               Reply.suggestedTime :=
                                 nth_error suggestedTimes index |})
                      optimizedRoute 0 in
                  ({| Reply.body :=
                        Reply.Success
                          {| Reply.optimizedRoute := updatedAppointments;
                             Reply.totalDistance := totalDistance;
                             Reply.totalTravelTime :=
                               Qceiling (totalDistance * 3);
                             Reply.startingLocation := startCoords |};
                      Reply.status := 200 |},
                   calls ++ updates
                     ++ [PrismaFindMany userId "optimizedOrder"])
              end
        end
  end.

End WithDistance.

End OptimizeHandler.

(** ** The distance route (server side, one pair) *)

Module DistanceApi.

(** One cell of the provider's answer: [element.status],
    [element.distance.value] in meters and [element.duration.value] in
    seconds ([None] when the object is absent). *)
Module Element.
Record t : Type := {
  status : string;
  distance : option Q;
  duration : option Q
}.
End Element.

Module Row.
Record t : Type := { elements : list Element.t }.
End Row.

(** The provider's answer: [data.status] and [data.rows]. *)
Module Data.
Record t : Type := { status : string; rows : list Row.t }.
End Data.

(** What the call to the provider comes to: the fetch is rejected, or it
    answers with a body that is JSON ([Some data]) or is not ([None]). *)
Inductive Provider : Type :=
| Rejected
| Answered (data : option Data.t).

(** The parsed request body; a field is [None] when it is absent. *)
Record Request : Type := {
  origin : option Coordinates;
  destination : option Coordinates
}.

Inductive Response : Type :=
| Failure (error : string) (status : nat)
| Success (distance duration : Q).

Definition metersToMiles : Q := 621371 # 1000000000.

Definition providerUrl : string :=
  "https://maps.googleapis.com/maps/api/distancematrix/json".

(** The test [!origin || !destination || !origin.lat || !origin.lng ||
    !destination.lat || !destination.lng], negated. *)
Definition validPair (origin destination : Coordinates) : bool :=
  (truthy (lat origin) && truthy (lng origin)
   && truthy (lat destination) && truthy (lng destination))%bool.

(** [process.env.GOOGLE_MAPS_API_KEY] is there and is not empty. *)
Definition configured (apiKey : option string) : bool :=
  match apiKey with
  | Some key => negb (String.eqb key "")
  | None => false
  end.

Section WithDistance.

(** The haversine distance in miles, which the handler computes in line. *)
Variable haversine : Coordinates -> Coordinates -> Q.

(** The answer computed without the provider. *)
Definition fallback (origin destination : Coordinates) : Response :=
  let distance := haversine origin destination in
  Success distance (distance * 3).

(** The answer read from the provider's data; anything that is not there
    throws or fails the test, and the handler falls back. *)
Definition fromProvider (origin destination : Coordinates)
  (provider : Provider) : Response :=
  match provider with
  | Answered (Some data) =>
      if String.eqb (Data.status data) "OK" then
        match Data.rows data with
        | row :: _ =>
            match Row.elements row with
            | element :: _ =>
                if String.eqb (Element.status element) "OK" then
                  match Element.distance element,
                        Element.duration element with
                  | Some meters, Some seconds =>
                      let distanceInMiles := meters * metersToMiles in
                      let durationInMinutes := seconds / 60 in
                      Success distanceInMiles durationInMinutes
                  | _, _ => fallback origin destination
                  end
                else fallback origin destination
            | [] => fallback origin destination
            end
        | [] => fallback origin destination
        end
      else fallback origin destination
  | _ => fallback origin destination
  end.

(** The handler [POST].  [authorized] tells whether the session carries a
    user id, [request] is [None] when the body is not JSON, [apiKey] is the
    configured key if any and [provider] is what the call to the provider
    comes to, should it be made.  The query string of the call is left out
    of its trace. *)
Definition POST (authorized : bool) (request : option Request)
  (apiKey : option string) (provider : Provider) : Response * list Call :=
  if negb authorized then (Failure "Unauthorized" 401, [])
  else
    match request with
    | None => (Failure "Failed to calculate distance" 500, [])
    | Some req =>
        match origin req, destination req with
        | Some origin, Some destination =>
            if validPair origin destination then
              if configured apiKey
              then (fromProvider origin destination provider,
                    [Fetch providerUrl])
              else (fallback origin destination, [])
            else (Failure "Invalid coordinates provided" 400, [])
        | _, _ => (Failure "Invalid coordinates provided" 400, [])
        end
    end.

End WithDistance.

End DistanceApi.

(** ** The client-side distance of one leg *)

Module DrivingClient.

(** An object with the fields [distance] and [duration], either of which
    may be [undefined]: the body of the answer of [/api/distance], and what
    [calculateDrivingDistance] returns. *)
Record Leg : Type := {
  distance : option Q;
  duration : option Q
}.

(** What [fetch('/api/distance')] comes to: it is rejected, or it answers
    with [response.ok] and a body that is JSON or is not. *)
Inductive FetchOutcome : Type :=
| Rejected
| Responded (ok : bool) (json : option Leg).

Section WithDistance.

(** [calculateHaversineDistance], the haversine distance in miles. *)
Variable calculateHaversineDistance : Coordinates -> Coordinates -> Q.

Definition calculateDrivingDistance (origin destination : Coordinates)
  (outcome : FetchOutcome) : Leg :=
  match outcome with
  | Responded true (Some data) =>
      {| distance := distance data; duration := duration data |}
  | _ =>
      let distance := calculateHaversineDistance origin destination in
      {| distance := Some distance; duration := Some (distance * 3) |}
  end.

End WithDistance.

End DrivingClient.

(** ** The client-side open-path optimizer (distance matrix) *)

Module OpenPathClient.

(** The matrix index of an appointment: [appointments.indexOf(appointment)],
    plus one when the starting location holds index 0; [None] is [-1]. *)
Definition matrixIndex (hasStart : bool) (appointments : list AppointmentData)
  (appointment : AppointmentData) : option nat :=
  match indexOf appointments appointment, hasStart with
  | Some i, true => Some (S i)
  | Some i, false => Some i
  | None, true => Some 0%nat
  | None, false => None
  end.

(** [distanceMatrix[i][j]]: reading a row of an absent matrix or a cell of an
    absent row throws; an absent cell is [undefined]; no row and no cell has
    the index [-1]. *)
Definition cellAt (distanceMatrix : option (list (list Q)))
  (i j : option nat) : Completion number :=
  match distanceMatrix, i with
  | Some matrix, Some i' =>
      match nth_error matrix i' with
      | None => TypeError
      | Some row =>
          Normal (match j with
                  | Some j' => toNumber (nth_error row j')
                  | None => NaN
                  end)
      end
  | _, _ => TypeError
  end.

(** The callback of [unvisited.forEach]. *)
Definition nearer (appointments : list AppointmentData)
  (distanceMatrix : option (list (list Q))) (hasStart : bool)
  (currentIndex : option nat) (n : Nearest)
  (appointment : AppointmentData) (index : nat) : Completion Nearest :=
  let appointmentIndex := matrixIndex hasStart appointments appointment in
  let* distance := cellAt distanceMatrix currentIndex appointmentIndex in
  if lessThan distance (nearestDistance n)
  then Normal {| nearestIndex := index; nearestDistance := distance |}
  else Normal n.

(** The [while (unvisited.length > 0)] loop, unrolled at most [turns]
    times; the value is [route] when the loop is left. *)
Fixpoint whileUnvisited (turns : nat) (appointments : list AppointmentData)
  (distanceMatrix : option (list (list Q))) (hasStart : bool)
  (unvisited route : list AppointmentData) (currentIndex : option nat)
  : Completion (list AppointmentData) :=
  match unvisited, turns with
  | [], _ => Normal route
  | _, O => Normal route
  | _, S turns' =>
      let* n := forEachC
                  (nearer appointments distanceMatrix hasStart currentIndex)
                  unvisited 0 noneYet in
      match nth_error unvisited (nearestIndex n) with
      | None => TypeError
      | Some nearestAppointment =>
          whileUnvisited turns' appointments distanceMatrix hasStart
            (removeAt (nearestIndex n) unvisited)
            (route ++ [nearestAppointment])
            (matrixIndex hasStart appointments nearestAppointment)
      end
  end.

Section WithDistance.

(** [calculateHaversineDistance], the haversine distance in miles. *)
Variable calculateHaversineDistance : Coordinates -> Coordinates -> Q.

(** [calculateDistanceMatrix] is the function of the round-trip page. *)
Definition optimizeRouteWithDriving (appointments : list AppointmentData)
  (startLocation : option Coordinates) (outcome : Client.FetchOutcome)
  : Completion (list AppointmentData) :=
  if (length appointments <=? 1)%nat then Normal appointments
  else
    let coords := map coordsOf appointments in
    let allCoords :=
      match startLocation with
      | Some start => start :: coords
      | None => coords
      end in
    let distanceMatrix :=
      Client.calculateDistanceMatrix calculateHaversineDistance
        allCoords allCoords outcome in
    whileUnvisited (length appointments) appointments distanceMatrix
      (match startLocation with Some _ => true | None => false end)
      appointments [] (Some 0%nat).

End WithDistance.

End OpenPathClient.

(** ** The round-trip page: optimizing on the client *)

Module RoundTripPage.

(** [interface StartingLocation]. *)
Module StartingLocation.
Record t : Type := {
  address : string;
  coordinates : Coordinates;
  isSet : bool
}.
End StartingLocation.

(** [interface ScheduledAppointment]: the fields of the appointment, its
    [coordinates], [isStart] ([false] where the field is absent) and the
    [suggestedTime] the function writes. *)
Module Scheduled.
Record t : Type := {
  appointment : AppointmentData;
  coordinates : Coordinates;
  isStart : bool;
  suggestedTime : string
}.
End Scheduled.

(** The state variables [optimizeAppointments] sets. *)
Record Page : Type := {
  optimizedRoute : list Scheduled.t;
  scheduledAppointments : list Scheduled.t;
  totalDistance : number;
  returnTime : option string
}.

(** The bodies of the requests sent to [/api/distance], in the order they
    are sent: an origin and a destination each. *)
Definition Requests : Type := list (Coordinates * Coordinates).

(** [Math.ceil(duration)]; [None] is [NaN], the ceiling of [undefined]. *)
Definition ceil (duration : option Q) : option Z :=
  option_map Qceiling duration.

(** [d.setMinutes(d.getMinutes() + k)]; [None] is the Invalid Date, which a
    [NaN] produces and which stays invalid. *)
Definition plusMinutes (d : option Date) (k : option Z) : option Date :=
  match d, k with
  | Some d', Some k' => Some (addMinutes d' k')
  | _, _ => None
  end.

(** [d.toLocaleTimeString('en-US', { hour: '2-digit', minute: '2-digit' })]. *)
Definition clock (d : option Date) : string :=
  match d with
  | Some d' => toLocaleTimeString d'
  | None => "Invalid Date"
  end.

(** The entry pushed for the starting point. *)
Definition startingPoint (startingLocation : StartingLocation.t)
  (currentTime : option Date) : Scheduled.t :=
  {| Scheduled.appointment :=
       {| id := "0"; client := "Starting Point";
          address := StartingLocation.address startingLocation;
          appointmentType := ""; duration := 0; notes := Some ""%string;
          latitude := lat (StartingLocation.coordinates startingLocation);
          longitude := lng (StartingLocation.coordinates startingLocation) |};
     Scheduled.coordinates := StartingLocation.coordinates startingLocation;
     Scheduled.isStart := true;
     Scheduled.suggestedTime := clock currentTime |}.

Section WithNetwork.

(** [calculateHaversineDistance], the haversine distance in miles. *)
Variable calculateHaversineDistance : Coordinates -> Coordinates -> Q.

(** What the fetch of [/api/distance] comes to, for every request by the
    number of requests sent before it. *)
Variable distanceApi : nat -> DrivingClient.FetchOutcome.

(** [await calculateDrivingDistance(origin, destination)]: one request. *)
Definition drive (origin destination : Coordinates) (sent : Requests)
  : DrivingClient.Leg * Requests :=
  (DrivingClient.calculateDrivingDistance calculateHaversineDistance
     origin destination (distanceApi (length sent)),
   sent ++ [(origin, destination)]).

(** The loop over consecutive points of [routeCoords], adding to
    [totalRoundTripDistance] and [totalDrivingTime]. *)
Fixpoint outbound (routeCoords : list Coordinates)
  (totalRoundTripDistance totalDrivingTime : number) (sent : Requests)
  : number * number * Requests :=
  match routeCoords with
  | a :: (b :: _) as rest =>
      let '(leg, sent) := drive a b sent in
      outbound rest
        (plus totalRoundTripDistance (toNumber (DrivingClient.distance leg)))
        (plus totalDrivingTime (toNumber (DrivingClient.duration leg)))
        sent
  | _ => (totalRoundTripDistance, totalDrivingTime, sent)
  end.

(** The round-trip metrics.  The return leg is reported with
    [returnDistance.toFixed(1)], which throws when the answer carries no
    distance. *)
Definition metrics (startingLocation : StartingLocation.t)
  (optimizedAppointments : list AppointmentData)
  : Completion (number * number) * Requests :=
  if (0 <? length optimizedAppointments)%nat then
    let routeCoords :=
      if StartingLocation.isSet startingLocation
      then StartingLocation.coordinates startingLocation
           :: map coordsOf optimizedAppointments
      else map coordsOf optimizedAppointments in
    let '(totalRoundTripDistance, totalDrivingTime, sent) :=
      outbound routeCoords (Num 0) (Num 0) [] in
    match routeCoords with
    | firstCoord :: _ :: _ =>
        let lastCoord := last routeCoords firstCoord in
        let '(leg, sent) := drive lastCoord firstCoord sent in
        match DrivingClient.distance leg with
        | None => (TypeError, sent)
        | Some returnDistance =>
            (Normal
               (plus totalRoundTripDistance (Num returnDistance),
                plus totalDrivingTime
                  (toNumber (DrivingClient.duration leg))),
             sent)
        end
    | _ => (Normal (totalRoundTripDistance, totalDrivingTime), sent)
    end
  else (Normal (Num 0, Num 0), []).

(** The loop over [optimizedAppointments] that pushes the schedule;
    [previous] is [optimizedAppointments[i - 1]] ([None] at [i = 0]). *)
Fixpoint schedule (startingLocation : StartingLocation.t)
  (previous : option AppointmentData) (rest : list AppointmentData)
  (currentTime : option Date) (scheduledAppointments : list Scheduled.t)
  (sent : Requests) : list Scheduled.t * option Date * Requests :=
  match rest with
  | [] => (scheduledAppointments, currentTime, sent)
  | appointment :: rest' =>
      let '(currentTime, sent) :=
        match previous with
        | None =>
            if StartingLocation.isSet startingLocation then
              let '(leg, sent) :=
                drive (StartingLocation.coordinates startingLocation)
                  (coordsOf appointment) sent in
              (plusMinutes currentTime (ceil (DrivingClient.duration leg)),
               sent)
            else (currentTime, sent)
        | Some prevAppointment =>
            let '(leg, sent) :=
              drive (coordsOf prevAppointment) (coordsOf appointment) sent in
            (plusMinutes currentTime (ceil (DrivingClient.duration leg)),
             sent)
        end in
      let entry :=
        {| Scheduled.appointment := appointment;
           Scheduled.coordinates := coordsOf appointment;
           Scheduled.isStart := false;
           Scheduled.suggestedTime := clock currentTime |} in
      schedule startingLocation (Some appointment) rest'
        (plusMinutes currentTime (Some (duration appointment)))
        (scheduledAppointments ++ [entry]) sent
  end.

(** The [try] block of [optimizeAppointments].  [appointments],
    [startingLocation], [startTime] and [returnTime] are the state of the
    page, [matrix] is what the fetch of [/api/distance-matrix] comes to.
    The result is the state the block sets, or the error that sends the
    function to its [catch] block (which asks [/api/optimize] instead),
    together with the requests sent to [/api/distance]. *)
Definition optimizeAppointments (appointments : list AppointmentData)
  (startingLocation : StartingLocation.t) (startTime : TimeOfDay)
  (returnTime : option string) (matrix : Client.FetchOutcome)
  : Completion Page * Requests :=
  let isSet := StartingLocation.isSet startingLocation in
  match Client.optimizeRouteWithDriving calculateHaversineDistance
          appointments
          (if isSet
           then Some (StartingLocation.coordinates startingLocation)
           else None)
          matrix with
  | TypeError => (TypeError, [])
  | Normal optimizedAppointments =>
      match metrics startingLocation optimizedAppointments with
      | (TypeError, sent) => (TypeError, sent)
      | (Normal (totalRoundTripDistance, _), sent) =>
          let currentTime := Some (newDate startTime) in
          let scheduledAppointments :=
            if isSet then [startingPoint startingLocation currentTime]
            else [] in
          let '(scheduledAppointments, currentTime, sent) :=
            schedule startingLocation None optimizedAppointments
              currentTime scheduledAppointments sent in
          let '(estimatedReturnTime, sent) :=
            match optimizedAppointments, isSet with
            | first :: _, true =>
                let lastAppointment := last optimizedAppointments first in
                let '(leg, sent) :=
                  drive (coordsOf lastAppointment)
                    (StartingLocation.coordinates startingLocation) sent in
                (plusMinutes currentTime
                   (ceil (DrivingClient.duration leg)), sent)
            | _, _ => (currentTime, sent)
            end in
          (Normal
             {| optimizedRoute := scheduledAppointments;
                scheduledAppointments := scheduledAppointments;
                totalDistance := totalRoundTripDistance;
                returnTime :=
                  if isSet then Some (clock estimatedReturnTime)
                  else returnTime |},
           sent)
      end
  end.

End WithNetwork.

End RoundTripPage.

(** ** The haversine distance in floating point

    The code computes the haversine distance in IEEE 754 double precision.
    [Doubles.calculateDistance] is its formula over the binary64 floats of
    the kernel, whose sum, product, quotient and square root are the
    operations of the code; [Math.sin], [Math.cos] and [Math.atan2] are
    parameters.  For some pairs of valid points, such as (8, 0) and
    (-8, 180), which are antipodal, the rounded sum [a] exceeds 1, the
    square root of [1 - a] is [NaN] and so is the distance. *)

Module Doubles.

Record Point : Type := { lat : float; lng : float }.

(** [Math.PI]. *)
Definition PI : float := 0x1.921fb54442d18p+1%float.

Section WithMath.

(** [Math.sin], [Math.cos] and [Math.atan2]. *)
Variable sin cos : float -> float.
Variable atan2 : float -> float -> float.

(** [calculateDistance] (and [calculateHaversineDistance], which has the
    same body); [radius] is the constant [R] of the source. *)
Definition calculateDistance (coord1 coord2 : Point) : float :=
  let radius := 3959%float in
  let dLat := ((lat coord2 - lat coord1) * PI / 180)%float in
  let dLon := ((lng coord2 - lng coord1) * PI / 180)%float in
  let a :=
    (sin (dLat / 2) * sin (dLat / 2)
     + cos (lat coord1 * PI / 180) * cos (lat coord2 * PI / 180)
       * sin (dLon / 2) * sin (dLon / 2))%float in
  let c := (2 * atan2 (PrimFloat.sqrt a) (PrimFloat.sqrt (1 - a)))%float in
  (radius * c)%float.

End WithMath.

End Doubles.

(** ** The program on any number

    The modules [RoundTripApi], [OptimizeApi] and [Client] above take the
    distance between two points as a rational: they are the program on
    points whose distances are numbers.  The modules of [Js] are the same
    functions with the distance taken in [number], so that it may be [NaN],
    and with a [Date] that may be the Invalid Date. *)

Module Js.

(** A [Date]: [Some m], the instant [m] minutes after 2024-01-01 00:00
    local time, or [None], the Invalid Date. *)
Definition Date : Type := option Z.

(** The largest time value of a [Date], 8.64e15 milliseconds on either side
    of the epoch, in minutes. *)
Definition maxMinutes : Z := 144000000000.

(** [Math.ceil(distance * travelTimePerMile)]; [None] when the product is
    not a finite number. *)
Definition travelMinutes (distance : number) (travelTimePerMile : Q)
  : option Z :=
  match distance with
  | Num miles => Some (Qceiling (miles * travelTimePerMile))
  | _ => None
  end.

(** [d.toLocaleTimeString('en-US', { hour: '2-digit', minute: '2-digit' })]. *)
Definition clock (d : Date) : string :=
  match d with
  | Some m => toLocaleTimeString m
  | None => "Invalid Date"
  end.

Section Clock.

(** The minutes from the epoch (1970-01-01 00:00 UTC) to 2024-01-01 00:00
    local time: 28401120 where local time is UTC. *)
Variable newYear : Z.

(** [TimeClip]: an instant farther than [maxMinutes] from the epoch is no
    time value. *)
Definition timeClip (m : Z) : Date :=
  if (Z.abs (newYear + m) <=? maxMinutes)%Z then Some m else None.

(** [new Date(`2024-01-01 ${startTime}`)]: the hour is at most 23 and the
    minute at most 59, or the time is 24:00. *)
Definition newDate (startTime : TimeOfDay) : Date :=
  let h := hours startTime in
  let m := minutes startTime in
  if (((0 <=? h) && (h <=? 23) && (0 <=? m) && (m <=? 59))
      || ((h =? 24) && (m =? 0)))%Z%bool
  then timeClip (60 * h + m)
  else None.

(** [d.setMinutes(d.getMinutes() + k)]; [k] is [None] when it is not a
    finite number.  The minutes of the Invalid Date are [NaN]. *)
Definition setMinutes (d : Date) (k : option Z) : Date :=
  match d, k with
  | Some m, Some k' => timeClip (m + k')
  | _, _ => None
  end.

End Clock.

(** *** The round-trip optimize route *)

Module RoundTripApi.

Section WithDistance.

(** [calculateDistance], the haversine distance in miles as the code
    computes it. *)
Variable calculateDistance : Coordinates -> Coordinates -> number.

(** The callback of [unvisited.forEach] in [optimizeSingleRoute]; [len] is
    [unvisited.length] and [target] is [appointments[targetEndIndex]]. *)
Definition nearerExcept (len : nat) (target : option AppointmentData)
  (currentLocation : Coordinates) (n : Nearest)
  (appointment : AppointmentData) (index : nat) : Completion Nearest :=
  let* isTarget :=
    if (1 <? len)%nat then
      match target with
      | Some targetEndAppointment =>
          Normal (String.eqb (id appointment) (id targetEndAppointment))
      | None => TypeError
      end
    else Normal false in
  if isTarget then Normal n
  else
    let distance := calculateDistance currentLocation (coordsOf appointment) in
    if lessThan distance (nearestDistance n)
    then Normal {| nearestIndex := index; nearestDistance := distance |}
    else Normal n.

(** The [while (unvisited.length > 0)] loop of [optimizeSingleRoute], unrolled
    at most [turns] times; the value is [route] when the loop is left. *)
Fixpoint whileUnvisited (turns : nat) (target : option AppointmentData)
  (unvisited route : list AppointmentData) (currentLocation : Coordinates)
  : Completion (list AppointmentData) :=
  match unvisited, turns with
  | [], _ => Normal route
  | [lastOne], _ => Normal (route ++ [lastOne])
  | _, O => Normal route
  | _, S turns' =>
      let* n := forEachC
                  (nearerExcept (length unvisited) target currentLocation)
                  unvisited 0 noneYet in
      match nth_error unvisited (nearestIndex n) with
      | None => TypeError
      | Some nearestAppointment =>
          whileUnvisited turns' target
            (removeAt (nearestIndex n) unvisited)
            (route ++ [nearestAppointment])
            (coordsOf nearestAppointment)
      end
  end.

Definition optimizeSingleRoute (appointments : list AppointmentData)
  (origin : Coordinates) (targetEndIndex : nat)
  : Completion (list AppointmentData) :=
  let targetEndAppointment := nth_error appointments targetEndIndex in
  whileUnvisited (length appointments) targetEndAppointment
    appointments [] origin.

(** The loop over consecutive appointments of a route. *)
Fixpoint addLegs (route : list AppointmentData) (totalDistance : number)
  : number :=
  match route with
  | a :: (b :: _) as rest =>
      addLegs rest
        (plus totalDistance (calculateDistance (coordsOf a) (coordsOf b)))
  | _ => totalDistance
  end.

Definition calculateRoundTripDistance (route : list AppointmentData)
  (origin : Coordinates) : number :=
  match route with
  | [] => Num 0
  | first :: _ =>
      let totalDistance :=
        plus (Num 0) (calculateDistance origin (coordsOf first)) in
      let totalDistance := addLegs route totalDistance in
      let lastAppointment := last route first in
      let returnDistance :=
        calculateDistance (coordsOf lastAppointment) origin in
      plus totalDistance returnDistance
  end.

(** The body of the loop over [endIndex]; the variables [bestRoute] and
    [bestTotalDistance] are a [RoundTripApi.Best]. *)
Definition tryEnding (appointments : list AppointmentData)
  (origin : Coordinates) (b : RoundTripApi.Best) (endIndex : nat)
  : Completion RoundTripApi.Best :=
  let* candidateRoute := optimizeSingleRoute appointments origin endIndex in
  let totalDistance := calculateRoundTripDistance candidateRoute origin in
  if lessThan totalDistance (RoundTripApi.bestTotalDistance b)
  then Normal {| RoundTripApi.bestRoute := candidateRoute;
                 RoundTripApi.bestTotalDistance := totalDistance |}
  else Normal b.

Definition optimizeRoundTripRoute (appointments : list AppointmentData)
  (startLocation : option Coordinates) : Completion RoundTripApi.RoundTrip :=
  if (length appointments <=? 1)%nat then
    let totalDistance :=
      match appointments, startLocation with
      | [only], Some start =>
          let toAppointment := calculateDistance start (coordsOf only) in
          let returnTrip := calculateDistance (coordsOf only) start in
          plus toAppointment returnTrip
      | _, _ => Num 0
      end in
    Normal {| RoundTripApi.route := appointments;
              RoundTripApi.totalDistance := totalDistance |}
  else
    let* origin :=
      match startLocation, appointments with
      | Some start, _ => Normal start
      | None, first :: _ => Normal (coordsOf first)
      | None, [] => TypeError
      end in
    let* b := forLoop (tryEnding appointments origin) 0 (length appointments)
                {| RoundTripApi.bestRoute := [];
                   RoundTripApi.bestTotalDistance := Infinity |} in
    Normal {| RoundTripApi.route := RoundTripApi.bestRoute b;
              RoundTripApi.totalDistance :=
                RoundTripApi.bestTotalDistance b |}.

(** The minutes from the epoch to 2024-01-01 00:00 local time. *)
Variable newYear : Z.

(** The [route.forEach] of [generateAppointmentTimes]: [previous] is
    [route[index - 1]] ([None] at index 0), [currentTime] the running clock,
    [arrivals] the instants at which a time has been pushed so far. *)
Fixpoint walk (travelTimePerMile : Q) (origin : option Coordinates)
  (previous : option AppointmentData) (rest : list AppointmentData)
  (currentTime : Date) (arrivals : list Date) : list Date * Date :=
  match rest with
  | [] => (arrivals, currentTime)
  | appointment :: rest' =>
      let currentTime :=
        match previous, origin with
        | Some before, _ =>
            let distance :=
              calculateDistance (coordsOf before) (coordsOf appointment) in
            setMinutes newYear currentTime
              (travelMinutes distance travelTimePerMile)
        | None, Some start =>
            let distance := calculateDistance start (coordsOf appointment) in
            setMinutes newYear currentTime
              (travelMinutes distance travelTimePerMile)
        | None, None => currentTime
        end in
      let arrivals := arrivals ++ [currentTime] in
      let currentTime :=
        setMinutes newYear currentTime (Some (duration appointment)) in
      walk travelTimePerMile origin (Some appointment) rest'
        currentTime arrivals
  end.

(** The instant of arrival at every stop, in route order. *)
Definition arrivalInstants (route : list AppointmentData)
  (startTime : TimeOfDay) (travelTimePerMile : Q)
  (origin : option Coordinates) : list Date :=
  fst (walk travelTimePerMile origin None route (newDate newYear startTime)
         []).

(** Every pushed time is the rendering of the clock at that instant. *)
Definition generateAppointmentTimes (route : list AppointmentData)
  (startTime : TimeOfDay) (travelTimePerMile : Q)
  (origin : option Coordinates) : RoundTripApi.Schedule :=
  let '(arrivals, currentTime) :=
    walk travelTimePerMile origin None route (newDate newYear startTime)
      [] in
  let returnTime :=
    match origin, route with
    | Some start, first :: _ =>
        let lastAppointment := last route first in
        let returnDistance :=
          calculateDistance (coordsOf lastAppointment) start in
        let returnTravelMinutes :=
          travelMinutes returnDistance travelTimePerMile in
        Some (clock (setMinutes newYear currentTime returnTravelMinutes))
    | _, _ => None
    end in
  {| RoundTripApi.times := map clock arrivals;
     RoundTripApi.returnTime := returnTime |}.

End WithDistance.

End RoundTripApi.

(** *** The plain optimize route: the schedule *)

Module OptimizeApi.

Section WithDistance.

(** [calculateDistance], the haversine distance in miles as the code
    computes it. *)
Variable calculateDistance : Coordinates -> Coordinates -> number.

(** The minutes from the epoch to 2024-01-01 00:00 local time. *)
Variable newYear : Z.

(** The [route.forEach] of [generateAppointmentTimes]. *)
Fixpoint walk (travelTimePerMile : Q)
  (previous : option AppointmentData) (rest : list AppointmentData)
  (currentTime : Date) (arrivals : list Date) : list Date * Date :=
  match rest with
  | [] => (arrivals, currentTime)
  | appointment :: rest' =>
      let currentTime :=
        match previous with
        | Some before =>
            let distance :=
              calculateDistance (coordsOf before) (coordsOf appointment) in
            setMinutes newYear currentTime
              (travelMinutes distance travelTimePerMile)
        | None => currentTime
        end in
      let arrivals := arrivals ++ [currentTime] in
      let currentTime :=
        setMinutes newYear currentTime (Some (duration appointment)) in
      walk travelTimePerMile (Some appointment) rest' currentTime arrivals
  end.

(** The instant of arrival at every stop, in route order. *)
Definition arrivalInstants (route : list AppointmentData)
  (startTime : TimeOfDay) (travelTimePerMile : Q) : list Date :=
  fst (walk travelTimePerMile None route (newDate newYear startTime) []).

(** Every pushed time is the rendering of the clock at that instant. *)
Definition generateAppointmentTimes (route : list AppointmentData)
  (startTime : TimeOfDay) (travelTimePerMile : Q) : list string :=
  map clock (arrivalInstants route startTime travelTimePerMile).

End WithDistance.

End OptimizeApi.

(** *** The client-side round-trip optimizer

    The matrix the optimizer works on holds the cells of the answer of
    [/api/distance-matrix], which are numbers, or the haversine distances
    the page computes by itself, which may be [NaN]. *)

Module Client.

(** [distanceMatrix[i][j]]: reading a row of an absent matrix or a cell of an
    absent row throws; an absent cell is [undefined]. *)
Definition cell (distanceMatrix : option (list (list number))) (i j : nat)
  : Completion number :=
  match distanceMatrix with
  | None => TypeError
  | Some matrix =>
      match nth_error matrix i with
      | None => TypeError
      | Some row =>
          Normal (match nth_error row j with
                  | Some distance => distance
                  | None => NaN
                  end)
      end
  end.

Section WithDistance.

(** [calculateHaversineDistance], the haversine distance in miles as the
    code computes it. *)
Variable calculateHaversineDistance : Coordinates -> Coordinates -> number.

Definition haversineMatrix (origins destinations : list Coordinates)
  : list (list number) :=
  map (fun origin =>
         map (fun dest => calculateHaversineDistance origin dest)
           destinations)
    origins.

Definition calculateDistanceMatrix (origins destinations : list Coordinates)
  (outcome : Client.FetchOutcome) : option (list (list number)) :=
  if ((length origins =? 0)%nat || (length destinations =? 0)%nat)%bool
  then Some []
  else
    match outcome with
    | Client.Responded true (Some data) =>
        option_map (map (map Num)) (Client.distanceMatrix data)
    | _ => Some (haversineMatrix origins destinations)
    end.

(** The callback of [unvisited.forEach] in [optimizeSingleRoute]. *)
Definition nearerExcept (appointments : list AppointmentData)
  (distanceMatrix : option (list (list number))) (len : nat)
  (target : option AppointmentData) (currentIndex : nat)
  (s : Client.Selection) (appointment : AppointmentData) (index : nat)
  : Completion Client.Selection :=
  let* isTarget :=
    if (1 <? len)%nat then
      match target with
      | Some targetEndAppointment =>
          Normal (String.eqb (id appointment) (id targetEndAppointment))
      | None => TypeError
      end
    else Normal false in
  if isTarget then Normal s
  else
    let appointmentIndex := plusOne (indexOf appointments appointment) in
    let* distance := cell distanceMatrix currentIndex appointmentIndex in
    if lessThan distance (nearestDistance (Client.nearest s))
    then Normal {| Client.nearest := {| nearestIndex := index;
                                        nearestDistance := distance |};
                   Client.selectedAppointment := Some appointment |}
    else Normal s.

(** The selection made in one turn of the loop of [optimizeSingleRoute]. *)
Definition select (appointments : list AppointmentData)
  (distanceMatrix : option (list (list number)))
  (target : option AppointmentData) (unvisited : list AppointmentData)
  (currentIndex : nat) : Completion Client.Selection :=
  let nothing := {| Client.nearest := noneYet;
                    Client.selectedAppointment := None |} in
  let* forced :=
    if (length unvisited =? 2)%nat then
      match target with
      | None => TypeError
      | Some targetEndAppointment =>
          match findIndex (Client.byId targetEndAppointment) unvisited with
          | Some targetInRemaining =>
              let otherIndex :=
                if (targetInRemaining =? 0)%nat then 1%nat else 0%nat in
              Normal {| Client.nearest := {| nearestIndex := otherIndex;
                                             nearestDistance := Infinity |};
                        Client.selectedAppointment :=
                          nth_error unvisited otherIndex |}
          | None => Normal nothing
          end
      end
    else Normal nothing in
  let* scanned :=
    match Client.selectedAppointment forced with
    | Some _ => Normal forced
    | None =>
        forEachC
          (nearerExcept appointments distanceMatrix (length unvisited)
             target currentIndex)
          unvisited 0 forced
    end in
  match Client.selectedAppointment scanned with
  | Some _ => Normal scanned
  | None =>
      Normal {| Client.nearest :=
                  {| nearestIndex := 0;
                     nearestDistance :=
                       nearestDistance (Client.nearest scanned) |};
                Client.selectedAppointment := nth_error unvisited 0 |}
  end.

(** The [while (unvisited.length > 1)] loop of [optimizeSingleRoute],
    unrolled at most [turns] times; the value is [unvisited] and [route]
    when the loop is left. *)
Fixpoint whileSeveral (turns : nat) (appointments : list AppointmentData)
  (distanceMatrix : option (list (list number)))
  (target : option AppointmentData)
  (unvisited route : list AppointmentData) (currentIndex : nat)
  : Completion (list AppointmentData * list AppointmentData) :=
  if (length unvisited <=? 1)%nat then Normal (unvisited, route)
  else
    match turns with
    | O => Normal (unvisited, route)
    | S turns' =>
        let* s := select appointments distanceMatrix target unvisited
                    currentIndex in
        match nth_error unvisited (nearestIndex (Client.nearest s)) with
        | None => TypeError
        | Some nearestAppointment =>
            let appointmentIndex :=
              plusOne (indexOf appointments nearestAppointment) in
            whileSeveral turns' appointments distanceMatrix target
              (removeAt (nearestIndex (Client.nearest s)) unvisited)
              (route ++ [nearestAppointment])
              appointmentIndex
        end
    end.

Definition optimizeSingleRoute (appointments : list AppointmentData)
  (distanceMatrix : option (list (list number))) (origin : Coordinates)
  (originIndex targetEndIndex : nat) : Completion (list AppointmentData) :=
  let targetEndAppointment := nth_error appointments targetEndIndex in
  let* left := whileSeveral (length appointments) appointments
                 distanceMatrix targetEndAppointment appointments []
                 originIndex in
  match fst left with
  | [lastOne] => Normal (snd left ++ [lastOne])
  | _ => Normal (snd left)
  end.

(** The loop over consecutive appointments of a route. *)
Fixpoint addLegs (appointments : list AppointmentData)
  (distanceMatrix : option (list (list number)))
  (route : list AppointmentData) (totalDistance : number)
  : Completion number :=
  match route with
  | a :: (b :: _) as rest =>
      let currentIndex := Client.matrixIndex appointments a in
      let nextIndex := Client.matrixIndex appointments b in
      let* leg := cell distanceMatrix currentIndex nextIndex in
      addLegs appointments distanceMatrix rest (plus totalDistance leg)
  | _ => Normal totalDistance
  end.

(** [appointments] is the list the page holds, which is the list the
    optimizer is called with. *)
Definition calculateRoundTripDistance (appointments : list AppointmentData)
  (route : list AppointmentData) (origin : Coordinates)
  (distanceMatrix : option (list (list number))) (hasStartLocation : bool)
  : Completion number :=
  match route with
  | [] => Normal (Num 0)
  | first :: _ =>
      let originIndex := 0%nat in
      let* totalDistance :=
        if hasStartLocation then
          let firstAppointmentIndex :=
            Client.matrixIndex appointments first in
          let* leg := cell distanceMatrix originIndex firstAppointmentIndex in
          Normal (plus (Num 0) leg)
        else Normal (Num 0) in
      let* totalDistance :=
        addLegs appointments distanceMatrix route totalDistance in
      let lastAppointmentIndex :=
        Client.matrixIndex appointments (last route first) in
      let* returnDistance :=
        cell distanceMatrix lastAppointmentIndex originIndex in
      Normal (plus totalDistance returnDistance)
  end.

(** The body of the loop over [potentialEndIndex]. *)
Definition tryEnding (appointments : list AppointmentData)
  (distanceMatrix : option (list (list number))) (origin : Coordinates)
  (hasStartLocation : bool) (b : Client.Best) (potentialEndIndex : nat)
  : Completion Client.Best :=
  let* routeCandidate :=
    optimizeSingleRoute appointments distanceMatrix origin 0
      potentialEndIndex in
  let* totalDistance :=
    calculateRoundTripDistance appointments routeCandidate origin
      distanceMatrix hasStartLocation in
  if lessThan totalDistance (Client.bestTotalDistance b)
  then Normal {| Client.bestRoute := routeCandidate;
                 Client.bestTotalDistance := totalDistance |}
  else Normal b.

(** The round-trip optimizer run on a given matrix. *)
Definition bestOverEndings (appointments : list AppointmentData)
  (distanceMatrix : option (list (list number))) (origin : Coordinates)
  (hasStartLocation : bool) : Completion (list AppointmentData) :=
  let* b := forLoop
              (tryEnding appointments distanceMatrix origin hasStartLocation)
              0 (length appointments)
              {| Client.bestRoute := []; Client.bestTotalDistance := Infinity |} in
  Normal (Client.bestRoute b).

Definition optimizeRouteWithDriving (appointments : list AppointmentData)
  (startLocation : option Coordinates) (outcome : Client.FetchOutcome)
  : Completion (list AppointmentData) :=
  if (length appointments <=? 1)%nat then Normal appointments
  else
    let coords := map coordsOf appointments in
    let* origin :=
      match startLocation, coords with
      | Some start, _ => Normal start
      | None, first :: _ => Normal first
      | None, [] => TypeError
      end in
    let allCoords := origin :: coords in
    let distanceMatrix :=
      calculateDistanceMatrix allCoords allCoords outcome in
    bestOverEndings appointments distanceMatrix origin
      (match startLocation with Some _ => true | None => false end).

End WithDistance.

End Client.

End Js.

(** ** Sample data

    A distance that can be evaluated, for running the program on concrete
    inputs: the taxicab distance between two points of the plane.  Like the
    haversine distance it is never negative and vanishes between a point and
    itself. *)

Module Sample.

Definition taxicab (a b : Coordinates) : Q :=
  Qabs (lat b - lat a) + Qabs (lng b - lng a).

Definition point (x y : Q) : Coordinates := {| lat := x; lng := y |}.

Definition stop (name : string) (x y : Q) (minutes : Z) : AppointmentData :=
  {| id := name; client := name; address := ""; appointmentType := "";
     duration := minutes; notes := None; latitude := x; longitude := y |}.

Definition home : Coordinates := point 0 0.

Definition a1 : AppointmentData := stop "a1" 5 0 30.
Definition a2 : AppointmentData := stop "a2" 1 0 45.
Definition a3 : AppointmentData := stop "a3" 2 2 60.

Definition stops : list AppointmentData := [a1; a2; a3].

Definition nine : TimeOfDay := {| hours := 9; minutes := 0 |}.

(** An answer of the provider for two origins and two destinations, the
    cell from the first origin to the second destination being reported as
    failed. *)
Definition ok (meters : Q) : DistanceMatrixApi.Element.t :=
  {| DistanceMatrixApi.Element.status := "OK";
     DistanceMatrixApi.Element.distance := Some meters |}.

Definition notFound : DistanceMatrixApi.Element.t :=
  {| DistanceMatrixApi.Element.status := "NOT_FOUND";
     DistanceMatrixApi.Element.distance := None |}.

Definition answer : DistanceMatrixApi.Data.t :=
  {| DistanceMatrixApi.Data.status := "OK";
     DistanceMatrixApi.Data.rows :=
       [ {| DistanceMatrixApi.Row.elements := [ok 0; notFound] |};
         {| DistanceMatrixApi.Row.elements := [ok 1609344; ok 0] |} ] |}.

Definition places : list Coordinates := [home; point 0 1].

(** Two points with no zero coordinate. *)
Definition office : Coordinates := point 3 4.

Definition depot : Coordinates := point 1 1.

(** Requests to the two optimize routes, starting from home at nine. *)
Definition roundTripRequest : RoundTripApi.Request :=
  {| RoundTripApi.startTime := Some nine;
     RoundTripApi.startingLocation := Some home |}.

Definition optimizeRequest : OptimizeHandler.Request :=
  {| OptimizeHandler.startTime := Some nine;
     OptimizeHandler.startingLocation := Some home |}.

(** An answer of the provider in which the cell from the first origin to
    the second destination is reported as "OK" and carries no distance. *)
Definition silent : DistanceMatrixApi.Element.t :=
  {| DistanceMatrixApi.Element.status := "OK";
     DistanceMatrixApi.Element.distance := None |}.

Definition silentAnswer : DistanceMatrixApi.Data.t :=
  {| DistanceMatrixApi.Data.status := "OK";
     DistanceMatrixApi.Data.rows :=
       [ {| DistanceMatrixApi.Row.elements := [ok 0; silent] |};
         {| DistanceMatrixApi.Row.elements := [ok 1609344; ok 0] |} ] |}.

(** The matrix of the taxicab distances between home and the three stops. *)
Definition matrix : list (list Q) :=
  [[0; 5; 1; 4]; [5; 0; 4; 5]; [1; 4; 0; 3]; [4; 5; 3; 0]].

(** The page with home as its starting location and no request to
    [/api/distance] answered, and what it shows after optimizing. *)
Definition startingLocation : RoundTripPage.StartingLocation.t :=
  {| RoundTripPage.StartingLocation.address := "Home";
     RoundTripPage.StartingLocation.coordinates := home;
     RoundTripPage.StartingLocation.isSet := true |}.

Definition unreachable (k : nat) : DrivingClient.FetchOutcome :=
  DrivingClient.Rejected.

Definition shown (a : AppointmentData) (time : string)
  : RoundTripPage.Scheduled.t :=
  {| RoundTripPage.Scheduled.appointment := a;
     RoundTripPage.Scheduled.coordinates := coordsOf a;
     RoundTripPage.Scheduled.isStart := false;
     RoundTripPage.Scheduled.suggestedTime := time |}.

(** A distance that is [NaN] between two antipodal points, as the haversine
    distance the code computes for (8, 0) and (-8, 180) is, and the taxicab
    distance between any other two points. *)
Definition antipodal (a b : Coordinates) : bool :=
  Qeq_bool (lat a + lat b) 0 && Qeq_bool (Qabs (lng a - lng b)) 180.

Definition measured (a b : Coordinates) : number :=
  if antipodal a b then NaN else Num (taxicab a b).

(** The taxicab distance as a number. *)
Definition exact (a b : Coordinates) : number := Num (taxicab a b).

(** A base at (8, 0), a stop next to it and two stops at its antipode. *)
Definition base : Coordinates := point 8 0.

Definition near : AppointmentData := stop "near" 9 0 30.
Definition far : AppointmentData := stop "far" (-8) 180 30.
Definition farther : AppointmentData := stop "farther" (-8) 180 30.

(** A stop at the base itself. *)
Definition atBase : AppointmentData := stop "atBase" 8 0 30.

(** Sixty-nine visits of the longest duration a 32-bit column holds. *)
Definition longest : AppointmentData := stop "longest" 0 0 2147483647.

Definition longVisits : list AppointmentData := repeat longest 69.

(** The minutes from the epoch to 2024-01-01 00:00 where local time is
    UTC. *)
Definition utc : Z := 28401120.

(** Functions with the values [Math.sin], [Math.cos] and [Math.atan2] have
    at the arguments the haversine distance between (8, 0) and (-8, 180)
    asks for: the sine of pi/2 and of -4 degrees, the cosine of 8 and of -8
    degrees, and the arc tangent when its second argument is [NaN]. *)
Definition sinAt (x : float) : float :=
  if (x =? 0x1.921fb54442d18p+0)%float then 1%float
  else if (x =? -0x1.1df46a2529d39p-3)%float
       then (-0x1.1d06c968d9e19p-3)%float
       else 0%float.

Definition cosAt (x : float) : float :=
  if (abs x =? 0x1.1df46a2529d39p-3)%float
  then 0x1.fb046a930947ap-1%float
  else 1%float.

Definition atan2At (y x : float) : float :=
  if is_nan x then nan else 0%float.

Definition page : RoundTripPage.Page :=
  let entries :=
    [ RoundTripPage.startingPoint startingLocation (Some (newDate nine));
      shown a2 "09:03 AM"; shown a3 "09:57 AM"; shown a1 "11:12 AM" ] in
  {| RoundTripPage.optimizedRoute := entries;
     RoundTripPage.scheduledAppointments := entries;
     RoundTripPage.totalDistance := Num 14;
     RoundTripPage.returnTime := Some "11:57 AM"%string |}.

End Sample.

(** ** Predicates the properties are stated with *)

(** Every element is at most the one that follows it. *)
Fixpoint nonDecreasing (l : list Z) : Prop :=
  match l with
  | a :: (b :: _) as rest => (a <= b)%Z /\ nonDecreasing rest
  | _ => True
  end.

(** A distance function has the two properties of the haversine distance
    that the program relies on. *)
Definition neverNegative (distance : Coordinates -> Coordinates -> Q) : Prop :=
  forall a b, (0 <= distance a b)%Q.

Definition zeroOnItself (distance : Coordinates -> Coordinates -> Q) : Prop :=
  forall a, (distance a a == 0)%Q.

(** What a selection pass that skips the target has selected: nothing new,
    or a stop it went through, which is not the target and lies at a finite
    distance. *)
Definition selectedIn (target : AppointmentData) (l : list AppointmentData)
  (i : nat) (n n' : Nearest) : Prop :=
  n' = n
  \/ exists x q,
       nth_error l (nearestIndex n' - i) = Some x
       /\ (i <= nearestIndex n')%nat
       /\ id x <> id target
       /\ nearestDistance n' = Num q.

(** After the endings below [m] have been tried: either none has been
    (m = 0) and the best is still the initial one, or the best is the
    candidate of some ending [k] below [m], recorded with its round-trip
    distance, and no candidate of an ending below [m] is shorter. *)
Definition bestAmong (candidate : nat -> Completion (list AppointmentData))
  (roundTrip : list AppointmentData -> Q) (m : nat)
  (bestRoute : list AppointmentData) (bestTotalDistance : number) : Prop :=
  (bestTotalDistance = Infinity /\ m = 0%nat /\ bestRoute = [])
  \/ exists k,
       (k < m)%nat
       /\ candidate k = Normal bestRoute
       /\ bestTotalDistance = Num (roundTrip bestRoute)
       /\ forall j rj, (j < m)%nat -> candidate j = Normal rj ->
            (roundTrip bestRoute <= roundTrip rj)%Q.

(** The provider's answer has one row per origin and one element per
    destination in every row, and every element it reports as "OK" carries
    a distance. *)
Definition wellShaped (origins destinations : list Coordinates)
  (data : DistanceMatrixApi.Data.t) : Prop :=
  length (DistanceMatrixApi.Data.rows data) = length origins
  /\ Forall
       (fun row =>
          length (DistanceMatrixApi.Row.elements row) = length destinations
          /\ Forall
               (fun element =>
                  DistanceMatrixApi.Element.status element = "OK"%string ->
                  DistanceMatrixApi.Element.distance element <> None)
               (DistanceMatrixApi.Row.elements row))
       (DistanceMatrixApi.Data.rows data).

(** A matrix with [size] rows of [size] cells. *)
Definition square (size : nat) (matrix : list (list Q)) : Prop :=
  length matrix = size /\ Forall (fun row => length row = size) matrix.

(** The two ways the request for the distance matrix fails as a whole: the
    fetch is rejected (network error) or the response is not OK. *)
Definition failsAsAWhole (outcome : Client.FetchOutcome) : Prop :=
  outcome = Client.Rejected
  \/ exists json, outcome = Client.Responded false json.

(** The round-trip distance the client computes for a route, as a rational
    (0 when the computation does not end with a finite number). *)
Definition clientRoundTrip (appointments : list AppointmentData)
  (distanceMatrix : option (list (list Q))) (origin : Coordinates)
  (hasStartLocation : bool) (route : list AppointmentData) : Q :=
  match Client.calculateRoundTripDistance appointments route origin
          distanceMatrix hasStartLocation with
  | Normal (Num q) => q
  | _ => 0
  end.

(** A route is greedy from [current]: every stop is at least as near to the
    place the route is at when it is chosen as every stop chosen after it. *)
Fixpoint greedy (distance : Coordinates -> Coordinates -> Q)
  (current : Coordinates) (route : list AppointmentData) : Prop :=
  match route with
  | [] => True
  | x :: rest =>
      Forall (fun y => (distance current (coordsOf x)
                        <= distance current (coordsOf y))%Q) rest
      /\ greedy distance (coordsOf x) rest
  end.

(** The selection [n] is the first stop of [l] nearest to [current], among
    the stops that [counts] keeps. *)
Definition firstNearest (distance : Coordinates -> Coordinates -> Q)
  (counts : AppointmentData -> bool) (current : Coordinates)
  (l : list AppointmentData) (n : Nearest) : Prop :=
  exists x,
    nth_error l (nearestIndex n) = Some x
    /\ counts x = true
    /\ nearestDistance n = Num (distance current (coordsOf x))
    /\ forall j y, nth_error l j = Some y -> counts y = true ->
         (distance current (coordsOf x) <= distance current (coordsOf y))%Q
         /\ ((j < nearestIndex n)%nat ->
             (distance current (coordsOf x)
              < distance current (coordsOf y))%Q).

(** Every instant is a valid date and none is earlier than the one before
    it. *)
Fixpoint nonDecreasingDates (l : list Js.Date) : Prop :=
  match l with
  | a :: (b :: _) as rest =>
      (exists x y, a = Some x /\ b = Some y /\ (x <= y)%Z)
      /\ nonDecreasingDates rest
  | _ => True
  end.

(** Every instant that is a valid date comes after a valid date and is not
    earlier than it. *)
Fixpoint orderedWhileValid (l : list Js.Date) : Prop :=
  match l with
  | a :: (b :: _) as rest =>
      (forall y, b = Some y -> exists x, a = Some x /\ (x <= y)%Z)
      /\ orderedWhileValid rest
  | _ => True
  end.

(** A distance function is never negative where it is a number. *)
Definition neverNegativeNumber
  (distance : Coordinates -> Coordinates -> number) : Prop :=
  forall a b q, distance a b = Num q -> (0 <= q)%Q.

(** The distance between any two of the points is a number: it is the
    rational the second function gives. *)
Definition numbersAmong (points : list Coordinates)
  (distance : Coordinates -> Coordinates -> number)
  (miles : Coordinates -> Coordinates -> Q) : Prop :=
  forall a b, In a points -> In b points -> distance a b = Num (miles a b).

(** A table with [size] rows of [size] cells. *)
Definition squareTable {A : Type} (size : nat) (table : list (list A))
  : Prop :=
  length table = size /\ Forall (fun row => length row = size) table.

(** Every cell of the table is a number. *)
Definition numbersOnly (table : list (list number)) : Prop :=
  Forall (Forall (fun distance => exists q, distance = Num q)) table.

(** The legs of a path: every point paired with the one that follows it. *)
Fixpoint legs (points : list Coordinates) : list (Coordinates * Coordinates) :=
  match points with
  | a :: (b :: _) as rest => (a, b) :: legs rest
  | _ => []
  end.

(** A request to [/api/distance] that makes the page compute the leg by
    itself: the fetch is rejected, the response is not OK, or its body is
    not JSON. *)
Definition fallsBack (outcome : DrivingClient.FetchOutcome) : Prop :=
  outcome = DrivingClient.Rejected
  \/ (exists json, outcome = DrivingClient.Responded false json)
  \/ outcome = DrivingClient.Responded true None.

(** The starting location the page passes on: its coordinates when it is
    set. *)
Definition startOf (startingLocation : RoundTripPage.StartingLocation.t)
  : option Coordinates :=
  if RoundTripPage.StartingLocation.isSet startingLocation
  then Some (RoundTripPage.StartingLocation.coordinates startingLocation)
  else None.

(** The points the page measures the round trip over: the starting
    location, when it is set, and the stops of the route. *)
Definition routeCoordsOf (startingLocation : RoundTripPage.StartingLocation.t)
  (route : list AppointmentData) : list Coordinates :=
  match startOf startingLocation with
  | Some start => start :: map coordsOf route
  | None => map coordsOf route
  end.

(** The leg that closes a round trip over two points or more: from the last
    point back to the first. *)
Definition closingLeg (routeCoords : list Coordinates)
  : list (Coordinates * Coordinates) :=
  match routeCoords with
  | first :: _ :: _ => [(last routeCoords first, first)]
  | _ => []
  end.

(** The answer to the request for the closing leg is OK and carries no
    distance. *)
Definition closingLegUnanswered (distanceApi : nat -> DrivingClient.FetchOutcome)
  (routeCoords : list Coordinates) : bool :=
  match routeCoords, distanceApi (length routeCoords - 1)%nat with
  | _ :: _ :: _, DrivingClient.Responded true (Some leg) =>
      match DrivingClient.distance leg with
      | None => true
      | Some _ => false
      end
  | _, _ => false
  end.

(** The requests of the schedule loop of the page, entered with [previous]
    as the stop before. *)
Definition scheduleLegs (startingLocation : RoundTripPage.StartingLocation.t)
  (previous : option AppointmentData) (rest : list AppointmentData)
  : list (Coordinates * Coordinates) :=
  match previous with
  | Some before => legs (coordsOf before :: map coordsOf rest)
  | None => legs (routeCoordsOf startingLocation rest)
  end.

(** * Part II: properties *)

(** ** Arrays and comparisons *)

Lemma removeAt_length {A : Type} (i : nat) (l : list A) (x : A) :
  nth_error l i = Some x -> S (length (removeAt i l)) = length l.
Proof.
  revert i; induction l as [|y l IH]; intros [|i] H; simpl in *;
    try discriminate; auto.
Qed.

Lemma removeAt_perm {A : Type} (i : nat) (l : list A) (x : A) :
  nth_error l i = Some x -> Permutation (x :: removeAt i l) l.
Proof.
  revert i; induction l as [|y l IH]; intros [|i] H; simpl in *;
    try discriminate.
  - injection H as ->. reflexivity.
  - rewrite perm_swap. constructor. now apply IH.
Qed.

Lemma nth_error_in_range {A : Type} (l : list A) (i : nat) :
  (i < length l)%nat -> exists x, nth_error l i = Some x.
Proof.
  intros H. destruct (nth_error l i) as [x|] eqn:E.
  - now exists x.
  - apply nth_error_None in E. lia.
Qed.

Lemma Qltb_true (x y : Q) : Qltb x y = true <-> (x < y)%Q.
Proof.
  unfold Qltb. rewrite negb_true_iff. split.
  - intros H. apply Qnot_le_lt. intros L.
    apply Qle_bool_iff in L. congruence.
  - intros H. destruct (Qle_bool y x) eqn:E; auto.
    apply Qle_bool_iff in E. exfalso. now apply (Qlt_not_le x y).
Qed.

Lemma Qltb_false (x y : Q) : Qltb x y = false <-> (y <= x)%Q.
Proof.
  unfold Qltb. rewrite negb_false_iff. apply Qle_bool_iff.
Qed.

(** ** The haversine distance *)

Lemma atan_nonneg (x : R) : (0 <= x)%R -> (0 <= atan x)%R.
Proof.
  intros [H|<-].
  - left. rewrite <- atan_0. now apply atan_increasing.
  - rewrite atan_0. apply Rle_refl.
Qed.

Lemma atan2_nonneg (y x : R) :
  (0 <= y)%R -> (0 <= x)%R -> (0 <= Haversine.atan2 y x)%R.
Proof.
  intros Hy Hx. unfold Haversine.atan2.
  destruct (Rlt_dec 0 x) as [Hpos|Hnpos].
  - apply atan_nonneg. apply Rmult_le_pos; [exact Hy|].
    left. now apply Rinv_0_lt_compat.
  - destruct (Rlt_dec x 0) as [Hneg|_]; [lra|].
    destruct (Rlt_dec 0 y) as [_|_].
    + left. apply PI2_RGT_0.
    + destruct (Rlt_dec y 0); [lra | apply Rle_refl].
Qed.

(** The haversine distance is never negative. *)
Lemma haversine_neverNegative (a b : Coordinates) :
  (0 <= Haversine.calculateDistance a b)%R.
Proof.
  unfold Haversine.calculateDistance. cbv zeta.
  apply Rmult_le_pos; [lra|].
  apply Rmult_le_pos; [lra|].
  apply atan2_nonneg; apply sqrt_pos.
Qed.

(** The haversine distance from a point to itself is zero. *)
Lemma haversine_zeroOnItself (a : Coordinates) :
  Haversine.calculateDistance a a = 0%R.
Proof.
  unfold Haversine.calculateDistance. cbv zeta.
  replace ((Q2R (lat a) - Q2R (lat a)) * PI / 180 / 2)%R with 0%R by lra.
  replace ((Q2R (lng a) - Q2R (lng a)) * PI / 180 / 2)%R with 0%R by lra.
  rewrite sin_0.
  replace (0 * 0
           + cos (Q2R (lat a) * PI / 180) * cos (Q2R (lat a) * PI / 180)
             * 0 * 0)%R
    with 0%R by ring.
  rewrite Rminus_0_r, sqrt_0, sqrt_1.
  unfold Haversine.atan2.
  destruct (Rlt_dec 0 1) as [_|H]; [|lra].
  replace (0 / 1)%R with 0%R by lra. rewrite atan_0. ring.
Qed.

(** ** The open-path optimizer *)

Section OptimizeApiFacts.

Variable calculateDistance : Coordinates -> Coordinates -> Q.

Local Abbreviation nearer := (OptimizeApi.nearer calculateDistance).
Local Abbreviation whileUnvisited := (OptimizeApi.whileUnvisited calculateDistance).
Local Abbreviation optimizeRoute := (OptimizeApi.optimizeRoute calculateDistance).
Local Abbreviation calculateTotalDistance :=
  (OptimizeApi.calculateTotalDistance calculateDistance).

(** A selection pass leaves [nearestIndex] alone or sets it to a position it
    went through. *)
Lemma nearer_index (current : Coordinates) (l : list AppointmentData) :
  forall (i : nat) (n : Nearest),
    let n' := forEach (nearer current) l i n in
    nearestIndex n' = nearestIndex n
    \/ (i <= nearestIndex n' < i + length l)%nat.
Proof.
  induction l as [|x l IH]; intros i n; simpl.
  - now left.
  - specialize (IH (S i) (nearer current n x i)).
    simpl in IH. destruct IH as [IH|IH].
    + rewrite IH. unfold OptimizeApi.nearer.
      destruct (lessThan _ _); simpl; [right; lia | now left].
    + right. lia.
Qed.

Lemma nearer_in_range (current : Coordinates) (l : list AppointmentData) :
  l <> [] ->
  (nearestIndex (forEach (nearer current) l 0 noneYet) < length l)%nat.
Proof.
  intros Hl. destruct (nearer_index current l 0 noneYet) as [H|H].
  - rewrite H. simpl. destruct l; [congruence | simpl; lia].
  - simpl in H. lia.
Qed.

(** One turn of the loop on a list that is not empty. *)
Lemma whileUnvisited_turn (turns : nat) (l route : list AppointmentData)
  (current : Coordinates) (x : AppointmentData) :
  l <> [] ->
  nth_error l (nearestIndex (forEach (nearer current) l 0 noneYet)) = Some x ->
  whileUnvisited (S turns) l route current
  = whileUnvisited turns
      (removeAt (nearestIndex (forEach (nearer current) l 0 noneYet)) l)
      (route ++ [x]) (coordsOf x).
Proof.
  intros Hne Hx. destruct l as [|u rest]; [congruence|].
  cbn [OptimizeApi.whileUnvisited]. now rewrite Hx.
Qed.

(** The loop appends to [route] the stops of [unvisited], each once, and
    with as many turns as there are stops it leaves none behind. *)
Lemma whileUnvisited_visits_all (turns : nat) :
  forall (unvisited route : list AppointmentData) (current : Coordinates),
    (length unvisited <= turns)%nat ->
    exists tail,
      whileUnvisited turns unvisited route current = Normal (route ++ tail)
      /\ Permutation tail unvisited.
Proof.
  induction turns as [|turns IH]; intros unvisited route current Hlen.
  - destruct unvisited; [|simpl in Hlen; lia].
    exists []. simpl. now rewrite app_nil_r.
  - destruct unvisited as [|u rest].
    + exists []. simpl. now rewrite app_nil_r.
    + remember (u :: rest) as l eqn:El.
      assert (Hne : l <> []) by (subst; discriminate).
      pose proof (nearer_in_range current l Hne) as Hr.
      destruct (nth_error_in_range l _ Hr) as [x Hx].
      rewrite (whileUnvisited_turn turns l route current x Hne Hx).
      pose proof (removeAt_length _ _ _ Hx) as Hl.
      destruct (IH (removeAt (nearestIndex
                                (forEach (nearer current) l 0 noneYet)) l)
                  (route ++ [x]) (coordsOf x)) as [tail [Ht Hp]].
      { lia. }
      exists (x :: tail). split.
      * rewrite Ht. now rewrite <- app_assoc.
      * rewrite Hp. now apply removeAt_perm.
Qed.

(** More turns than stops change nothing: the unrolling is the loop. *)
Lemma whileUnvisited_turns (turns : nat)
  (unvisited route : list AppointmentData) (current : Coordinates) :
  (length unvisited <= turns)%nat ->
  whileUnvisited turns unvisited route current
  = whileUnvisited (length unvisited) unvisited route current.
Proof.
  revert unvisited route current.
  induction turns as [|turns IH]; intros unvisited route current Hlen.
  - destruct unvisited; [reflexivity | simpl in Hlen; lia].
  - destruct unvisited as [|u rest]; [reflexivity|].
    remember (u :: rest) as l eqn:El.
    assert (Hne : l <> []) by (subst; discriminate).
    pose proof (nearer_in_range current l Hne) as Hr.
    destruct (nth_error_in_range l _ Hr) as [x Hx].
    pose proof (removeAt_length _ _ _ Hx) as Hl.
    rewrite (whileUnvisited_turn turns l route current x Hne Hx).
    rewrite IH by lia.
    rewrite <- Hl.
    now rewrite (whileUnvisited_turn _ l route current x Hne Hx).
Qed.

(** Once the best distance so far is at most zero, no later stop replaces
    the selection: no distance is below zero. *)
Lemma nearer_keeps (current : Coordinates) (l : list AppointmentData) :
  neverNegative calculateDistance ->
  forall (i : nat) (n : Nearest) (q : Q),
    nearestDistance n = Num q -> (q <= 0)%Q ->
    forEach (nearer current) l i n = n.
Proof.
  intros Hpos. induction l as [|x l IH]; intros i n q Hn Hq; simpl.
  - reflexivity.
  - assert (Hsame : nearer current n x i = n).
    { unfold OptimizeApi.nearer. rewrite Hn. simpl.
      assert (Hf : Qltb (calculateDistance current (coordsOf x)) q = false).
      { apply Qltb_false. eapply Qle_trans; [exact Hq | apply Hpos]. }
      now rewrite Hf. }
    rewrite Hsame. now apply IH with (q := q).
Qed.

(** C2. The open-path optimizer returns a permutation of its input: it
    ends normally with a route that holds every appointment of the input
    exactly as many times as the input does, hence a route of the same
    length with nothing omitted and nothing duplicated.  This holds for every
    list (the empty one included) and for every starting location, given or
    not. *)
Theorem optimizeRoute_permutation (appointments : list AppointmentData)
  (startLocation : option Coordinates) :
  exists route,
    optimizeRoute appointments startLocation = Normal route
    /\ Permutation appointments route
    /\ length route = length appointments.
Proof.
  unfold OptimizeApi.optimizeRoute.
  destruct (length appointments <=? 1)%nat eqn:Hshort.
  - exists appointments. repeat split. reflexivity.
  - apply Nat.leb_gt in Hshort.
    destruct appointments as [|first rest]; [simpl in Hshort; lia|].
    set (current := match startLocation with
                    | Some start => start
                    | None => coordsOf first
                    end).
    destruct (whileUnvisited_visits_all (length (first :: rest))
                (first :: rest) [] current (Nat.le_refl _))
      as [tail [Hrun Hperm]].
    exists tail. simpl app in Hrun.
    assert (Hgoal : bind (match startLocation, first :: rest with
                          | Some start, _ => Normal start
                          | None, f :: _ => Normal (coordsOf f)
                          | None, [] => TypeError
                          end)
                      (fun c => whileUnvisited (length (first :: rest))
                                  (first :: rest) [] c) = Normal tail).
    { destruct startLocation; simpl bind; exact Hrun. }
    split; [exact Hgoal|]. split.
    + now symmetry.
    + now apply Permutation_length.
Qed.

(** C9. Without a starting location the open-path optimizer starts from
    the first stop of the input and places it first: the returned route
    begins with the first appointment of the input, and goes on with a
    permutation of the others.  The first stop is selected at the first
    turn because it lies at distance zero from the starting point and no
    distance is negative. *)
Theorem optimizeRoute_starts_at_first (first : AppointmentData)
  (rest : list AppointmentData) :
  neverNegative calculateDistance -> zeroOnItself calculateDistance ->
  exists tail,
    optimizeRoute (first :: rest) None = Normal (first :: tail)
    /\ Permutation tail rest.
Proof.
  intros Hpos Hzero. destruct rest as [|second rest].
  - exists []. split; [reflexivity | constructor].
  - set (l := first :: second :: rest).
    assert (Hopt : optimizeRoute l None
                   = whileUnvisited (length l) l [] (coordsOf first))
      by reflexivity.
    rewrite Hopt.
    assert (Hscan : forEach (nearer (coordsOf first)) l 0 noneYet
                    = {| nearestIndex := 0;
                         nearestDistance :=
                           Num (calculateDistance (coordsOf first)
                                  (coordsOf first)) |}).
    { unfold l.
      change (forEach (nearer (coordsOf first)) (first :: second :: rest)
                0 noneYet)
        with (forEach (nearer (coordsOf first)) (second :: rest) 1
                {| nearestIndex := 0;
                   nearestDistance :=
                     Num (calculateDistance (coordsOf first)
                            (coordsOf first)) |}).
      apply nearer_keeps
        with (q := calculateDistance (coordsOf first) (coordsOf first)).
      - exact Hpos.
      - reflexivity.
      - rewrite (Hzero (coordsOf first)). apply Qle_refl. }
    assert (Hstep : whileUnvisited (length l) l [] (coordsOf first)
                    = whileUnvisited (length (second :: rest))
                        (second :: rest) [first] (coordsOf first)).
    { change (length l) with (S (length (second :: rest))).
      rewrite (whileUnvisited_turn _ l [] (coordsOf first) first).
      - now rewrite Hscan.
      - discriminate.
      - now rewrite Hscan. }
    rewrite Hstep.
    destruct (whileUnvisited_visits_all (length (second :: rest))
                (second :: rest) [first] (coordsOf first) (Nat.le_refl _))
      as [tail [Hrun Hperm]].
    exists tail. split; [exact Hrun | exact Hperm].
Qed.

(** C10. The open-path total distance of a route of zero or one stop is 0,
    with or without a starting location.  In particular a single stop
    optimized with a starting location is reported at distance 0, although
    for two stops or more the same function starts its sum with the leg from
    the starting location to the first stop. *)
Theorem calculateTotalDistance_short_route (route : list AppointmentData)
  (startLocation : option Coordinates) :
  (length route <= 1)%nat ->
  calculateTotalDistance route startLocation = 0
  /\ (forall (only : AppointmentData) (start : Coordinates),
        optimizeRoute [only] (Some start) = Normal [only]
        /\ calculateTotalDistance [only] (Some start) = 0)
  /\ (forall (a b : AppointmentData) (more : list AppointmentData)
        (start : Coordinates),
        calculateTotalDistance (a :: b :: more) (Some start)
        = OptimizeApi.addLegs calculateDistance (a :: b :: more)
            (0 + calculateDistance start (coordsOf a))).
Proof.
  intros Hlen. split; [|split].
  - unfold OptimizeApi.calculateTotalDistance.
    apply Nat.leb_le in Hlen. now rewrite Hlen.
  - intros only start. split; reflexivity.
  - intros a b more start. reflexivity.
Qed.

End OptimizeApiFacts.

(** ** The round-trip optimizer: the constrained construction *)

Section RoundTripApiFacts.

Variable calculateDistance : Coordinates -> Coordinates -> Q.

Local Abbreviation nearerExcept := (RoundTripApi.nearerExcept calculateDistance).
Local Abbreviation whileUnvisited :=
  (RoundTripApi.whileUnvisited calculateDistance).
Local Abbreviation optimizeSingleRoute :=
  (RoundTripApi.optimizeSingleRoute calculateDistance).
Local Abbreviation calculateRoundTripDistance :=
  (RoundTripApi.calculateRoundTripDistance calculateDistance).
Local Abbreviation tryEnding := (RoundTripApi.tryEnding calculateDistance).
Local Abbreviation optimizeRoundTripRoute :=
  (RoundTripApi.optimizeRoundTripRoute calculateDistance).

Lemma nearerExcept_pass (len : nat) (target : AppointmentData)
  (current : Coordinates) (l : list AppointmentData) :
  (2 <= len)%nat ->
  forall (i : nat) (n : Nearest),
  exists n',
    forEachC (nearerExcept len (Some target) current) l i n = Normal n'
    /\ selectedIn target l i n n'.
Proof.
  intros Hlen. induction l as [|x l IH]; intros i n.
  - exists n. split; [reflexivity | now left].
  - cbn [forEachC]. unfold RoundTripApi.nearerExcept at 1.
    assert (Hl : (1 <? len)%nat = true) by (apply Nat.ltb_lt; lia).
    rewrite Hl. cbn [bind].
    destruct (String.eqb (id x) (id target)) eqn:Hid.
    + destruct (IH (S i) n) as [n' [Hrun Hsel]].
      exists n'. split; [exact Hrun|].
      destruct Hsel as [->|[y [q [Hy [Hi [Hne Hq]]]]]]; [now left|].
      right. exists y, q. repeat split; auto; try lia.
      replace (nearestIndex n' - i)%nat
        with (S (nearestIndex n' - S i))%nat by lia.
      exact Hy.
    + apply String.eqb_neq in Hid.
      destruct (lessThan (Num (calculateDistance current (coordsOf x)))
                  (nearestDistance n)) eqn:Hlt.
      * set (n1 := {| nearestIndex := i;
                      nearestDistance :=
                        Num (calculateDistance current (coordsOf x)) |}).
        destruct (IH (S i) n1) as [n' [Hrun Hsel]].
        exists n'. split; [exact Hrun|]. right.
        destruct Hsel as [->|[y [q [Hy [Hi [Hne Hq]]]]]].
        -- exists x, (calculateDistance current (coordsOf x)).
           simpl. rewrite Nat.sub_diag. repeat split; auto.
        -- exists y, q. repeat split; auto; try lia.
           replace (nearestIndex n' - i)%nat
             with (S (nearestIndex n' - S i))%nat by lia.
           exact Hy.
      * destruct (IH (S i) n) as [n' [Hrun Hsel]].
        exists n'. split; [exact Hrun|].
        destruct Hsel as [->|[y [q [Hy [Hi [Hne Hq]]]]]]; [now left|].
        right. exists y, q. repeat split; auto; try lia.
        replace (nearestIndex n' - i)%nat
          with (S (nearestIndex n' - S i))%nat by lia.
        exact Hy.
Qed.

(** A pass that starts with nothing selected and goes through a stop other
    than the target ends with a selection. *)
Lemma nearerExcept_selects (len : nat) (target : AppointmentData)
  (current : Coordinates) (l : list AppointmentData) :
  (2 <= len)%nat ->
  (exists x, In x l /\ id x <> id target) ->
  forall (i : nat) (n n' : Nearest),
    nearestDistance n = Infinity ->
    forEachC (nearerExcept len (Some target) current) l i n = Normal n' ->
    n' <> n.
Proof.
  intros Hlen. induction l as [|x l IH]; intros [y [Hin Hy]] i n n' Hn Hrun.
  - destruct Hin.
  - cbn [forEachC] in Hrun. unfold RoundTripApi.nearerExcept at 1 in Hrun.
    assert (Hl : (1 <? len)%nat = true) by (apply Nat.ltb_lt; lia).
    rewrite Hl in Hrun. cbn [bind] in Hrun.
    destruct (String.eqb (id x) (id target)) eqn:Hid.
    + apply String.eqb_eq in Hid.
      apply (IH) with (i := S i); auto.
      destruct Hin as [->|Hin]; [congruence|]. now exists y.
    + rewrite Hn in Hrun. cbn [lessThan bind] in Hrun.
      set (n1 := {| nearestIndex := i;
                    nearestDistance :=
                      Num (calculateDistance current (coordsOf x)) |}) in *.
      destruct (nearerExcept_pass len target current l Hlen (S i) n1)
        as [n2 [Hrun2 Hsel]].
      rewrite Hrun in Hrun2. injection Hrun2 as <-.
      intros ->.
      destruct Hsel as [Heq|[z [q [_ [_ [_ Hq]]]]]]; [|congruence].
      rewrite Heq in Hn. discriminate.
Qed.

(** One turn of the loop on a list of two stops or more. *)
Lemma constrained_turn (turns : nat) (target : option AppointmentData)
  (l route : list AppointmentData) (current : Coordinates) :
  (2 <= length l)%nat ->
  whileUnvisited (S turns) target l route current
  = bind (forEachC (nearerExcept (length l) target current) l 0 noneYet)
      (fun n =>
         match nth_error l (nearestIndex n) with
         | None => TypeError
         | Some nearestAppointment =>
             whileUnvisited turns target (removeAt (nearestIndex n) l)
               (route ++ [nearestAppointment]) (coordsOf nearestAppointment)
         end).
Proof.
  intros Hl. destruct l as [|a [|b l]]; simpl in Hl; try lia. reflexivity.
Qed.

(** With a target that exists, a pass over a list of two stops or more ends
    normally on an index of the list. *)
Lemma constrained_pass_in_range (target : AppointmentData)
  (current : Coordinates) (l : list AppointmentData) :
  (2 <= length l)%nat ->
  exists n x,
    forEachC (nearerExcept (length l) (Some target) current) l 0 noneYet
    = Normal n
    /\ nth_error l (nearestIndex n) = Some x
    /\ (n = noneYet \/ id x <> id target).
Proof.
  intros Hl.
  destruct (nearerExcept_pass (length l) target current l Hl 0 noneYet)
    as [n [Hrun Hsel]].
  exists n. destruct Hsel as [->|[x [q [Hx [_ [Hne _]]]]]].
  - destruct l as [|a l]; [simpl in Hl; lia|].
    exists a. repeat split; auto.
  - rewrite Nat.sub_0_r in Hx. exists x. repeat split; auto.
Qed.

(** The constrained loop visits every stop once, whatever the target. *)
Lemma constrained_visits_all (target : AppointmentData) (turns : nat) :
  forall (unvisited route : list AppointmentData) (current : Coordinates),
    (length unvisited <= turns)%nat ->
    exists tail,
      whileUnvisited turns (Some target) unvisited route current
      = Normal (route ++ tail)
      /\ Permutation tail unvisited.
Proof.
  induction turns as [|turns IH]; intros unvisited route current Hlen.
  - destruct unvisited; [|simpl in Hlen; lia].
    exists []. simpl. now rewrite app_nil_r.
  - destruct unvisited as [|a [|b rest]].
    + exists []. simpl. now rewrite app_nil_r.
    + exists [a]. split; reflexivity.
    + remember (a :: b :: rest) as l eqn:El.
      assert (Hl : (2 <= length l)%nat) by (subst; simpl; lia).
      rewrite (constrained_turn turns (Some target) l route current Hl).
      destruct (constrained_pass_in_range target current l Hl)
        as [n [x [Hrun [Hx _]]]].
      rewrite Hrun. cbn [bind]. rewrite Hx.
      pose proof (removeAt_length _ _ _ Hx) as Hrem.
      destruct (IH (removeAt (nearestIndex n) l) (route ++ [x]) (coordsOf x))
        as [tail [Ht Hp]]; [lia|].
      exists (x :: tail). split.
      * rewrite Ht. now rewrite <- app_assoc.
      * rewrite Hp. now apply removeAt_perm.
Qed.

(** More turns than stops change nothing: the unrolling is the loop. *)
Lemma constrained_turns (target : AppointmentData) (turns : nat) :
  forall (unvisited route : list AppointmentData) (current : Coordinates),
    (length unvisited <= turns)%nat ->
    whileUnvisited turns (Some target) unvisited route current
    = whileUnvisited (length unvisited) (Some target) unvisited route current.
Proof.
  induction turns as [|turns IH]; intros unvisited route current Hlen.
  - destruct unvisited; [reflexivity | simpl in Hlen; lia].
  - destruct unvisited as [|a [|b rest]]; [reflexivity | reflexivity |].
    remember (a :: b :: rest) as l eqn:El.
    assert (Hl : (2 <= length l)%nat) by (subst; simpl; lia).
    destruct (constrained_pass_in_range target current l Hl)
      as [n [x [Hrun [Hx _]]]].
    pose proof (removeAt_length _ _ _ Hx) as Hrem.
    assert (Hstep : forall t,
               whileUnvisited (S t) (Some target) l route current
               = whileUnvisited t (Some target)
                   (removeAt (nearestIndex n) l) (route ++ [x])
                   (coordsOf x)).
    { intros t. rewrite (constrained_turn t (Some target) l route current Hl).
      rewrite Hrun. cbn [bind]. now rewrite Hx. }
    replace (whileUnvisited (length l) (Some target) l route current)
      with (whileUnvisited (S (length (removeAt (nearestIndex n) l)))
              (Some target) l route current)
      by (now rewrite Hrem).
    rewrite !Hstep. apply IH. lia.
Qed.

(** With pairwise-distinct ids the constrained loop keeps the target for
    the end. *)
Lemma constrained_keeps_target (target : AppointmentData) (turns : nat) :
  forall (unvisited route : list AppointmentData) (current : Coordinates),
    (length unvisited <= turns)%nat ->
    NoDup (map id unvisited) ->
    In target unvisited ->
    exists front,
      whileUnvisited turns (Some target) unvisited route current
      = Normal (route ++ front ++ [target])
      /\ Permutation (front ++ [target]) unvisited.
Proof.
  induction turns as [|turns IH];
    intros unvisited route current Hlen Hnodup Hin.
  - destruct unvisited; [destruct Hin | simpl in Hlen; lia].
  - destruct unvisited as [|a [|b rest]].
    + destruct Hin.
    + destruct Hin as [->|[]]. exists []. split; reflexivity.
    + remember (a :: b :: rest) as l eqn:El.
      assert (Hl : (2 <= length l)%nat) by (subst; simpl; lia).
      rewrite (constrained_turn turns (Some target) l route current Hl).
      destruct (constrained_pass_in_range target current l Hl)
        as [n [x [Hrun [Hx Hsel]]]].
      assert (Hother : exists y, In y l /\ id y <> id target).
      { destruct (String.eqb (id a) (id target)) eqn:Ha.
        - apply String.eqb_eq in Ha. exists b. split.
          + subst l. simpl. auto.
          + intros Hb. subst l. simpl in Hnodup.
            inversion Hnodup as [|? ? Hnot _]. apply Hnot.
            left. congruence.
        - apply String.eqb_neq in Ha. exists a. split; auto.
          subst l. simpl. auto. }
      assert (Hx_target : id x <> id target).
      { destruct Hsel as [Hnone|]; auto.
        exfalso.
        apply (nearerExcept_selects (length l) target current l Hl Hother
                 0 noneYet n eq_refl Hrun Hnone). }
      rewrite Hrun. cbn [bind]. rewrite Hx.
      pose proof (removeAt_length _ _ _ Hx) as Hrem.
      pose proof (removeAt_perm _ _ _ Hx) as Hperm.
      assert (Hnodup' : NoDup (map id (removeAt (nearestIndex n) l))).
      { assert (Hp : Permutation (map id (x :: removeAt (nearestIndex n) l))
                       (map id l)) by now apply Permutation_map.
        apply Permutation_sym in Hp.
        pose proof (Permutation_NoDup Hp Hnodup) as Hnd.
        now inversion Hnd. }
      assert (Hin' : In target (removeAt (nearestIndex n) l)).
      { apply Permutation_sym in Hperm.
        pose proof (Permutation_in _ Hperm Hin) as [Heq|Hi]; auto.
        congruence. }
      destruct (IH (removeAt (nearestIndex n) l) (route ++ [x]) (coordsOf x))
        as [front [Ht Hp]]; [lia | auto | auto |].
      exists (x :: front). split.
      * rewrite Ht. now rewrite <- app_assoc.
      * simpl. rewrite Hp. exact Hperm.
Qed.

(** Where every distance is a rational number: for appointments with
    pairwise-distinct ids, every origin and every index k into the list,
    the constrained nearest-neighbour construction with appointment k as
    forced-final destination ends normally with a route whose last element
    is appointment k.  The route is a permutation of the input and nothing
    before its last element has the id of appointment k: the forced-final
    appointment is selected after every other one, when it is the only one
    left. *)
Lemma optimizeSingleRoute_ends_at_target
  (appointments : list AppointmentData) (origin : Coordinates) (k : nat)
  (target : AppointmentData) :
  NoDup (map id appointments) ->
  nth_error appointments k = Some target ->
  exists front,
    optimizeSingleRoute appointments origin k = Normal (front ++ [target])
    /\ Permutation (front ++ [target]) appointments
    /\ ~ In (id target) (map id front).
Proof.
  intros Hnodup Hk. unfold RoundTripApi.optimizeSingleRoute. rewrite Hk.
  destruct (constrained_keeps_target target (length appointments)
              appointments [] origin (Nat.le_refl _) Hnodup
              (nth_error_In _ _ Hk)) as [front [Hrun Hperm]].
  exists front. split; [exact Hrun|]. split; [exact Hperm|].
  assert (Hp : Permutation (map id (front ++ [target])) (map id appointments))
    by now apply Permutation_map.
  apply Permutation_sym in Hp.
  pose proof (Permutation_NoDup Hp Hnodup) as Hnd.
  rewrite map_app in Hnd. simpl in Hnd.
  apply NoDup_remove_2 in Hnd. now rewrite app_nil_r in Hnd.
Qed.

(** The constrained construction ends normally for every index of the
    list. *)
Lemma optimizeSingleRoute_total (appointments : list AppointmentData)
  (origin : Coordinates) (k : nat) :
  (k < length appointments)%nat ->
  exists candidate,
    optimizeSingleRoute appointments origin k = Normal candidate
    /\ Permutation candidate appointments.
Proof.
  intros Hk. destruct (nth_error_in_range appointments k Hk) as [t Ht].
  unfold RoundTripApi.optimizeSingleRoute. rewrite Ht.
  destruct (constrained_visits_all t (length appointments) appointments []
              origin (Nat.le_refl _)) as [tail [Hrun Hperm]].
  exists tail. split; [exact Hrun | exact Hperm].
Qed.

(** ** The round-trip optimizer: the search over forced-final stops *)

(** After the endings below [m] have been tried, [b] holds the first
    candidate of least round-trip distance among them. *)
Lemma forLoop_tryEnding (appointments : list AppointmentData)
  (origin : Coordinates) (count : nat) :
  forall (m : nat) (b : RoundTripApi.Best),
    (m + count <= length appointments)%nat ->
    bestAmong (optimizeSingleRoute appointments origin)
      (fun r => calculateRoundTripDistance r origin) m
      (RoundTripApi.bestRoute b) (RoundTripApi.bestTotalDistance b) ->
    exists b',
      forLoop (tryEnding appointments origin) m count b = Normal b'
      /\ bestAmong (optimizeSingleRoute appointments origin)
           (fun r => calculateRoundTripDistance r origin) (m + count)
           (RoundTripApi.bestRoute b') (RoundTripApi.bestTotalDistance b').
Proof.
  induction count as [|count IH]; intros m b Hm Hb.
  - exists b. split; [reflexivity|]. now rewrite Nat.add_0_r.
  - cbn [forLoop]. unfold RoundTripApi.tryEnding at 1.
    destruct (optimizeSingleRoute_total appointments origin m)
      as [cand [Hcand _]]; [lia|].
    rewrite Hcand. cbn [bind].
    replace (m + S count)%nat with (S m + count)%nat by lia.
    destruct (lessThan (Num (calculateRoundTripDistance cand origin))
                (RoundTripApi.bestTotalDistance b)) eqn:Hlt; cbn [bind].
    + apply IH; [lia|]. cbn [RoundTripApi.bestRoute
                             RoundTripApi.bestTotalDistance].
      right. exists m. repeat split; auto.
      intros j rj Hj Hrj.
      destruct Hb as [[Hinf [Hm0 _]]|[k [Hk [Hck [Hbk Hmin]]]]].
      * assert (j = m) by lia. subst j. rewrite Hcand in Hrj.
        injection Hrj as <-. apply Qle_refl.
      * rewrite Hbk in Hlt. cbn [lessThan] in Hlt.
        apply Qltb_true in Hlt.
        destruct (Nat.eq_dec j m) as [->|Hne].
        -- rewrite Hcand in Hrj. injection Hrj as <-. apply Qle_refl.
        -- apply Qle_trans
             with (calculateRoundTripDistance (RoundTripApi.bestRoute b)
                     origin).
           ++ now apply Qlt_le_weak.
           ++ apply (Hmin j rj); [lia | exact Hrj].
    + apply IH; [lia|].
      destruct Hb as [[Hinf _]|[k [Hk [Hck [Hbk Hmin]]]]].
      * rewrite Hinf in Hlt. discriminate.
      * right. exists k. repeat split; auto.
        intros j rj Hj Hrj.
        rewrite Hbk in Hlt. cbn [lessThan] in Hlt.
        apply Qltb_false in Hlt.
        destruct (Nat.eq_dec j m) as [->|Hne].
        -- rewrite Hcand in Hrj. injection Hrj as <-. exact Hlt.
        -- apply (Hmin j rj); [lia | exact Hrj].
Qed.

(** Where every distance is a rational number: for every non-empty list
    of appointments and every origin, the round-trip optimizer ends
    normally with one of the forced-final candidates (the constrained
    construction for some index k of the list), the returned total distance
    is that candidate's round-trip distance, and no forced-final candidate
    has a smaller one. *)
Lemma optimizeRoundTripRoute_minimal (appointments : list AppointmentData)
  (origin : Coordinates) :
  appointments <> [] ->
  exists best k,
    optimizeRoundTripRoute appointments (Some origin) = Normal best
    /\ (k < length appointments)%nat
    /\ optimizeSingleRoute appointments origin k
       = Normal (RoundTripApi.route best)
    /\ sameNumber (RoundTripApi.totalDistance best)
         (Num (calculateRoundTripDistance (RoundTripApi.route best) origin))
    /\ forall j, (j < length appointments)%nat ->
         exists candidate,
           optimizeSingleRoute appointments origin j = Normal candidate
           /\ (calculateRoundTripDistance (RoundTripApi.route best) origin
               <= calculateRoundTripDistance candidate origin)%Q.
Proof.
  intros Hne. destruct appointments as [|a [|a' rest]]; [congruence| |].
  - exists {| RoundTripApi.route := [a];
              RoundTripApi.totalDistance :=
                Num (calculateDistance origin (coordsOf a)
                     + calculateDistance (coordsOf a) origin) |}, 0%nat.
    split; [reflexivity|]. split; [simpl; lia|].
    split; [reflexivity|]. split.
    + simpl. unfold RoundTripApi.calculateRoundTripDistance. simpl.
      now rewrite Qplus_0_l.
    + intros j Hj. simpl in Hj. assert (j = 0)%nat by lia. subst j.
      exists [a]. split; [reflexivity | apply Qle_refl].
  - set (l := a :: a' :: rest) in *.
    destruct (forLoop_tryEnding l origin (length l) 0
                {| RoundTripApi.bestRoute := [];
                   RoundTripApi.bestTotalDistance := Infinity |})
      as [b [Hrun Hbest]].
    + simpl. lia.
    + left. repeat split.
    + assert (Hopt : optimizeRoundTripRoute l (Some origin)
                     = Normal {| RoundTripApi.route :=
                                   RoundTripApi.bestRoute b;
                                 RoundTripApi.totalDistance :=
                                   RoundTripApi.bestTotalDistance b |}).
      { unfold RoundTripApi.optimizeRoundTripRoute.
        change (length l <=? 1)%nat with false. cbv iota.
        cbn [bind]. rewrite Hrun. reflexivity. }
      destruct Hbest as [[_ [Hm0 _]]|[k [Hk [Hck [Hbk Hmin]]]]].
      * simpl in Hm0. discriminate.
      * exists {| RoundTripApi.route := RoundTripApi.bestRoute b;
                  RoundTripApi.totalDistance :=
                    RoundTripApi.bestTotalDistance b |}, k.
        cbn [RoundTripApi.route RoundTripApi.totalDistance].
        split; [exact Hopt|]. split; [exact Hk|]. split; [exact Hck|].
        split.
        -- rewrite Hbk. simpl. apply Qeq_refl.
        -- intros j Hj.
           destruct (optimizeSingleRoute_total l origin j Hj)
             as [cand [Hcand _]].
           exists cand. split; [exact Hcand|].
           now apply (Hmin j cand).
Qed.

(** C4. The round-trip optimizer applied to no stop returns the empty
    route with total distance 0; applied to one stop it returns the route
    made of that stop, with total distance
    distance(start, stop) + distance(stop, start) when a starting location
    is given and 0 when none is. *)
Theorem optimizeRoundTripRoute_edge_cases :
  (forall startLocation,
      optimizeRoundTripRoute [] startLocation
      = Normal {| RoundTripApi.route := [];
                  RoundTripApi.totalDistance := Num 0 |})
  /\ (forall only start,
        optimizeRoundTripRoute [only] (Some start)
        = Normal {| RoundTripApi.route := [only];
                    RoundTripApi.totalDistance :=
                      Num (calculateDistance start (coordsOf only)
                           + calculateDistance (coordsOf only) start) |})
  /\ (forall only,
        optimizeRoundTripRoute [only] None
        = Normal {| RoundTripApi.route := [only];
                    RoundTripApi.totalDistance := Num 0 |}).
Proof.
  split; [|split].
  - intros [s|]; reflexivity.
  - intros only start. reflexivity.
  - intros only. reflexivity.
Qed.

End RoundTripApiFacts.

(** ** The empty input *)

Section EmptyInput.

Variable calculateDistance : Coordinates -> Coordinates -> Q.

(** C8. When there is no appointment to optimize, the handler answers
    with the user-correctable status 400 and the error
    "No appointments found to optimize"; the answer carries no optimization
    result, and the only call made to a collaborator is the query that read
    the (empty) list of appointments: nothing is written and no distance
    provider is called. *)
Theorem POST_empty_input (req : RoundTripApi.Request) :
  let answer := RoundTripApi.POST calculateDistance (Some req) [] in
  RoundTripApi.Reply.status (fst answer) = 400%nat
  /\ (400 <= RoundTripApi.Reply.status (fst answer) < 500)%nat
  /\ RoundTripApi.Reply.body (fst answer)
     = RoundTripApi.Reply.Failure "No appointments found to optimize"
  /\ (forall result,
        RoundTripApi.Reply.body (fst answer)
        <> RoundTripApi.Reply.Success result)
  /\ snd answer = [PrismaFindMany "demo-user" "createdAt"]
  /\ existsb isFetch (snd answer) = false.
Proof.
  cbn. repeat split; try lia. intros result H. discriminate H.
Qed.

End EmptyInput.

(** ** The schedule *)

Lemma nonDecreasing_cons (x : Z) (l : list Z) :
  Forall (fun y => (x <= y)%Z) l -> nonDecreasing l -> nonDecreasing (x :: l).
Proof.
  intros Hall Hl. destruct l as [|y l]; [exact I|].
  split; [now inversion Hall | exact Hl].
Qed.

Lemma Forall_weaken_le (x y : Z) (l : list Z) :
  (x <= y)%Z -> Forall (fun z => (y <= z)%Z) l ->
  Forall (fun z => (x <= z)%Z) l.
Proof.
  intros Hxy Hall. eapply Forall_impl; [|exact Hall].
  intros z Hz. simpl in Hz. lia.
Qed.

(** Travelling a distance that is not negative at a positive rate takes a
    number of minutes that is not negative. *)
Lemma travelMinutes_nonneg (distance travelTimePerMile : Q) :
  (0 <= distance)%Q -> (0 < travelTimePerMile)%Q ->
  (0 <= travelMinutes distance travelTimePerMile)%Z.
Proof.
  intros Hd Hr. unfold travelMinutes.
  change 0%Z with (Qceiling (inject_Z 0)).
  apply Qceiling_resp_le. apply Qmult_le_0_compat; auto.
  now apply Qlt_le_weak.
Qed.

Section ScheduleFacts.

Variable calculateDistance : Coordinates -> Coordinates -> Q.
Variable travelTimePerMile : Q.

Hypothesis distance_nonneg : neverNegative calculateDistance.
Hypothesis rate_positive : (0 < travelTimePerMile)%Q.

(** The walk of the round-trip schedule records one instant per stop, none
    before the clock it starts from, each at least the one before. *)
Lemma roundTrip_walk_advances (origin : option Coordinates)
  (rest : list AppointmentData) :
  Forall (fun a => (0 <= duration a)%Z) rest ->
  forall (previous : option AppointmentData) (currentTime : Date)
         (arrivals : list Date),
  exists new finalTime,
    RoundTripApi.walk calculateDistance travelTimePerMile origin previous
      rest currentTime arrivals = (arrivals ++ new, finalTime)
    /\ length new = length rest
    /\ nonDecreasing new
    /\ Forall (fun t => (currentTime <= t)%Z) new
    /\ (currentTime <= finalTime)%Z.
Proof.
  induction rest as [|a rest IH]; intros Hdur previous currentTime arrivals.
  - exists [], currentTime. cbn. rewrite app_nil_r.
    repeat split; auto. lia.
  - inversion Hdur as [|? ? Ha Hrest]; subst.
    cbn [RoundTripApi.walk].
    set (arrival :=
           match previous, origin with
           | Some before, _ =>
               addMinutes currentTime
                 (travelMinutes
                    (calculateDistance (coordsOf before) (coordsOf a))
                    travelTimePerMile)
           | None, Some start =>
               addMinutes currentTime
                 (travelMinutes (calculateDistance start (coordsOf a))
                    travelTimePerMile)
           | None, None => currentTime
           end).
    assert (Harr : (currentTime <= arrival)%Z).
    { unfold arrival, addMinutes.
      destruct previous as [before|]; [|destruct origin as [start|]].
      - pose proof (travelMinutes_nonneg _ _
                      (distance_nonneg (coordsOf before) (coordsOf a))
                      rate_positive). lia.
      - pose proof (travelMinutes_nonneg _ _
                      (distance_nonneg start (coordsOf a))
                      rate_positive). lia.
      - lia. }
    destruct (IH Hrest (Some a) (addMinutes arrival (duration a))
                (arrivals ++ [arrival])) as [new [finalTime [Hw [Hl [Hs [Hall Hf]]]]]].
    exists (arrival :: new), finalTime.
    rewrite Hw. rewrite <- app_assoc. unfold addMinutes in *.
    repeat split; auto.
    + simpl. now rewrite Hl.
    + apply nonDecreasing_cons; auto.
      apply Forall_weaken_le with (y := (arrival + duration a)%Z); auto. lia.
    + constructor; auto.
      apply Forall_weaken_le with (y := (arrival + duration a)%Z); auto. lia.
    + lia.
Qed.

(** The same for the walk of the open-path schedule. *)
Lemma openPath_walk_advances (rest : list AppointmentData) :
  Forall (fun a => (0 <= duration a)%Z) rest ->
  forall (previous : option AppointmentData) (currentTime : Date)
         (arrivals : list Date),
  exists new finalTime,
    OptimizeApi.walk calculateDistance travelTimePerMile previous
      rest currentTime arrivals = (arrivals ++ new, finalTime)
    /\ length new = length rest
    /\ nonDecreasing new
    /\ Forall (fun t => (currentTime <= t)%Z) new
    /\ (currentTime <= finalTime)%Z.
Proof.
  induction rest as [|a rest IH]; intros Hdur previous currentTime arrivals.
  - exists [], currentTime. cbn. rewrite app_nil_r.
    repeat split; auto. lia.
  - inversion Hdur as [|? ? Ha Hrest]; subst.
    cbn [OptimizeApi.walk].
    set (arrival :=
           match previous with
           | Some before =>
               addMinutes currentTime
                 (travelMinutes
                    (calculateDistance (coordsOf before) (coordsOf a))
                    travelTimePerMile)
           | None => currentTime
           end).
    assert (Harr : (currentTime <= arrival)%Z).
    { unfold arrival, addMinutes. destruct previous as [before|].
      - pose proof (travelMinutes_nonneg _ _
                      (distance_nonneg (coordsOf before) (coordsOf a))
                      rate_positive). lia.
      - lia. }
    destruct (IH Hrest (Some a) (addMinutes arrival (duration a))
                (arrivals ++ [arrival])) as [new [finalTime [Hw [Hl [Hs [Hall Hf]]]]]].
    exists (arrival :: new), finalTime.
    rewrite Hw. rewrite <- app_assoc. unfold addMinutes in *.
    repeat split; auto.
    + simpl. now rewrite Hl.
    + apply nonDecreasing_cons; auto.
      apply Forall_weaken_le with (y := (arrival + duration a)%Z); auto. lia.
    + constructor; auto.
      apply Forall_weaken_le with (y := (arrival + duration a)%Z); auto. lia.
    + lia.
Qed.

End ScheduleFacts.

(** ** The distance-matrix route: failed cells *)

(** A map whose callback ends normally on every cell ends normally, with
    one result per cell. *)
Lemma mapiC_total {A B : Type} (f : A -> nat -> Completion B) (l : list A) :
  forall (start : nat),
    (forall k x, nth_error l k = Some x ->
       exists y, f x (start + k)%nat = Normal y) ->
    exists ys,
      DistanceMatrixApi.mapiC f l start = Normal ys
      /\ length ys = length l
      /\ forall k x, nth_error l k = Some x ->
           exists y, nth_error ys k = Some y
                     /\ f x (start + k)%nat = Normal y.
Proof.
  induction l as [|a l IH]; intros start Hf.
  - exists []. repeat split; auto. intros [|k] x H; discriminate H.
  - destruct (Hf 0%nat a eq_refl) as [y Hy].
    rewrite Nat.add_0_r in Hy.
    destruct (IH (S start)) as [ys [Hrun [Hlen Hcells]]].
    { intros k x Hk. destruct (Hf (S k) x Hk) as [z Hz].
      exists z. now rewrite Nat.add_succ_comm. }
    exists (y :: ys). cbn [DistanceMatrixApi.mapiC].
    rewrite Hy. cbn [bind]. rewrite Hrun. cbn [bind].
    repeat split; [simpl; now rewrite Hlen|].
    intros [|k] x Hk.
    + injection Hk as <-. exists y. rewrite Nat.add_0_r. now split.
    + destruct (Hcells k x Hk) as [z [Hz Hfz]]. exists z. split; auto.
      now rewrite <- Nat.add_succ_comm.
Qed.

Section DistanceMatrixApiFacts.

Variable calculateHaversineDistance : Coordinates -> Coordinates -> Q.

Local Abbreviation convertElement :=
  (DistanceMatrixApi.convertElement calculateHaversineDistance).
Local Abbreviation convertRows :=
  (DistanceMatrixApi.convertRows calculateHaversineDistance).
Local Abbreviation POST := (DistanceMatrixApi.POST calculateHaversineDistance).

(** On an answer of the right shape every element is converted: an "OK"
    element to its distance in miles, any other to the haversine distance of
    its pair. *)
Lemma convertElement_cell (origins destinations : list Coordinates)
  (i j : nat) (element : DistanceMatrixApi.Element.t)
  (origin dest : Coordinates) :
  nth_error origins i = Some origin ->
  nth_error destinations j = Some dest ->
  (DistanceMatrixApi.Element.status element = "OK"%string ->
   DistanceMatrixApi.Element.distance element <> None) ->
  exists cell,
    convertElement origins destinations i element j = Normal cell
    /\ (DistanceMatrixApi.Element.status element = "OK"%string ->
        exists value,
          DistanceMatrixApi.Element.distance element = Some value
          /\ cell = (value * DistanceMatrixApi.metersToMiles)%Q)
    /\ (DistanceMatrixApi.Element.status element <> "OK"%string ->
        cell = calculateHaversineDistance origin dest).
Proof.
  intros Ho Hd Hok. unfold DistanceMatrixApi.convertElement.
  destruct (String.eqb (DistanceMatrixApi.Element.status element) "OK")
    eqn:Hs.
  - apply String.eqb_eq in Hs.
    destruct (DistanceMatrixApi.Element.distance element) as [value|] eqn:Hv.
    + exists (value * DistanceMatrixApi.metersToMiles)%Q.
      repeat split; auto.
      * intros _. now exists value.
      * intros Hne. congruence.
    + exfalso. now apply (Hok Hs).
  - apply String.eqb_neq in Hs. rewrite Ho, Hd.
    exists (calculateHaversineDistance origin dest).
    repeat split; auto. intros Heq. congruence.
Qed.

(** C7. With a key configured (the environment variable is set and is not
    empty: without one the provider is not called and no cell is precise),
    when the call to the precise provider succeeds as a whole (the
    answer has status "OK" and the shape of the request) the handler
    answers with a matrix that has, for every element of the provider's
    answer, one cell: the element's distance in meters multiplied by
    0.000621371 when the element is "OK", and the haversine distance of the
    same origin and destination when the element is reported as failed.
    Only the failed cells are replaced. *)
Theorem POST_patches_failed_cells (origins destinations : list Coordinates)
  (key : string) (data : DistanceMatrixApi.Data.t) :
  key <> ""%string ->
  origins <> [] -> destinations <> [] ->
  DistanceMatrixApi.Data.status data = "OK"%string ->
  wellShaped origins destinations data ->
  exists distanceMatrix,
    fst (POST true
           (Some {| DistanceMatrixApi.origins := Some origins;
                    DistanceMatrixApi.destinations := Some destinations |})
           (Some key) (DistanceMatrixApi.Answered (Some data)))
    = DistanceMatrixApi.Success distanceMatrix
    /\ length distanceMatrix = length origins
    /\ forall i j row element,
         nth_error (DistanceMatrixApi.Data.rows data) i = Some row ->
         nth_error (DistanceMatrixApi.Row.elements row) j = Some element ->
         exists cells cell origin dest,
           nth_error distanceMatrix i = Some cells
           /\ length cells = length destinations
           /\ nth_error cells j = Some cell
           /\ nth_error origins i = Some origin
           /\ nth_error destinations j = Some dest
           /\ (DistanceMatrixApi.Element.status element = "OK"%string ->
               exists value,
                 DistanceMatrixApi.Element.distance element = Some value
                 /\ cell = (value * DistanceMatrixApi.metersToMiles)%Q)
           /\ (DistanceMatrixApi.Element.status element <> "OK"%string ->
               cell = calculateHaversineDistance origin dest).
Proof.
  intros Hkey Ho Hd Hstatus [Hrows Hshape].
  rewrite Forall_forall in Hshape.
  assert (Hrow : forall i row,
             nth_error (DistanceMatrixApi.Data.rows data) i = Some row ->
             exists origin,
               nth_error origins i = Some origin
               /\ exists cells,
                    DistanceMatrixApi.mapiC
                      (convertElement origins destinations i)
                      (DistanceMatrixApi.Row.elements row) 0
                    = Normal cells
                    /\ length cells = length destinations
                    /\ forall j element,
                         nth_error (DistanceMatrixApi.Row.elements row) j
                         = Some element ->
                         exists cell dest,
                           nth_error cells j = Some cell
                           /\ nth_error destinations j = Some dest
                           /\ (DistanceMatrixApi.Element.status element
                               = "OK"%string ->
                               exists value,
                                 DistanceMatrixApi.Element.distance element
                                 = Some value
                                 /\ cell
                                    = (value
                                       * DistanceMatrixApi.metersToMiles)%Q)
                           /\ (DistanceMatrixApi.Element.status element
                               <> "OK"%string ->
                               cell = calculateHaversineDistance origin dest)).
  { intros i row Hi.
    assert (Hlt : (i < length origins)%nat).
    { rewrite <- Hrows. apply nth_error_Some. congruence. }
    destruct (nth_error_in_range origins i Hlt) as [origin Horigin].
    exists origin. split; [exact Horigin|].
    destruct (Hshape row (nth_error_In _ _ Hi)) as [Hcols Hcarry].
    rewrite Forall_forall in Hcarry.
    assert (Hcell : forall j element,
               nth_error (DistanceMatrixApi.Row.elements row) j
               = Some element ->
               exists dest,
                 nth_error destinations j = Some dest
                 /\ exists cell,
                      convertElement origins destinations i element j
                      = Normal cell
                      /\ (DistanceMatrixApi.Element.status element
                          = "OK"%string ->
                          exists value,
                            DistanceMatrixApi.Element.distance element
                            = Some value
                            /\ cell
                               = (value * DistanceMatrixApi.metersToMiles)%Q)
                      /\ (DistanceMatrixApi.Element.status element
                          <> "OK"%string ->
                          cell = calculateHaversineDistance origin dest)).
    { intros j element Hj.
      assert (Hjlt : (j < length destinations)%nat).
      { rewrite <- Hcols. apply nth_error_Some. congruence. }
      destruct (nth_error_in_range destinations j Hjlt) as [dest Hdest].
      exists dest. split; [exact Hdest|].
      apply convertElement_cell; auto.
      apply Hcarry. now apply nth_error_In with j. }
    destruct (mapiC_total (convertElement origins destinations i)
                (DistanceMatrixApi.Row.elements row) 0) as [cells [Hrun [Hlen Hcells]]].
    { intros j element Hj. destruct (Hcell j element Hj) as [_ [_ [c [Hc _]]]].
      now exists c. }
    exists cells. split; [exact Hrun|]. split; [congruence|].
    intros j element Hj.
    destruct (Hcells j element Hj) as [cell [Hcj Hconv]].
    destruct (Hcell j element Hj) as [dest [Hdest [c [Hc [Hok Hko]]]]].
    simpl in Hconv. rewrite Hc in Hconv. injection Hconv as <-.
    exists c, dest. repeat split; auto. }
  destruct (mapiC_total
              (fun row originIndex =>
                 DistanceMatrixApi.mapiC
                   (convertElement origins destinations originIndex)
                   (DistanceMatrixApi.Row.elements row) 0)
              (DistanceMatrixApi.Data.rows data) 0)
    as [matrix [Hrun [Hlen Hcells]]].
  { intros i row Hi. destruct (Hrow i row Hi) as [_ [_ [cells [Hc _]]]].
    now exists cells. }
  exists matrix. split; [|split].
  - unfold DistanceMatrixApi.POST.
    cbn [negb DistanceMatrixApi.origins DistanceMatrixApi.destinations].
    assert (Hsome : ((length origins =? 0)%nat
                     || (length destinations =? 0)%nat)%bool = false).
    { destruct origins; [congruence|].
      destruct destinations; [congruence|]. reflexivity. }
    assert (Hconfigured : DistanceMatrixApi.configured (Some key) = true).
    { unfold DistanceMatrixApi.configured.
      apply String.eqb_neq in Hkey. now rewrite Hkey. }
    rewrite Hsome, Hconfigured, Hstatus.
    change (String.eqb "OK" "OK") with true. cbv iota. cbn [negb].
    unfold DistanceMatrixApi.convertRows. rewrite Hrun. reflexivity.
  - congruence.
  - intros i j row element Hi Hj.
    destruct (Hcells i row Hi) as [cells [Hci Hconv]].
    destruct (Hrow i row Hi) as [origin [Horigin [cells' [Hc' [Hlen' Hall]]]]].
    simpl in Hconv. rewrite Hc' in Hconv. injection Hconv as <-.
    destruct (Hall j element Hj) as [cell [dest [Hcj [Hdest [Hok Hko]]]]].
    exists cells', cell, origin, dest. repeat split; auto.
Qed.

End DistanceMatrixApiFacts.

(** ** The client-side optimizer on a full matrix *)

Lemma findIndex_bound {A : Type} (p : A -> bool) (l : list A) (k : nat) :
  findIndex p l = Some k -> (k < length l)%nat.
Proof.
  revert k; induction l as [|x l IH]; intros k H; simpl in *.
  - discriminate.
  - destruct (p x).
    + injection H as <-. lia.
    + destruct (findIndex p l) as [k'|]; simpl in H; [|discriminate].
      injection H as <-. specialize (IH k' eq_refl). lia.
Qed.

Lemma plusOne_bound {A : Type} (p : A -> bool) (l : list A) :
  (plusOne (findIndex p l) < S (length l))%nat.
Proof.
  destruct (findIndex p l) as [k|] eqn:E; simpl.
  - apply findIndex_bound in E. lia.
  - lia.
Qed.

Lemma cell_of_square (size : nat) (matrix : list (list Q)) (i j : nat) :
  square size matrix -> (i < size)%nat -> (j < size)%nat ->
  exists q, Client.cell (Some matrix) i j = Normal (Num q).
Proof.
  intros [Hrows Hcols] Hi Hj. unfold Client.cell.
  rewrite <- Hrows in Hi.
  destruct (nth_error_in_range matrix i Hi) as [row Hrow]. rewrite Hrow.
  rewrite Forall_forall in Hcols.
  pose proof (Hcols row (nth_error_In _ _ Hrow)) as Hlen.
  rewrite <- Hlen in Hj.
  destruct (nth_error_in_range row j Hj) as [q Hq]. rewrite Hq.
  now exists q.
Qed.

Section ClientFacts.

Variable calculateHaversineDistance : Coordinates -> Coordinates -> Q.

Local Abbreviation haversineMatrix :=
  (Client.haversineMatrix calculateHaversineDistance).
Local Abbreviation calculateDistanceMatrix :=
  (Client.calculateDistanceMatrix calculateHaversineDistance).
Local Abbreviation optimizeRouteWithDriving :=
  (Client.optimizeRouteWithDriving calculateHaversineDistance).

Lemma haversineMatrix_square (points : list Coordinates) :
  square (length points) (haversineMatrix points points).
Proof.
  unfold square, Client.haversineMatrix. split.
  - now rewrite length_map.
  - apply Forall_forall. intros row Hrow.
    apply in_map_iff in Hrow. destruct Hrow as [origin [<- _]].
    now rewrite length_map.
Qed.

Variable appointments : list AppointmentData.
Variable matrix : list (list Q).
Hypothesis matrix_square : square (S (length appointments)) matrix.

Local Abbreviation nearerExcept :=
  (Client.nearerExcept appointments (Some matrix)).
Local Abbreviation select := (Client.select appointments (Some matrix)).
Local Abbreviation whileSeveral :=
  (fun turns => Client.whileSeveral turns appointments (Some matrix)).

(** A selection pass ends normally; it leaves the selection alone or
    selects a position it went through. *)
Lemma client_pass (len : nat) (target : AppointmentData)
  (currentIndex : nat) (l : list AppointmentData) :
  (currentIndex < S (length appointments))%nat ->
  forall (i : nat) (s : Client.Selection),
  exists s',
    forEachC (nearerExcept len (Some target) currentIndex) l i s = Normal s'
    /\ (s' = s
        \/ ((i <= nearestIndex (Client.nearest s') < i + length l)%nat
            /\ Client.selectedAppointment s' <> None)).
Proof.
  intros Hcur. induction l as [|x l IH]; intros i s.
  - exists s. split; [reflexivity | now left].
  - cbn [forEachC]. unfold Client.nearerExcept at 1.
    assert (Hskip : exists isTarget,
               (if (1 <? len)%nat
                then Normal (String.eqb (id x) (id target))
                else Normal false) = Normal isTarget).
    { destruct (1 <? len)%nat; eexists; reflexivity. }
    destruct Hskip as [isTarget ->]. cbn [bind].
    assert (Hnext : forall s1,
               (s1 = s \/ (nearestIndex (Client.nearest s1) = i
                           /\ Client.selectedAppointment s1 <> None)) ->
               exists s',
                 forEachC (nearerExcept len (Some target) currentIndex)
                   l (S i) s1 = Normal s'
                 /\ (s' = s
                     \/ ((i <= nearestIndex (Client.nearest s')
                          < i + length (x :: l))%nat
                         /\ Client.selectedAppointment s' <> None))).
    { intros s1 Hs1. destruct (IH (S i) s1) as [s' [Hrun Hs']].
      exists s'. split; [exact Hrun|]. simpl length.
      destruct Hs' as [->|[Hr Hsel]].
      - destruct Hs1 as [->|[Hi Hsel]]; [now left|]. right. split; auto. lia.
      - right. split; auto. lia. }
    destruct isTarget.
    + apply Hnext. now left.
    + destruct (cell_of_square _ matrix currentIndex
                  (plusOne (indexOf appointments x)) matrix_square Hcur
                  (plusOne_bound _ _)) as [q Hq].
      rewrite Hq. cbn [bind].
      destruct (lessThan (Num q) (nearestDistance (Client.nearest s))).
      * apply Hnext. right. split; [reflexivity | discriminate].
      * apply Hnext. now left.
Qed.

(** The selection of a turn is a position of the list. *)
Lemma client_select (target : AppointmentData)
  (unvisited : list AppointmentData) (currentIndex : nat) :
  (2 <= length unvisited)%nat ->
  (currentIndex < S (length appointments))%nat ->
  exists s,
    select (Some target) unvisited currentIndex = Normal s
    /\ (nearestIndex (Client.nearest s) < length unvisited)%nat.
Proof.
  intros Hlen Hcur. unfold Client.select.
  set (nothing := {| Client.nearest := noneYet;
                     Client.selectedAppointment := None |}).
  assert (Hscan : forall s0,
             Client.selectedAppointment s0 = None ->
             nearestIndex (Client.nearest s0) = 0%nat ->
             exists s,
               bind (forEachC
                       (nearerExcept (length unvisited) (Some target)
                          currentIndex) unvisited 0 s0)
                 (fun scanned =>
                    match Client.selectedAppointment scanned with
                    | Some _ => Normal scanned
                    | None =>
                        Normal
                          {| Client.nearest :=
                               {| nearestIndex := 0;
                                  nearestDistance :=
                                    nearestDistance (Client.nearest scanned) |};
                             Client.selectedAppointment :=
                               nth_error unvisited 0 |}
                    end) = Normal s
               /\ (nearestIndex (Client.nearest s) < length unvisited)%nat).
  { intros s0 Hnone Hzero.
    destruct (client_pass (length unvisited) target currentIndex unvisited
                Hcur 0 s0) as [s' [Hrun Hs']].
    rewrite Hrun. cbn [bind].
    destruct (Client.selectedAppointment s') eqn:Hsel.
    - exists s'. split; [reflexivity|].
      destruct Hs' as [->|[Hr _]]; [congruence | lia].
    - eexists. split; [reflexivity|]. simpl. lia. }
  destruct (length unvisited =? 2)%nat eqn:Htwo.
  - destruct (findIndex (Client.byId target) unvisited)
      as [targetInRemaining|] eqn:Hfind; cbn [bind].
    + apply Nat.eqb_eq in Htwo.
      assert (Hother : ((if (targetInRemaining =? 0)%nat then 1 else 0)
                        < length unvisited)%nat).
      { destruct (targetInRemaining =? 0)%nat; lia. }
      destruct (nth_error_in_range unvisited _ Hother) as [y Hy].
      cbn [Client.selectedAppointment]. rewrite Hy.
      eexists. split; [reflexivity|]. cbn. exact Hother.
    + cbn [Client.selectedAppointment nothing]. apply Hscan; reflexivity.
  - cbn [bind Client.selectedAppointment nothing].
    apply Hscan; reflexivity.
Qed.

(** The loop ends normally with at most one stop left, every stop being
    either on the route or left. *)
Lemma client_loop (target : AppointmentData) (turns : nat) :
  forall (unvisited route : list AppointmentData) (currentIndex : nat),
    (length unvisited <= S turns)%nat ->
    (currentIndex < S (length appointments))%nat ->
    exists left route',
      whileSeveral turns (Some target) unvisited route currentIndex
      = Normal (left, route')
      /\ (length left <= 1)%nat
      /\ Permutation (route' ++ left) (route ++ unvisited).
Proof.
  induction turns as [|turns IH]; intros unvisited route currentIndex Hlen Hcur.
  - exists unvisited, route. cbn [Client.whileSeveral].
    destruct (length unvisited <=? 1)%nat; repeat split; auto.
  - cbn [Client.whileSeveral].
    destruct (length unvisited <=? 1)%nat eqn:E.
    + exists unvisited, route. repeat split; auto. now apply Nat.leb_le.
    + apply Nat.leb_gt in E.
      destruct (client_select target unvisited currentIndex)
        as [s [Hs Hr]]; [lia | exact Hcur |].
      rewrite Hs. cbn [bind].
      destruct (nth_error_in_range unvisited _ Hr) as [x Hx]. rewrite Hx.
      pose proof (removeAt_length _ _ _ Hx) as Hrem.
      destruct (IH (removeAt (nearestIndex (Client.nearest s)) unvisited)
                  (route ++ [x]) (plusOne (indexOf appointments x)))
        as [left [route' [Hrun [Hleft Hperm]]]].
      * lia.
      * apply plusOne_bound.
      * exists left, route'. split; [exact Hrun|]. split; [exact Hleft|].
        rewrite Hperm. rewrite <- app_assoc. simpl.
        apply Permutation_app_head. now apply removeAt_perm.
Qed.

Lemma client_optimizeSingleRoute (origin : Coordinates) (k : nat) :
  (k < length appointments)%nat ->
  exists candidate,
    Client.optimizeSingleRoute appointments (Some matrix) origin 0 k
    = Normal candidate
    /\ Permutation candidate appointments.
Proof.
  intros Hk. destruct (nth_error_in_range appointments k Hk) as [t Ht].
  unfold Client.optimizeSingleRoute. rewrite Ht.
  destruct (client_loop t (length appointments) appointments [] 0)
    as [left [route' [Hrun [Hleft Hperm]]]]; [lia | lia |].
  rewrite Hrun. cbn [bind fst snd]. simpl app in Hperm.
  destruct left as [|lastOne [|more left]].
  - exists route'. split; [reflexivity|]. now rewrite app_nil_r in Hperm.
  - exists (route' ++ [lastOne]). split; [reflexivity | exact Hperm].
  - simpl in Hleft. lia.
Qed.

Lemma client_addLegs (route : list AppointmentData) :
  forall (q : Q),
  exists total,
    Client.addLegs appointments (Some matrix) route (Num q)
    = Normal (Num total).
Proof.
  induction route as [|a route IH]; intros q.
  - now exists q.
  - destruct route as [|b route].
    + now exists q.
    + cbn [Client.addLegs].
      destruct (cell_of_square _ matrix
                  (Client.matrixIndex appointments a)
                  (Client.matrixIndex appointments b) matrix_square
                  (plusOne_bound _ _) (plusOne_bound _ _)) as [leg Hleg].
      rewrite Hleg. cbn [bind plus]. apply IH.
Qed.

Lemma client_calculateRoundTripDistance (route : list AppointmentData)
  (origin : Coordinates) (hasStartLocation : bool) :
  exists total,
    Client.calculateRoundTripDistance appointments route origin (Some matrix)
      hasStartLocation = Normal (Num total).
Proof.
  unfold Client.calculateRoundTripDistance.
  destruct route as [|first route]; [now exists 0|].
  assert (Hfirst : exists q,
             (if hasStartLocation
              then bind (Client.cell (Some matrix) 0
                           (Client.matrixIndex appointments first))
                     (fun leg => Normal (plus (Num 0) leg))
              else Normal (Num 0)) = Normal (Num q)).
  { destruct hasStartLocation; [|now exists 0].
    destruct (cell_of_square _ matrix 0
                (Client.matrixIndex appointments first) matrix_square
                (Nat.lt_0_succ _) (plusOne_bound _ _)) as [leg Hleg].
    rewrite Hleg. cbn. eexists. reflexivity. }
  destruct Hfirst as [q ->]. cbn [bind].
  destruct (client_addLegs (first :: route) q) as [total ->]. cbn [bind].
  destruct (cell_of_square _ matrix
              (Client.matrixIndex appointments
                 (last (first :: route) first)) 0 matrix_square
              (plusOne_bound _ _) (Nat.lt_0_succ _)) as [back Hback].
  rewrite Hback. cbn. eexists. reflexivity.
Qed.

(** The search over the endings ends normally; once an ending has been
    tried the best route is a permutation of the appointments. *)
Lemma client_forLoop (origin : Coordinates) (hasStartLocation : bool)
  (count : nat) :
  forall (m : nat) (b : Client.Best),
    (m + count <= length appointments)%nat ->
    (Client.bestTotalDistance b = Infinity
     \/ Permutation (Client.bestRoute b) appointments) ->
    exists b',
      forLoop
        (Client.tryEnding appointments (Some matrix) origin hasStartLocation)
        m count b = Normal b'
      /\ ((count = 0%nat /\ b' = b)
          \/ Permutation (Client.bestRoute b') appointments).
Proof.
  induction count as [|count IH]; intros m b Hm Hb.
  - exists b. split; [reflexivity | now left].
  - cbn [forLoop]. unfold Client.tryEnding at 1.
    destruct (client_optimizeSingleRoute origin m) as [cand [Hcand Hperm]];
      [lia|].
    rewrite Hcand. cbn [bind].
    destruct (client_calculateRoundTripDistance cand origin hasStartLocation)
      as [total Htotal].
    rewrite Htotal. cbn [bind].
    assert (Hstep : exists b1,
               (if lessThan (Num total) (Client.bestTotalDistance b)
                then Normal {| Client.bestRoute := cand;
                               Client.bestTotalDistance := Num total |}
                else Normal b) = Normal b1
               /\ Permutation (Client.bestRoute b1) appointments).
    { destruct Hb as [Hinf|Hp].
      - rewrite Hinf. cbn. eexists. split; [reflexivity | exact Hperm].
      - destruct (lessThan (Num total) (Client.bestTotalDistance b));
          eexists; split; try reflexivity; auto. }
    destruct Hstep as [b1 [-> Hb1]]. cbn [bind].
    destruct (IH (S m) b1) as [b' [Hrun Hb']]; [lia | now right |].
    exists b'. split; [exact Hrun|]. right.
    destruct Hb' as [[_ ->]|Hp]; auto.
Qed.

End ClientFacts.

(** ** The whole-call failure of the distance provider *)

Section WholeCallFailure.

Variable calculateHaversineDistance : Coordinates -> Coordinates -> Q.

Local Abbreviation haversineMatrix :=
  (Client.haversineMatrix calculateHaversineDistance).
Local Abbreviation calculateDistanceMatrix :=
  (Client.calculateDistanceMatrix calculateHaversineDistance).
Local Abbreviation optimizeRouteWithDriving :=
  (Client.optimizeRouteWithDriving calculateHaversineDistance).

Lemma calculateDistanceMatrix_fallback (origins destinations : list Coordinates)
  (outcome : Client.FetchOutcome) :
  failsAsAWhole outcome ->
  origins <> [] -> destinations <> [] ->
  calculateDistanceMatrix origins destinations outcome
  = Some (haversineMatrix origins destinations).
Proof.
  intros Hfail Ho Hd. unfold Client.calculateDistanceMatrix.
  destruct origins; [congruence|]. destruct destinations; [congruence|].
  cbn [length Nat.eqb orb].
  destruct Hfail as [->|[json ->]]; reflexivity.
Qed.

End WholeCallFailure.

(** ** The client-side optimizer: the same two properties on a full matrix *)

Section ClientRoundTrip.

Variable appointments : list AppointmentData.
Variable matrix : list (list Q).
Hypothesis matrix_square : square (S (length appointments)) matrix.

Local Abbreviation nearerExcept :=
  (Client.nearerExcept appointments (Some matrix)).
Local Abbreviation select := (Client.select appointments (Some matrix)).

(** What a pass of the client's selection has selected. *)
Lemma client_pass_selected (len : nat) (target : AppointmentData)
  (currentIndex : nat) (l : list AppointmentData) :
  (2 <= len)%nat ->
  (currentIndex < S (length appointments))%nat ->
  forall (i : nat) (s : Client.Selection),
  exists s',
    forEachC (nearerExcept len (Some target) currentIndex) l i s = Normal s'
    /\ (s' = s
        \/ exists x,
             nth_error l (nearestIndex (Client.nearest s') - i) = Some x
             /\ (i <= nearestIndex (Client.nearest s'))%nat
             /\ id x <> id target
             /\ Client.selectedAppointment s' = Some x).
Proof.
  intros Hlen Hcur. induction l as [|x l IH]; intros i s.
  - exists s. split; [reflexivity | now left].
  - cbn [forEachC]. unfold Client.nearerExcept at 1.
    assert (Hl : (1 <? len)%nat = true) by (apply Nat.ltb_lt; lia).
    rewrite Hl. cbn [bind].
    assert (Hshift : forall s1 s',
               (s' = s1
                \/ exists y,
                     nth_error l (nearestIndex (Client.nearest s') - S i)
                     = Some y
                     /\ (S i <= nearestIndex (Client.nearest s'))%nat
                     /\ id y <> id target
                     /\ Client.selectedAppointment s' = Some y) ->
               (s1 = s
                \/ (nearestIndex (Client.nearest s1) = i
                    /\ id x <> id target
                    /\ Client.selectedAppointment s1 = Some x)) ->
               s' = s
               \/ exists y,
                    nth_error (x :: l) (nearestIndex (Client.nearest s') - i)
                    = Some y
                    /\ (i <= nearestIndex (Client.nearest s'))%nat
                    /\ id y <> id target
                    /\ Client.selectedAppointment s' = Some y).
    { intros s1 s' [->|[y [Hy [Hi [Hne Hsel]]]]] Hs1.
      - destruct Hs1 as [->|[Hi [Hne Hsel]]]; [now left|].
        right. exists x. rewrite Hi, Nat.sub_diag. repeat split; auto.
      - right. exists y. repeat split; auto; try lia.
        replace (nearestIndex (Client.nearest s') - i)%nat
          with (S (nearestIndex (Client.nearest s') - S i))%nat by lia.
        exact Hy. }
    destruct (String.eqb (id x) (id target)) eqn:Hid.
    + destruct (IH (S i) s) as [s' [Hrun Hs']].
      exists s'. split; [exact Hrun|].
      apply (Hshift s s' Hs'). now left.
    + apply String.eqb_neq in Hid.
      destruct (cell_of_square _ matrix currentIndex
                  (plusOne (indexOf appointments x)) matrix_square Hcur
                  (plusOne_bound _ _)) as [q Hq].
      rewrite Hq. cbn [bind].
      destruct (lessThan (Num q) (nearestDistance (Client.nearest s)));
        cbn [bind].
      * match goal with
        | |- exists s', forEachC _ _ _ ?s1 = _ /\ _ =>
            destruct (IH (S i) s1) as [s' [Hrun Hs']];
            exists s'; split; [exact Hrun|];
            apply (Hshift s1 s' Hs'); right; repeat split; auto
        end.
      * destruct (IH (S i) s) as [s' [Hrun Hs']].
        exists s'. split; [exact Hrun|].
        apply (Hshift s s' Hs'). now left.
Qed.

(** A pass that starts with nothing selected and goes through a stop other
    than the target ends with a selection. *)
Lemma client_pass_selects (len : nat) (target : AppointmentData)
  (currentIndex : nat) (l : list AppointmentData) :
  (2 <= len)%nat ->
  (currentIndex < S (length appointments))%nat ->
  (exists x, In x l /\ id x <> id target) ->
  forall (i : nat) (s s' : Client.Selection),
    nearestDistance (Client.nearest s) = Infinity ->
    Client.selectedAppointment s = None ->
    forEachC (nearerExcept len (Some target) currentIndex) l i s = Normal s' ->
    Client.selectedAppointment s' <> None.
Proof.
  intros Hlen Hcur. induction l as [|x l IH];
    intros [y [Hin Hy]] i s s' Hinf Hnone Hrun.
  - destruct Hin.
  - cbn [forEachC] in Hrun. unfold Client.nearerExcept at 1 in Hrun.
    assert (Hl : (1 <? len)%nat = true) by (apply Nat.ltb_lt; lia).
    rewrite Hl in Hrun. cbn [bind] in Hrun.
    destruct (String.eqb (id x) (id target)) eqn:Hid.
    + apply String.eqb_eq in Hid.
      apply (IH) with (i := S i) (s := s); auto.
      destruct Hin as [->|Hin]; [congruence|]. now exists y.
    + destruct (cell_of_square _ matrix currentIndex
                  (plusOne (indexOf appointments x)) matrix_square Hcur
                  (plusOne_bound _ _)) as [q Hq].
      rewrite Hq, Hinf in Hrun. cbn [bind lessThan] in Hrun.
      match type of Hrun with
      | forEachC _ _ _ ?s1 = _ =>
          destruct (client_pass_selected len target currentIndex l Hlen Hcur
                      (S i) s1) as [s2 [Hrun2 Hsel]]
      end.
      rewrite Hrun in Hrun2. injection Hrun2 as <-.
      destruct Hsel as [->|[z [_ [_ [_ Hz]]]]]; [discriminate | congruence].
Qed.

(** With distinct ids and the target among two stops or more, the selection
    of a turn is a stop other than the target. *)
Lemma client_select_other (target : AppointmentData)
  (unvisited : list AppointmentData) (currentIndex : nat) :
  (2 <= length unvisited)%nat ->
  (currentIndex < S (length appointments))%nat ->
  NoDup (map id unvisited) ->
  In target unvisited ->
  exists s x,
    select (Some target) unvisited currentIndex = Normal s
    /\ nth_error unvisited (nearestIndex (Client.nearest s)) = Some x
    /\ id x <> id target.
Proof.
  intros Hlen Hcur Hnodup Hin. unfold Client.select.
  destruct (length unvisited =? 2)%nat eqn:Htwo.
  - apply Nat.eqb_eq in Htwo.
    destruct unvisited as [|a [|b [|c rest]]]; simpl in Htwo; try lia.
    simpl in Hnodup. inversion Hnodup as [|? ? Hab _]; subst.
    unfold Client.byId. cbn [findIndex].
    destruct (String.eqb (id a) (id target)) eqn:Ha.
    + apply String.eqb_eq in Ha. cbn. exists
        {| Client.nearest := {| nearestIndex := 1;
                                nearestDistance := Infinity |};
           Client.selectedAppointment := Some b |}, b.
      repeat split; auto. intros Hb. apply Hab. left. congruence.
    + apply String.eqb_neq in Ha.
      destruct (String.eqb (id b) (id target)) eqn:Hb.
      * cbn. exists
          {| Client.nearest := {| nearestIndex := 0;
                                  nearestDistance := Infinity |};
             Client.selectedAppointment := Some a |}, a.
        repeat split; auto.
      * apply String.eqb_neq in Hb.
        destruct Hin as [->|[->|[]]]; congruence.
  - cbn [bind Client.selectedAppointment].
    set (nothing := {| Client.nearest := noneYet;
                       Client.selectedAppointment := None |}).
    destruct (client_pass_selected (length unvisited) target currentIndex
                unvisited Hlen Hcur 0 nothing) as [s' [Hrun Hsel]].
    assert (Hother : exists y, In y unvisited /\ id y <> id target).
    { destruct unvisited as [|a [|b rest]]; simpl in Hlen; try lia.
      destruct (String.eqb (id a) (id target)) eqn:Ha.
      - apply String.eqb_eq in Ha. exists b. split; [simpl; auto|].
        intros Hb. simpl in Hnodup. inversion Hnodup as [|? ? Hnot _].
        apply Hnot. left. congruence.
      - apply String.eqb_neq in Ha. exists a. split; [simpl; auto | auto]. }
    pose proof (client_pass_selects (length unvisited) target currentIndex
                  unvisited Hlen Hcur Hother 0 nothing s' eq_refl eq_refl
                  Hrun) as Hsome.
    rewrite Hrun. cbn [bind].
    destruct Hsel as [->|[x [Hx [_ [Hne Hsx]]]]]; [now elim Hsome|].
    rewrite Hsx. exists s', x. rewrite Nat.sub_0_r in Hx.
    repeat split; auto.
Qed.

(** The client's loop leaves the target as the one stop not yet on the
    route. *)
Lemma client_loop_keeps_target (target : AppointmentData) (turns : nat) :
  forall (unvisited route : list AppointmentData) (currentIndex : nat),
    (length unvisited <= S turns)%nat ->
    (currentIndex < S (length appointments))%nat ->
    NoDup (map id unvisited) ->
    In target unvisited ->
    exists front,
      Client.whileSeveral turns appointments (Some matrix) (Some target)
        unvisited route currentIndex
      = Normal ([target], route ++ front)
      /\ Permutation (front ++ [target]) unvisited.
Proof.
  induction turns as [|turns IH];
    intros unvisited route currentIndex Hlen Hcur Hnodup Hin.
  - destruct unvisited as [|a [|b rest]]; simpl in Hlen; try lia.
    + destruct Hin.
    + destruct Hin as [->|[]]. exists []. cbn. now rewrite app_nil_r.
  - cbn [Client.whileSeveral].
    destruct (length unvisited <=? 1)%nat eqn:E.
    + apply Nat.leb_le in E.
      destruct unvisited as [|a [|b rest]]; simpl in E; try lia.
      * destruct Hin.
      * destruct Hin as [->|[]]. exists []. cbn. now rewrite app_nil_r.
    + apply Nat.leb_gt in E.
      destruct (client_select_other target unvisited currentIndex)
        as [s [x [Hs [Hx Hne]]]]; auto; try lia.
      rewrite Hs. cbn [bind]. rewrite Hx.
      pose proof (removeAt_length _ _ _ Hx) as Hrem.
      pose proof (removeAt_perm _ _ _ Hx) as Hperm.
      set (i := nearestIndex (Client.nearest s)) in *.
      assert (Hnodup' : NoDup (map id (removeAt i unvisited))).
      { assert (Hp : Permutation (map id (x :: removeAt i unvisited))
                       (map id unvisited)) by now apply Permutation_map.
        apply Permutation_sym in Hp.
        pose proof (Permutation_NoDup Hp Hnodup) as Hnd.
        now inversion Hnd. }
      assert (Hin' : In target (removeAt i unvisited)).
      { apply Permutation_sym in Hperm.
        pose proof (Permutation_in _ Hperm Hin) as [Heq|Hi]; auto.
        congruence. }
      destruct (IH (removeAt i unvisited) (route ++ [x])
                  (plusOne (indexOf appointments x)))
        as [front [Hrun Hp]]; auto; try lia.
      { apply plusOne_bound. }
      exists (x :: front). split.
      * rewrite Hrun. now rewrite <- app_assoc.
      * simpl. rewrite Hp. exact Hperm.
Qed.

(** The forced-final property of the client-side construction, on a full
    matrix:
    the route ends with the forced-final appointment. *)
Lemma client_optimizeSingleRoute_ends_at_target (origin : Coordinates)
  (k : nat) (target : AppointmentData) :
  NoDup (map id appointments) ->
  nth_error appointments k = Some target ->
  exists front,
    Client.optimizeSingleRoute appointments (Some matrix) origin 0 k
    = Normal (front ++ [target])
    /\ Permutation (front ++ [target]) appointments.
Proof.
  intros Hnodup Hk. unfold Client.optimizeSingleRoute. rewrite Hk.
  destruct (client_loop_keeps_target target (length appointments)
              appointments [] 0) as [front [Hrun Hperm]]; auto; try lia.
  { now apply nth_error_In with k. }
  rewrite Hrun. cbn. exists front. split; [reflexivity | exact Hperm].
Qed.

(** The minimality of the client-side search, on a full matrix: the
    best route is a forced-final candidate of least round-trip distance. *)
Lemma client_forLoop_minimal (origin : Coordinates) (hasStartLocation : bool)
  (count : nat) :
  forall (m : nat) (b : Client.Best),
    (m + count <= length appointments)%nat ->
    bestAmong
      (Client.optimizeSingleRoute appointments (Some matrix) origin 0)
      (clientRoundTrip appointments (Some matrix) origin hasStartLocation)
      m (Client.bestRoute b) (Client.bestTotalDistance b) ->
    exists b',
      forLoop
        (Client.tryEnding appointments (Some matrix) origin hasStartLocation)
        m count b = Normal b'
      /\ bestAmong
           (Client.optimizeSingleRoute appointments (Some matrix) origin 0)
           (clientRoundTrip appointments (Some matrix) origin
              hasStartLocation)
           (m + count) (Client.bestRoute b') (Client.bestTotalDistance b').
Proof.
  induction count as [|count IH]; intros m b Hm Hb.
  - exists b. split; [reflexivity|]. now rewrite Nat.add_0_r.
  - cbn [forLoop]. unfold Client.tryEnding at 1.
    destruct (client_optimizeSingleRoute appointments matrix matrix_square
                origin m) as [cand [Hcand _]]; [lia|].
    rewrite Hcand. cbn [bind].
    destruct (client_calculateRoundTripDistance appointments matrix
                matrix_square cand origin hasStartLocation) as [total Htotal].
    rewrite Htotal. cbn [bind].
    assert (Hq : clientRoundTrip appointments (Some matrix) origin
                   hasStartLocation cand = total).
    { unfold clientRoundTrip. now rewrite Htotal. }
    replace (m + S count)%nat with (S m + count)%nat by lia.
    destruct (lessThan (Num total) (Client.bestTotalDistance b)) eqn:Hlt;
      cbn [bind].
    + apply IH; [lia|].
      cbn [Client.bestRoute Client.bestTotalDistance].
      right. exists m. repeat split; auto; [now rewrite Hq|].
      intros j rj Hj Hrj. rewrite Hq.
      destruct Hb as [[Hinf [Hm0 _]]|[k [Hk [Hck [Hbk Hmin]]]]].
      * assert (j = m) by lia. subst j. rewrite Hcand in Hrj.
        injection Hrj as <-. rewrite Hq. apply Qle_refl.
      * rewrite Hbk in Hlt. cbn [lessThan] in Hlt.
        apply Qltb_true in Hlt.
        destruct (Nat.eq_dec j m) as [->|Hne].
        -- rewrite Hcand in Hrj. injection Hrj as <-.
           rewrite Hq. apply Qle_refl.
        -- eapply Qle_trans; [apply Qlt_le_weak; exact Hlt|].
           apply (Hmin j rj); [lia | exact Hrj].
    + apply IH; [lia|].
      destruct Hb as [[Hinf _]|[k [Hk [Hck [Hbk Hmin]]]]].
      * rewrite Hinf in Hlt. discriminate.
      * right. exists k. repeat split; auto.
        intros j rj Hj Hrj.
        rewrite Hbk in Hlt. cbn [lessThan] in Hlt.
        apply Qltb_false in Hlt.
        destruct (Nat.eq_dec j m) as [->|Hne].
        -- rewrite Hcand in Hrj. injection Hrj as <-. now rewrite Hq.
        -- apply (Hmin j rj); [lia | exact Hrj].
Qed.

End ClientRoundTrip.

(** ** The round-trip optimizer where a distance is not a number *)

Lemma plus_NaN_left (x : number) : plus NaN x = NaN.
Proof. now destruct x. Qed.

Lemma plus_NaN_right (x : number) : plus x NaN = NaN.
Proof. now destruct x. Qed.

Lemma lessThan_NaN (x : number) : lessThan NaN x = false.
Proof. reflexivity. Qed.

Section NotANumber.

Variable calculateDistance : Coordinates -> Coordinates -> number.

Local Abbreviation optimizeSingleRoute :=
  (Js.RoundTripApi.optimizeSingleRoute calculateDistance).
Local Abbreviation calculateRoundTripDistance :=
  (Js.RoundTripApi.calculateRoundTripDistance calculateDistance).
Local Abbreviation optimizeRoundTripRoute :=
  (Js.RoundTripApi.optimizeRoundTripRoute calculateDistance).

(** A candidate for two stops holds the two stops, in one order or the
    other. *)
Lemma two_stop_candidate (a b : AppointmentData) (origin : Coordinates)
  (k : nat) :
  (k < 2)%nat ->
  optimizeSingleRoute [a; b] origin k = Normal [a; b]
  \/ optimizeSingleRoute [a; b] origin k = Normal [b; a].
Proof.
  intros Hk.
  assert (Htarget : exists t, nth_error [a; b] k = Some t).
  { destruct k as [|[|k]]; [now exists a | now exists b | lia]. }
  destruct Htarget as [t Ht].
  unfold Js.RoundTripApi.optimizeSingleRoute. rewrite Ht.
  cbn [length Js.RoundTripApi.whileUnvisited forEachC
         Js.RoundTripApi.nearerExcept Nat.ltb Nat.leb bind].
  destruct (String.eqb (id a) (id t)); cbn [bind];
    destruct (String.eqb (id b) (id t)); cbn [bind];
    repeat match goal with
           | |- context [lessThan ?x ?y] =>
               destruct (lessThan x y); cbn [bind nearestIndex]
           end;
    cbn [nth_error removeAt app Js.RoundTripApi.whileUnvisited];
    auto.
Qed.

(** The round trip over two stops is not a number when the leg between the
    origin and one of them is not, in either direction. *)
Lemma two_stop_total (lost other : AppointmentData) (origin : Coordinates)
  (route : list AppointmentData) :
  calculateDistance origin (coordsOf lost) = NaN ->
  calculateDistance (coordsOf lost) origin = NaN ->
  route = [lost; other] \/ route = [other; lost] ->
  calculateRoundTripDistance route origin = NaN.
Proof.
  intros Hout Hback [-> | ->];
    unfold Js.RoundTripApi.calculateRoundTripDistance;
    cbn [Js.RoundTripApi.addLegs last].
  - rewrite Hout. now rewrite plus_NaN_right, !plus_NaN_left.
  - rewrite Hback. now rewrite plus_NaN_right.
Qed.

(** C1.  The claim fails on the code.  When the distance between the
    starting location and one of two stops is not a number (the haversine
    distance the code computes is [NaN] for antipodal points such as (8, 0)
    and (-8, 180), see module [Doubles]), the round-trip distance of both
    candidates is [NaN], neither passes the test
    [totalDistance < bestTotalDistance], and the optimizer returns the
    empty route with the total [Infinity]: not a candidate route, and not
    the minimum of the candidates' distances. *)
Theorem optimizeRoundTripRoute_returns_no_route
  (lost other : AppointmentData) (origin : Coordinates) :
  calculateDistance origin (coordsOf lost) = NaN ->
  calculateDistance (coordsOf lost) origin = NaN ->
  optimizeRoundTripRoute [lost; other] (Some origin)
  = Normal {| RoundTripApi.route := [];
              RoundTripApi.totalDistance := Infinity |}
  /\ optimizeRoundTripRoute [other; lost] (Some origin)
     = Normal {| RoundTripApi.route := [];
                 RoundTripApi.totalDistance := Infinity |}.
Proof.
  intros Hout Hback.
  assert (Htry : forall a b k,
             (k < 2)%nat ->
             ([a; b] = [lost; other] \/ [a; b] = [other; lost]) ->
             Js.RoundTripApi.tryEnding calculateDistance [a; b] origin
               {| RoundTripApi.bestRoute := [];
                  RoundTripApi.bestTotalDistance := Infinity |} k
             = Normal {| RoundTripApi.bestRoute := [];
                         RoundTripApi.bestTotalDistance := Infinity |}).
  { intros a b k Hk Hab. unfold Js.RoundTripApi.tryEnding.
    assert (Hnan : forall route,
               route = [a; b] \/ route = [b; a] ->
               calculateRoundTripDistance route origin = NaN).
    { intros route Hroute.
      apply (two_stop_total lost other); auto.
      destruct Hab as [Hab|Hab]; injection Hab as -> ->;
        destruct Hroute as [-> | ->]; auto. }
    destruct (two_stop_candidate a b origin k Hk) as [-> | ->];
      cbn [bind]; rewrite Hnan by auto; reflexivity. }
  split; unfold Js.RoundTripApi.optimizeRoundTripRoute;
    cbn [length Nat.leb bind forLoop];
    rewrite Htry by (auto; lia); cbn [bind];
    rewrite Htry by (auto; lia); reflexivity.
Qed.

(** C3.  The claim fails on the code.  With two stops and the first one
    forced to be final, when the distance from the origin to the other stop
    is not a number the selection pass selects nothing, [nearestIndex]
    keeps its initial value 0 and the stop spliced first is the
    forced-final one: the route ends with the other stop, not with the
    forced-final one. *)
Theorem optimizeSingleRoute_forced_final_comes_first
  (target other : AppointmentData) (origin : Coordinates) :
  id other <> id target ->
  calculateDistance origin (coordsOf other) = NaN ->
  nth_error [target; other] 0 = Some target
  /\ optimizeSingleRoute [target; other] origin 0 = Normal [target; other]
  /\ last [target; other] target = other
  /\ other <> target.
Proof.
  intros Hid Hnan. split; [reflexivity|]. split; [|split].
  - unfold Js.RoundTripApi.optimizeSingleRoute.
    cbn [nth_error length Js.RoundTripApi.whileUnvisited forEachC
           Js.RoundTripApi.nearerExcept Nat.ltb Nat.leb bind].
    rewrite String.eqb_refl. cbn [bind].
    apply String.eqb_neq in Hid. rewrite Hid. cbn [bind].
    rewrite Hnan. reflexivity.
  - reflexivity.
  - intros ->. now apply Hid.
Qed.

End NotANumber.

(** ** The schedule on dates that may be invalid *)

Lemma setMinutes_valid (newYear : Z) (d : Js.Date) (k : option Z) (y : Z) :
  Js.setMinutes newYear d k = Some y ->
  exists x k', d = Some x /\ k = Some k' /\ y = (x + k')%Z.
Proof.
  unfold Js.setMinutes, Js.timeClip.
  destruct d as [x|]; [|discriminate]. destruct k as [k'|]; [|discriminate].
  destruct (Z.abs (newYear + (x + k')) <=? Js.maxMinutes)%Z;
    [|discriminate].
  intros H. injection H as <-. now exists x, k'.
Qed.

Lemma orderedWhileValid_nonDecreasing (l : list Js.Date) :
  orderedWhileValid l ->
  (forall t, In t l -> t <> None) ->
  nonDecreasingDates l.
Proof.
  induction l as [|a l IH]; intros Hord Hvalid; [exact I|].
  destruct l as [|b l]; [exact I|].
  destruct Hord as [Hstep Hord]. split.
  - destruct b as [y|] eqn:Hb.
    + destruct (Hstep y eq_refl) as [x [-> Hle]]. now exists x, y.
    + exfalso. apply (Hvalid None); [right; now left | reflexivity].
  - apply IH; [exact Hord|]. intros t Ht. apply Hvalid. now right.
Qed.

Lemma nonDecreasingDates_valid (l : list Js.Date) :
  nonDecreasingDates l -> (2 <= length l)%nat ->
  forall t, In t l -> t <> None.
Proof.
  induction l as [|a l IH]; intros Hord Hlen t Ht; [destruct Ht|].
  destruct l as [|b l]; [simpl in Hlen; lia|].
  destruct Hord as [[x [y [-> [-> _]]]] Hord].
  destruct Ht as [<-|Ht]; [discriminate|].
  destruct l as [|c l].
  - destruct Ht as [<-|[]]. discriminate.
  - apply IH; auto. simpl. lia.
Qed.

Lemma js_openPath_walk_length
  (calculateDistance : Coordinates -> Coordinates -> number) (newYear : Z)
  (travelTimePerMile : Q) (rest : list AppointmentData) :
  forall (previous : option AppointmentData) (currentTime : Js.Date)
         (arrivals : list Js.Date),
  exists new,
    fst (Js.OptimizeApi.walk calculateDistance newYear travelTimePerMile
           previous rest currentTime arrivals) = arrivals ++ new
    /\ length new = length rest.
Proof.
  induction rest as [|a rest IH]; intros previous currentTime arrivals.
  - exists []. cbn. now rewrite app_nil_r.
  - cbn [Js.OptimizeApi.walk].
    match goal with
    | |- context [Js.OptimizeApi.walk _ _ _ ?p rest ?ct (arrivals ++ [?x])] =>
        destruct (IH p ct (arrivals ++ [x])) as [new [Hwalk Hlen]];
        exists (x :: new)
    end.
    rewrite Hwalk, <- app_assoc. split; [reflexivity|].
    simpl. now rewrite Hlen.
Qed.

Section ValidDates.

Variable calculateDistance : Coordinates -> Coordinates -> number.
Variable newYear : Z.
Variable travelTimePerMile : Q.

Hypothesis distance_nonneg : neverNegativeNumber calculateDistance.
Hypothesis rate_pos : (0 < travelTimePerMile)%Q.

(** The clock after a travel is valid only if it was before, and then it is
    not earlier. *)
Lemma travel_advances (d : Js.Date) (a b : Coordinates) (y : Z) :
  Js.setMinutes newYear d
    (Js.travelMinutes (calculateDistance a b) travelTimePerMile) = Some y ->
  exists x, d = Some x /\ (x <= y)%Z.
Proof.
  intros H. destruct (setMinutes_valid _ _ _ _ H) as [x [k [-> [Hk ->]]]].
  exists x. split; [reflexivity|].
  unfold Js.travelMinutes in Hk.
  destruct (calculateDistance a b) as [q| |] eqn:Hq; try discriminate Hk.
  injection Hk as <-.
  pose proof (travelMinutes_nonneg q travelTimePerMile
                (distance_nonneg a b q Hq) rate_pos) as Hnonneg.
  unfold travelMinutes in Hnonneg. lia.
Qed.

Lemma visit_advances (d : Js.Date) (a : AppointmentData) (y : Z) :
  (0 <= duration a)%Z ->
  Js.setMinutes newYear d (Some (duration a)) = Some y ->
  exists x, d = Some x /\ (x <= y)%Z.
Proof.
  intros Hdur H. destruct (setMinutes_valid _ _ _ _ H) as [x [k [-> [Hk ->]]]].
  injection Hk as <-. exists x. split; [reflexivity | lia].
Qed.

Lemma roundTrip_walk_ordered (origin : option Coordinates)
  (rest : list AppointmentData) :
  Forall (fun a => (0 <= duration a)%Z) rest ->
  forall (previous : option AppointmentData) (currentTime : Js.Date)
         (arrivals : list Js.Date),
  exists new,
    fst (Js.RoundTripApi.walk calculateDistance newYear travelTimePerMile
           origin previous rest currentTime arrivals) = arrivals ++ new
    /\ orderedWhileValid new
    /\ forall y, hd_error new = Some (Some y) ->
         exists x, currentTime = Some x /\ (x <= y)%Z.
Proof.
  induction rest as [|a rest IH]; intros Hdur previous currentTime arrivals.
  - exists []. cbn. rewrite app_nil_r. repeat split. discriminate.
  - inversion Hdur as [|? ? Ha Hrest]; subst.
    cbn [Js.RoundTripApi.walk].
    set (arrival := match previous, origin with
                    | Some before, _ => _
                    | None, Some start => _
                    | None, None => currentTime
                    end).
    assert (Harrival : forall y, arrival = Some y ->
                         exists x, currentTime = Some x /\ (x <= y)%Z).
    { intros y. unfold arrival.
      destruct previous as [before|]; [apply travel_advances|].
      destruct origin as [start|]; [apply travel_advances|].
      intros ->. exists y. split; [reflexivity | lia]. }
    destruct (IH Hrest (Some a)
                (Js.setMinutes newYear arrival (Some (duration a)))
                (arrivals ++ [arrival])) as [new [Hwalk [Hord Hhead]]].
    exists (arrival :: new). rewrite Hwalk, <- app_assoc.
    split; [reflexivity|]. split.
    + destruct new as [|b new]; [exact I|]. split; [|exact Hord].
      intros y ->. destruct (Hhead y eq_refl) as [x [Hx Hle]].
      destruct (visit_advances _ _ _ Ha Hx) as [x' [-> Hle']].
      exists x'. split; [reflexivity | lia].
    + intros y Hy. cbn in Hy. injection Hy as Hy. now apply Harrival.
Qed.

Lemma openPath_walk_ordered (rest : list AppointmentData) :
  Forall (fun a => (0 <= duration a)%Z) rest ->
  forall (previous : option AppointmentData) (currentTime : Js.Date)
         (arrivals : list Js.Date),
  exists new,
    fst (Js.OptimizeApi.walk calculateDistance newYear travelTimePerMile
           previous rest currentTime arrivals) = arrivals ++ new
    /\ orderedWhileValid new
    /\ forall y, hd_error new = Some (Some y) ->
         exists x, currentTime = Some x /\ (x <= y)%Z.
Proof.
  induction rest as [|a rest IH]; intros Hdur previous currentTime arrivals.
  - exists []. cbn. rewrite app_nil_r. repeat split. discriminate.
  - inversion Hdur as [|? ? Ha Hrest]; subst.
    cbn [Js.OptimizeApi.walk].
    set (arrival := match previous with
                    | Some before => _
                    | None => currentTime
                    end).
    assert (Harrival : forall y, arrival = Some y ->
                         exists x, currentTime = Some x /\ (x <= y)%Z).
    { intros y. unfold arrival.
      destruct previous as [before|]; [apply travel_advances|].
      intros ->. exists y. split; [reflexivity | lia]. }
    destruct (IH Hrest (Some a)
                (Js.setMinutes newYear arrival (Some (duration a)))
                (arrivals ++ [arrival])) as [new [Hwalk [Hord Hhead]]].
    exists (arrival :: new). rewrite Hwalk, <- app_assoc.
    split; [reflexivity|]. split.
    + destruct new as [|b new]; [exact I|]. split; [|exact Hord].
      intros y ->. destruct (Hhead y eq_refl) as [x [Hx Hle]].
      destruct (visit_advances _ _ _ Ha Hx) as [x' [-> Hle']].
      exists x'. split; [reflexivity | lia].
    + intros y Hy. cbn in Hy. injection Hy as Hy. now apply Harrival.
Qed.


End ValidDates.


(** ** The client-side optimizer on the matrix it computes by itself *)

Lemma js_cell_of_square (size : nat) (matrix : list (list number))
  (i j : nat) :
  squareTable size matrix -> (i < size)%nat -> (j < size)%nat ->
  exists distance,
    Js.Client.cell (Some matrix) i j = Normal distance
    /\ (numbersOnly matrix -> exists q, distance = Num q).
Proof.
  intros [Hrows Hcols] Hi Hj. unfold Js.Client.cell.
  rewrite <- Hrows in Hi.
  destruct (nth_error_in_range matrix i Hi) as [row Hrow]. rewrite Hrow.
  rewrite Forall_forall in Hcols.
  pose proof (Hcols row (nth_error_In _ _ Hrow)) as Hlen.
  rewrite <- Hlen in Hj.
  destruct (nth_error_in_range row j Hj) as [distance Hd]. rewrite Hd.
  exists distance. split; [reflexivity|].
  intros Hnum. unfold numbersOnly in Hnum. rewrite Forall_forall in Hnum.
  pose proof (Hnum row (nth_error_In _ _ Hrow)) as Hcells.
  rewrite Forall_forall in Hcells.
  exact (Hcells distance (nth_error_In _ _ Hd)).
Qed.

Section JsClientFacts.

Variable calculateHaversineDistance : Coordinates -> Coordinates -> number.

Local Abbreviation haversineMatrix :=
  (Js.Client.haversineMatrix calculateHaversineDistance).
Local Abbreviation calculateDistanceMatrix :=
  (Js.Client.calculateDistanceMatrix calculateHaversineDistance).
Local Abbreviation optimizeRouteWithDriving :=
  (Js.Client.optimizeRouteWithDriving calculateHaversineDistance).

Lemma js_haversineMatrix_square (points : list Coordinates) :
  squareTable (length points) (haversineMatrix points points).
Proof.
  unfold squareTable, Js.Client.haversineMatrix. split.
  - now rewrite length_map.
  - apply Forall_forall. intros row Hrow.
    apply in_map_iff in Hrow. destruct Hrow as [origin [<- _]].
    now rewrite length_map.
Qed.

(** The cell of a pair is the haversine distance of the pair. *)
Lemma js_haversineMatrix_cell (origins destinations : list Coordinates)
  (i j : nat) (origin dest : Coordinates) :
  nth_error origins i = Some origin ->
  nth_error destinations j = Some dest ->
  Js.Client.cell (Some (haversineMatrix origins destinations)) i j
  = Normal (calculateHaversineDistance origin dest).
Proof.
  intros Ho Hd. unfold Js.Client.cell, Js.Client.haversineMatrix.
  rewrite nth_error_map, Ho. cbn [option_map].
  rewrite nth_error_map, Hd. reflexivity.
Qed.

Lemma js_haversineMatrix_numbers (points : list Coordinates)
  (miles : Coordinates -> Coordinates -> Q) :
  numbersAmong points calculateHaversineDistance miles ->
  numbersOnly (haversineMatrix points points).
Proof.
  intros Hnum. unfold numbersOnly, Js.Client.haversineMatrix.
  apply Forall_forall. intros row Hrow.
  apply in_map_iff in Hrow. destruct Hrow as [origin [<- Ho]].
  apply Forall_forall. intros distance Hd.
  apply in_map_iff in Hd. destruct Hd as [dest [<- Hdest]].
  exists (miles origin dest). now apply Hnum.
Qed.

Lemma js_calculateDistanceMatrix_fallback
  (origins destinations : list Coordinates) (outcome : Client.FetchOutcome) :
  failsAsAWhole outcome ->
  origins <> [] -> destinations <> [] ->
  calculateDistanceMatrix origins destinations outcome
  = Some (haversineMatrix origins destinations).
Proof.
  intros Hfail Ho Hd. unfold Js.Client.calculateDistanceMatrix.
  destruct origins; [congruence|]. destruct destinations; [congruence|].
  cbn [length Nat.eqb orb].
  destruct Hfail as [->|[json ->]]; reflexivity.
Qed.

Variable appointments : list AppointmentData.
Variable matrix : list (list number).
Hypothesis matrix_square : squareTable (S (length appointments)) matrix.

Local Abbreviation nearerExcept :=
  (Js.Client.nearerExcept appointments (Some matrix)).
Local Abbreviation select := (Js.Client.select appointments (Some matrix)).
Local Abbreviation whileSeveral :=
  (fun turns => Js.Client.whileSeveral turns appointments (Some matrix)).

(** A selection pass ends normally; it leaves the selection alone or
    selects a position it went through. *)
Lemma js_client_pass (len : nat) (target : AppointmentData)
  (currentIndex : nat) (l : list AppointmentData) :
  (currentIndex < S (length appointments))%nat ->
  forall (i : nat) (s : Client.Selection),
  exists s',
    forEachC (nearerExcept len (Some target) currentIndex) l i s = Normal s'
    /\ (s' = s
        \/ ((i <= nearestIndex (Client.nearest s') < i + length l)%nat
            /\ Client.selectedAppointment s' <> None)).
Proof.
  intros Hcur. induction l as [|x l IH]; intros i s.
  - exists s. split; [reflexivity | now left].
  - cbn [forEachC]. unfold Js.Client.nearerExcept at 1.
    assert (Hskip : exists isTarget,
               (if (1 <? len)%nat
                then Normal (String.eqb (id x) (id target))
                else Normal false) = Normal isTarget).
    { destruct (1 <? len)%nat; eexists; reflexivity. }
    destruct Hskip as [isTarget ->]. cbn [bind].
    assert (Hnext : forall s1,
               (s1 = s \/ (nearestIndex (Client.nearest s1) = i
                           /\ Client.selectedAppointment s1 <> None)) ->
               exists s',
                 forEachC (nearerExcept len (Some target) currentIndex)
                   l (S i) s1 = Normal s'
                 /\ (s' = s
                     \/ ((i <= nearestIndex (Client.nearest s')
                          < i + length (x :: l))%nat
                         /\ Client.selectedAppointment s' <> None))).
    { intros s1 Hs1. destruct (IH (S i) s1) as [s' [Hrun Hs']].
      exists s'. split; [exact Hrun|]. simpl length.
      destruct Hs' as [->|[Hr Hsel]].
      - destruct Hs1 as [->|[Hi Hsel]]; [now left|]. right. split; auto. lia.
      - right. split; auto. lia. }
    destruct isTarget.
    + apply Hnext. now left.
    + destruct (js_cell_of_square _ matrix currentIndex
                  (plusOne (indexOf appointments x)) matrix_square Hcur
                  (plusOne_bound _ _)) as [distance [Hcell _]].
      rewrite Hcell. cbn [bind].
      destruct (lessThan distance (nearestDistance (Client.nearest s))).
      * apply Hnext. right. split; [reflexivity | discriminate].
      * apply Hnext. now left.
Qed.

(** The selection of a turn is a position of the list. *)
Lemma js_client_select (target : AppointmentData)
  (unvisited : list AppointmentData) (currentIndex : nat) :
  (2 <= length unvisited)%nat ->
  (currentIndex < S (length appointments))%nat ->
  exists s,
    select (Some target) unvisited currentIndex = Normal s
    /\ (nearestIndex (Client.nearest s) < length unvisited)%nat.
Proof.
  intros Hlen Hcur. unfold Js.Client.select.
  set (nothing := {| Client.nearest := noneYet;
                     Client.selectedAppointment := None |}).
  assert (Hscan : forall s0,
             Client.selectedAppointment s0 = None ->
             nearestIndex (Client.nearest s0) = 0%nat ->
             exists s,
               bind (forEachC
                       (nearerExcept (length unvisited) (Some target)
                          currentIndex) unvisited 0 s0)
                 (fun scanned =>
                    match Client.selectedAppointment scanned with
                    | Some _ => Normal scanned
                    | None =>
                        Normal
                          {| Client.nearest :=
                               {| nearestIndex := 0;
                                  nearestDistance :=
                                    nearestDistance (Client.nearest scanned) |};
                             Client.selectedAppointment :=
                               nth_error unvisited 0 |}
                    end) = Normal s
               /\ (nearestIndex (Client.nearest s) < length unvisited)%nat).
  { intros s0 Hnone Hzero.
    destruct (js_client_pass (length unvisited) target currentIndex
                unvisited Hcur 0 s0) as [s' [Hrun Hs']].
    rewrite Hrun. cbn [bind].
    destruct (Client.selectedAppointment s') eqn:Hsel.
    - exists s'. split; [reflexivity|].
      destruct Hs' as [->|[Hr _]]; [congruence | lia].
    - eexists. split; [reflexivity|]. simpl. lia. }
  destruct (length unvisited =? 2)%nat eqn:Htwo.
  - destruct (findIndex (Client.byId target) unvisited)
      as [targetInRemaining|] eqn:Hfind; cbn [bind].
    + apply Nat.eqb_eq in Htwo.
      assert (Hother : ((if (targetInRemaining =? 0)%nat then 1 else 0)
                        < length unvisited)%nat).
      { destruct (targetInRemaining =? 0)%nat; lia. }
      destruct (nth_error_in_range unvisited _ Hother) as [y Hy].
      cbn [Client.selectedAppointment]. rewrite Hy.
      eexists. split; [reflexivity|]. cbn. exact Hother.
    + cbn [Client.selectedAppointment nothing]. apply Hscan; reflexivity.
  - cbn [bind Client.selectedAppointment nothing].
    apply Hscan; reflexivity.
Qed.

(** The loop ends normally with at most one stop left, every stop being
    either on the route or left. *)
Lemma js_client_loop (target : AppointmentData) (turns : nat) :
  forall (unvisited route : list AppointmentData) (currentIndex : nat),
    (length unvisited <= S turns)%nat ->
    (currentIndex < S (length appointments))%nat ->
    exists left route',
      whileSeveral turns (Some target) unvisited route currentIndex
      = Normal (left, route')
      /\ (length left <= 1)%nat
      /\ Permutation (route' ++ left) (route ++ unvisited).
Proof.
  induction turns as [|turns IH]; intros unvisited route currentIndex Hlen Hcur.
  - exists unvisited, route. cbn [Js.Client.whileSeveral].
    destruct (length unvisited <=? 1)%nat; repeat split; auto.
  - cbn [Js.Client.whileSeveral].
    destruct (length unvisited <=? 1)%nat eqn:E.
    + exists unvisited, route. repeat split; auto. now apply Nat.leb_le.
    + apply Nat.leb_gt in E.
      destruct (js_client_select target unvisited currentIndex)
        as [s [Hs Hr]]; [lia | exact Hcur |].
      rewrite Hs. cbn [bind].
      destruct (nth_error_in_range unvisited _ Hr) as [x Hx]. rewrite Hx.
      pose proof (removeAt_length _ _ _ Hx) as Hrem.
      destruct (IH (removeAt (nearestIndex (Client.nearest s)) unvisited)
                  (route ++ [x]) (plusOne (indexOf appointments x)))
        as [left [route' [Hrun [Hleft Hperm]]]].
      * lia.
      * apply plusOne_bound.
      * exists left, route'. split; [exact Hrun|]. split; [exact Hleft|].
        rewrite Hperm. rewrite <- app_assoc. simpl.
        apply Permutation_app_head. now apply removeAt_perm.
Qed.

(** Every candidate is a permutation of the appointments, whatever the
    cells of the matrix hold. *)
Lemma js_client_optimizeSingleRoute (origin : Coordinates) (k : nat) :
  (k < length appointments)%nat ->
  exists candidate,
    Js.Client.optimizeSingleRoute appointments (Some matrix) origin 0 k
    = Normal candidate
    /\ Permutation candidate appointments.
Proof.
  intros Hk. destruct (nth_error_in_range appointments k Hk) as [t Ht].
  unfold Js.Client.optimizeSingleRoute. rewrite Ht.
  destruct (js_client_loop t (length appointments) appointments [] 0)
    as [left [route' [Hrun [Hleft Hperm]]]]; [lia | lia |].
  rewrite Hrun. cbn [bind fst snd]. simpl app in Hperm.
  destruct left as [|lastOne [|more left]].
  - exists route'. split; [reflexivity|]. now rewrite app_nil_r in Hperm.
  - exists (route' ++ [lastOne]). split; [reflexivity | exact Hperm].
  - simpl in Hleft. lia.
Qed.

Lemma plus_numbers (x y : number) :
  (exists p, x = Num p) -> (exists q, y = Num q) ->
  exists r, plus x y = Num r.
Proof.
  intros [p ->] [q ->]. now exists (p + q)%Q.
Qed.

Lemma js_client_addLegs (route : list AppointmentData) :
  forall (distance : number),
  exists total,
    Js.Client.addLegs appointments (Some matrix) route distance
    = Normal total
    /\ (numbersOnly matrix -> (exists q, distance = Num q) ->
        exists q, total = Num q).
Proof.
  induction route as [|a route IH]; intros distance.
  - exists distance. split; [reflexivity | auto].
  - destruct route as [|b route].
    + exists distance. split; [reflexivity | auto].
    + cbn [Js.Client.addLegs].
      destruct (js_cell_of_square _ matrix
                  (Client.matrixIndex appointments a)
                  (Client.matrixIndex appointments b) matrix_square
                  (plusOne_bound _ _) (plusOne_bound _ _))
        as [leg [Hleg Hnum]].
      rewrite Hleg. cbn [bind].
      destruct (IH (plus distance leg)) as [total [Hrun Htotal]].
      exists total. split; [exact Hrun|].
      intros Hall Hd. apply Htotal; [exact Hall|].
      apply plus_numbers; auto.
Qed.

Lemma js_client_calculateRoundTripDistance (route : list AppointmentData)
  (origin : Coordinates) (hasStartLocation : bool) :
  exists total,
    Js.Client.calculateRoundTripDistance appointments route origin
      (Some matrix) hasStartLocation = Normal total
    /\ (numbersOnly matrix -> exists q, total = Num q).
Proof.
  unfold Js.Client.calculateRoundTripDistance.
  destruct route as [|first route].
  { exists (Num 0). split; [reflexivity|]. intros _. now exists 0. }
  assert (Hfirst : exists distance,
             (if hasStartLocation
              then bind (Js.Client.cell (Some matrix) 0
                           (Client.matrixIndex appointments first))
                     (fun leg => Normal (plus (Num 0) leg))
              else Normal (Num 0)) = Normal distance
             /\ (numbersOnly matrix -> exists q, distance = Num q)).
  { destruct hasStartLocation.
    - destruct (js_cell_of_square _ matrix 0
                  (Client.matrixIndex appointments first) matrix_square
                  (Nat.lt_0_succ _) (plusOne_bound _ _))
        as [leg [Hleg Hnum]].
      rewrite Hleg. cbn [bind]. eexists. split; [reflexivity|].
      intros Hall. apply plus_numbers; [now exists 0 | auto].
    - exists (Num 0). split; [reflexivity|]. intros _. now exists 0. }
  destruct Hfirst as [distance [-> Hdistance]]. cbn [bind].
  destruct (js_client_addLegs (first :: route) distance)
    as [total [-> Htotal]]. cbn [bind].
  destruct (js_cell_of_square _ matrix
              (Client.matrixIndex appointments
                 (last (first :: route) first)) 0 matrix_square
              (plusOne_bound _ _) (Nat.lt_0_succ _))
    as [back [Hback Hnum]].
  rewrite Hback. cbn [bind]. eexists. split; [reflexivity|].
  intros Hall. apply plus_numbers; auto.
Qed.

(** The search over the endings ends normally.  The best route is still
    the initial empty one, with the total [Infinity], or it is a
    permutation of the appointments; it is a permutation once an ending
    has been tried on a matrix that holds numbers only. *)
Lemma js_client_forLoop (origin : Coordinates) (hasStartLocation : bool)
  (count : nat) :
  forall (m : nat) (b : Client.Best),
    (m + count <= length appointments)%nat ->
    ((Client.bestRoute b = [] /\ Client.bestTotalDistance b = Infinity)
     \/ Permutation (Client.bestRoute b) appointments) ->
    exists b',
      forLoop
        (Js.Client.tryEnding appointments (Some matrix) origin
           hasStartLocation)
        m count b = Normal b'
      /\ ((Client.bestRoute b' = [] /\ Client.bestTotalDistance b' = Infinity)
          \/ Permutation (Client.bestRoute b') appointments)
      /\ (numbersOnly matrix -> (0 < count)%nat ->
          Permutation (Client.bestRoute b') appointments).
Proof.
  induction count as [|count IH]; intros m b Hm Hb.
  - exists b. split; [reflexivity|]. split; [exact Hb | lia].
  - cbn [forLoop]. unfold Js.Client.tryEnding at 1.
    destruct (js_client_optimizeSingleRoute origin m)
      as [cand [Hcand Hperm]]; [lia|].
    rewrite Hcand. cbn [bind].
    destruct (js_client_calculateRoundTripDistance cand origin
                hasStartLocation) as [total [Htotal Hnum]].
    rewrite Htotal. cbn [bind].
    assert (Hstep : exists b1,
               (if lessThan total (Client.bestTotalDistance b)
                then Normal {| Client.bestRoute := cand;
                               Client.bestTotalDistance := total |}
                else Normal b) = Normal b1
               /\ ((Client.bestRoute b1 = []
                    /\ Client.bestTotalDistance b1 = Infinity)
                   \/ Permutation (Client.bestRoute b1) appointments)
               /\ (numbersOnly matrix ->
                   Permutation (Client.bestRoute b1) appointments)).
    { destruct (lessThan total (Client.bestTotalDistance b)) eqn:Hless.
      - eexists. split; [reflexivity|]. split; [now right|]. auto.
      - exists b. split; [reflexivity|]. split; [exact Hb|].
        intros Hall. destruct Hb as [[_ Hinf]|Hp]; [|exact Hp].
        destruct (Hnum Hall) as [q ->]. rewrite Hinf in Hless.
        discriminate Hless. }
    destruct Hstep as [b1 [-> [Hb1 Hnum1]]]. cbn [bind].
    destruct (IH (S m) b1) as [b' [Hrun [Hb' Hnum']]]; [lia | exact Hb1 |].
    exists b'. split; [exact Hrun|]. split; [exact Hb'|].
    intros Hall _. destruct count as [|count].
    + cbn [forLoop] in Hrun. injection Hrun as <-. auto.
    + apply Hnum'; [exact Hall | lia].
Qed.

End JsClientFacts.

Section WholeCallFailureOnAnyNumber.

Variable calculateHaversineDistance : Coordinates -> Coordinates -> number.

Local Abbreviation haversineMatrix :=
  (Js.Client.haversineMatrix calculateHaversineDistance).
Local Abbreviation calculateDistanceMatrix :=
  (Js.Client.calculateDistanceMatrix calculateHaversineDistance).
Local Abbreviation optimizeRouteWithDriving :=
  (Js.Client.optimizeRouteWithDriving calculateHaversineDistance).

(** On a request that fails as a whole the optimizer runs the search over
    the endings on the haversine matrix of the origin and the stops. *)
Lemma js_optimizeRouteWithDriving_fallback
  (first second : AppointmentData) (rest : list AppointmentData)
  (startLocation : option Coordinates) (outcome : Client.FetchOutcome) :
  failsAsAWhole outcome ->
  let appointments := first :: second :: rest in
  let origin :=
    match startLocation with
    | Some start => start
    | None => coordsOf first
    end in
  let allCoords := origin :: map coordsOf appointments in
  optimizeRouteWithDriving appointments startLocation outcome
  = Js.Client.bestOverEndings appointments
      (Some (haversineMatrix allCoords allCoords)) origin
      (match startLocation with Some _ => true | None => false end).
Proof.
  intros Hfail appointments origin allCoords.
  unfold Js.Client.optimizeRouteWithDriving.
  change (length appointments <=? 1)%nat with false. cbv iota.
  assert (Horigin : match startLocation, map coordsOf appointments with
                    | Some start, _ => Normal start
                    | None, f :: _ => Normal f
                    | None, [] => TypeError
                    end = Normal origin).
  { unfold origin. destruct startLocation; reflexivity. }
  rewrite Horigin. cbn [bind].
  fold allCoords.
  rewrite js_calculateDistanceMatrix_fallback; auto; discriminate.
Qed.


End WholeCallFailureOnAnyNumber.

(** * Part III: the properties on sample data *)

Lemma taxicab_neverNegative : neverNegative Sample.taxicab.
Proof.
  intros a b. unfold Sample.taxicab.
  change 0%Q with (0 + 0)%Q.
  apply Qplus_le_compat; apply Qabs_nonneg.
Qed.

Lemma taxicab_zeroOnItself : zeroOnItself Sample.taxicab.
Proof.
  intros a. unfold Sample.taxicab.
  assert (H : forall x : Q, (Qabs (x - x) == 0)%Q).
  { intros x. setoid_replace (x - x)%Q with 0%Q by ring. reflexivity. }
  rewrite !H. reflexivity.
Qed.

Lemma sample_ids_distinct : NoDup (map id Sample.stops).
Proof.
  repeat constructor; simpl; intuition discriminate.
Qed.

(** The open-path optimizer on the three sample stops: from home the
    nearest stop is a2, then a3, then a1; without a starting location the
    route starts at a1, the first stop of the input. *)
Example sample_open_path :
  OptimizeApi.optimizeRoute Sample.taxicab
    [Sample.a1; Sample.a2; Sample.a3] (Some Sample.home)
  = Normal [Sample.a2; Sample.a3; Sample.a1]
  /\ OptimizeApi.optimizeRoute Sample.taxicab
       [Sample.a1; Sample.a2; Sample.a3] None
     = Normal [Sample.a1; Sample.a2; Sample.a3].
Proof.
  split; vm_compute; reflexivity.
Qed.

(** The three forced-final candidates of the sample and the schedule of the
    one the round-trip optimizer returns. *)
Example sample_round_trip :
  RoundTripApi.optimizeSingleRoute Sample.taxicab
    [Sample.a1; Sample.a2; Sample.a3] Sample.home 0
  = Normal [Sample.a2; Sample.a3; Sample.a1]
  /\ RoundTripApi.optimizeSingleRoute Sample.taxicab
       [Sample.a1; Sample.a2; Sample.a3] Sample.home 1
     = Normal [Sample.a3; Sample.a1; Sample.a2]
  /\ RoundTripApi.optimizeSingleRoute Sample.taxicab
       [Sample.a1; Sample.a2; Sample.a3] Sample.home 2
     = Normal [Sample.a2; Sample.a1; Sample.a3]
  /\ RoundTripApi.arrivalInstants Sample.taxicab
       [Sample.a2; Sample.a3; Sample.a1] Sample.nine 3 (Some Sample.home)
     = [543%Z; 597%Z; 672%Z]
  /\ RoundTripApi.generateAppointmentTimes Sample.taxicab
       [Sample.a2; Sample.a3; Sample.a1] Sample.nine 3 (Some Sample.home)
     = {| RoundTripApi.times := ["09:03 AM"; "09:57 AM"; "11:12 AM"]%string;
          RoundTripApi.returnTime := Some "11:57 AM"%string |}.
Proof.
  repeat split; vm_compute; reflexivity.
Qed.

(** The clock reading drops the day: it starts again after midnight while
    the instant it renders goes on growing. *)
Example clock_reading_wraps :
  toLocaleTimeString 1439%Z = "11:59 PM"%string
  /\ toLocaleTimeString 1440%Z = "12:00 AM"%string.
Proof.
  split; vm_compute; reflexivity.
Qed.

(** On a matrix that lacks cells the client-side construction falls back on
    the first unvisited stop, which may be the forced-final one. *)
Example client_fallback_on_ragged_matrix :
  Client.optimizeSingleRoute [Sample.a1; Sample.a2; Sample.a3]
    (Some [[0]; [0]; [0]; [0]]) Sample.home 0 0
  = Normal [Sample.a1; Sample.a2; Sample.a3].
Proof.
  vm_compute. reflexivity.
Qed.

Lemma sample_durations : Forall (fun a => (0 <= duration a)%Z) Sample.stops.
Proof.
  repeat constructor; cbn; lia.
Qed.

Lemma sample_answer_wellShaped :
  wellShaped Sample.places Sample.places Sample.answer.
Proof.
  split; [reflexivity|].
  repeat constructor; cbn; try discriminate.
Qed.

Lemma POST_patches_failed_cells_witness :
  "key"%string <> ""%string
  /\ Sample.places <> []
  /\ DistanceMatrixApi.Data.status Sample.answer = "OK"%string
  /\ wellShaped Sample.places Sample.places Sample.answer
  /\ exists distanceMatrix,
       fst (DistanceMatrixApi.POST Sample.taxicab true
              (Some {| DistanceMatrixApi.origins := Some Sample.places;
                       DistanceMatrixApi.destinations :=
                         Some Sample.places |})
              (Some "key"%string)
              (DistanceMatrixApi.Answered (Some Sample.answer)))
       = DistanceMatrixApi.Success distanceMatrix
       /\ length distanceMatrix = length Sample.places.
Proof.
  split; [discriminate|].
  split; [discriminate|]. split; [reflexivity|].
  split; [exact sample_answer_wellShaped|].
  destruct (POST_patches_failed_cells Sample.taxicab Sample.places
              Sample.places "key" Sample.answer)
    as [distanceMatrix [Hpost [Hlen _]]].
  - discriminate.
  - discriminate.
  - discriminate.
  - reflexivity.
  - exact sample_answer_wellShaped.
  - exists distanceMatrix. split; [exact Hpost | exact Hlen].
Defined.

Lemma optimizeRoute_starts_at_first_witness :
  neverNegative Sample.taxicab
  /\ zeroOnItself Sample.taxicab
  /\ exists tail,
       OptimizeApi.optimizeRoute Sample.taxicab
         (Sample.a1 :: [Sample.a2; Sample.a3]) None
       = Normal (Sample.a1 :: tail)
       /\ Permutation tail [Sample.a2; Sample.a3].
Proof.
  split; [exact taxicab_neverNegative|].
  split; [exact taxicab_zeroOnItself|].
  apply (optimizeRoute_starts_at_first Sample.taxicab Sample.a1
           [Sample.a2; Sample.a3]).
  - exact taxicab_neverNegative.
  - exact taxicab_zeroOnItself.
Defined.

Lemma calculateTotalDistance_short_route_witness :
  (length [Sample.a1] <= 1)%nat
  /\ OptimizeApi.calculateTotalDistance Sample.taxicab [Sample.a1]
       (Some Sample.home) = 0.
Proof.
  split; [apply Nat.le_refl|].
  apply (calculateTotalDistance_short_route Sample.taxicab [Sample.a1]
           (Some Sample.home)).
  apply Nat.le_refl.
Defined.

(** ** Where a distance is not a number *)

(** The sample distance is never negative where it is a number. *)
Lemma measured_neverNegativeNumber : neverNegativeNumber Sample.measured.
Proof.
  intros a b q. unfold Sample.measured.
  destruct (Sample.antipodal a b); [discriminate|].
  intros H. injection H as <-. apply taxicab_neverNegative.
Qed.

(** The distances the sample function gives among the home and the three
    sample stops are numbers. *)
Lemma measured_numbers :
  numbersAmong (Sample.home :: map coordsOf Sample.stops) Sample.measured
    Sample.taxicab.
Proof.
  intros a b Ha Hb. cbn in Ha, Hb.
  destruct Ha as [<-|[<-|[<-|[<-|[]]]]];
    destruct Hb as [<-|[<-|[<-|[<-|[]]]]]; reflexivity.
Qed.

(** The client-side optimizer on two stops, one of them at the antipode of
    the starting location, when the request for the matrix is rejected:
    the route returned is empty. *)
Example sample_client_returns_no_route :
  Js.Client.optimizeRouteWithDriving Sample.measured
    [Sample.far; Sample.near] (Some Sample.base) Client.Rejected
  = Normal [].
Proof.
  vm_compute. reflexivity.
Qed.

(** The client-side construction on three stops, two of them at the
    antipode of the starting location, with the first stop forced to be
    final: nothing is selected in the first turn and the forced-final stop
    is taken first. *)
Example sample_client_forced_final_comes_first :
  let appointments := [Sample.near; Sample.far; Sample.farther] in
  let allCoords := Sample.base :: map coordsOf appointments in
  nth_error appointments 0 = Some Sample.near
  /\ Js.Client.optimizeSingleRoute appointments
       (Js.Client.calculateDistanceMatrix Sample.measured allCoords
          allCoords Client.Rejected)
       Sample.base 0 0
     = Normal [Sample.near; Sample.far; Sample.farther].
Proof.
  split; vm_compute; reflexivity.
Qed.

Lemma optimizeRoundTripRoute_returns_no_route_witness :
  Sample.measured Sample.base (coordsOf Sample.far) = NaN
  /\ Sample.measured (coordsOf Sample.far) Sample.base = NaN
  /\ Js.RoundTripApi.optimizeRoundTripRoute Sample.measured
       [Sample.far; Sample.near] (Some Sample.base)
     = Normal {| RoundTripApi.route := [];
                 RoundTripApi.totalDistance := Infinity |}
  /\ Js.RoundTripApi.optimizeRoundTripRoute Sample.measured
       [Sample.near; Sample.far] (Some Sample.base)
     = Normal {| RoundTripApi.route := [];
                 RoundTripApi.totalDistance := Infinity |}.
Proof.
  split; [reflexivity|]. split; [reflexivity|].
  apply (optimizeRoundTripRoute_returns_no_route Sample.measured Sample.far
           Sample.near Sample.base); reflexivity.
Defined.

Lemma optimizeSingleRoute_forced_final_comes_first_witness :
  id Sample.far <> id Sample.near
  /\ Sample.measured Sample.base (coordsOf Sample.far) = NaN
  /\ nth_error [Sample.near; Sample.far] 0 = Some Sample.near
  /\ Js.RoundTripApi.optimizeSingleRoute Sample.measured
       [Sample.near; Sample.far] Sample.base 0
     = Normal [Sample.near; Sample.far]
  /\ last [Sample.near; Sample.far] Sample.near = Sample.far
  /\ Sample.far <> Sample.near.
Proof.
  split; [discriminate|]. split; [reflexivity|].
  apply (optimizeSingleRoute_forced_final_comes_first Sample.measured
           Sample.near Sample.far Sample.base).
  - discriminate.
  - reflexivity.
Defined.



(** * Part IV: further properties of the program *)

(** ** The round-trip optimizer returns a permutation *)

Section RoundTripPermutation.

Variable calculateDistance : Coordinates -> Coordinates -> Q.

(** The round-trip optimizer ends normally, with a permutation and a finite
    total. *)
Lemma optimizeRoundTripRoute_runs
  (appointments : list AppointmentData) (startLocation : option Coordinates) :
  exists best total,
    RoundTripApi.optimizeRoundTripRoute calculateDistance appointments
      startLocation = Normal best
    /\ Permutation (RoundTripApi.route best) appointments
    /\ RoundTripApi.totalDistance best = Num total
    /\ forall first second rest,
         appointments = first :: second :: rest ->
         total = RoundTripApi.calculateRoundTripDistance calculateDistance
                   (RoundTripApi.route best)
                   (match startLocation with
                    | Some start => start
                    | None => coordsOf first
                    end).
Proof.
  destruct appointments as [|a [|a' rest]].
  - exists {| RoundTripApi.route := [];
              RoundTripApi.totalDistance := Num 0 |}, 0.
    repeat split; auto.
  - destruct startLocation as [start|]; eexists; eexists;
      (split; [reflexivity|]); (split; [apply Permutation_refl|]);
      (split; [reflexivity|]); intros ? ? ? H; discriminate H.
  - set (l := a :: a' :: rest).
    set (origin := match startLocation with
                   | Some start => start
                   | None => coordsOf a
                   end).
    destruct (forLoop_tryEnding calculateDistance l origin (length l) 0
                {| RoundTripApi.bestRoute := [];
                   RoundTripApi.bestTotalDistance := Infinity |})
      as [b [Hrun Hbest]]; [simpl; lia | left; repeat split |].
    assert (Hopt : RoundTripApi.optimizeRoundTripRoute calculateDistance l
                     startLocation
                   = Normal {| RoundTripApi.route := RoundTripApi.bestRoute b;
                               RoundTripApi.totalDistance :=
                                 RoundTripApi.bestTotalDistance b |}).
    { unfold RoundTripApi.optimizeRoundTripRoute.
      change (length l <=? 1)%nat with false. cbv iota.
      assert (Horigin : match startLocation, l with
                        | Some start, _ => Normal start
                        | None, first :: _ => Normal (coordsOf first)
                        | None, [] => TypeError
                        end = Normal origin).
      { unfold origin, l. now destruct startLocation. }
      rewrite Horigin. cbn [bind]. rewrite Hrun. reflexivity. }
    destruct Hbest as [[_ [Hm0 _]]|[k [Hk [Hck [Hbk _]]]]];
      [simpl in Hm0; discriminate|].
    exists {| RoundTripApi.route := RoundTripApi.bestRoute b;
              RoundTripApi.totalDistance :=
                RoundTripApi.bestTotalDistance b |},
      (RoundTripApi.calculateRoundTripDistance calculateDistance
         (RoundTripApi.bestRoute b) origin).
    cbn [RoundTripApi.route RoundTripApi.totalDistance].
    split; [exact Hopt|]. split; [|split].
    + destruct (optimizeSingleRoute_total calculateDistance l origin k Hk)
        as [cand [Hcand Hperm]].
      rewrite Hck in Hcand. injection Hcand as <-. exact Hperm.
    + exact Hbk.
    + intros first second rest' Heq. unfold l in Heq.
      injection Heq as <- _ _. reflexivity.
Qed.

(** The open-path optimizer ends normally, with a permutation. *)
Lemma optimizeRoute_runs (appointments : list AppointmentData)
  (startLocation : option Coordinates) :
  exists route,
    OptimizeApi.optimizeRoute calculateDistance appointments startLocation
    = Normal route
    /\ Permutation route appointments.
Proof.
  unfold OptimizeApi.optimizeRoute.
  destruct (length appointments <=? 1)%nat eqn:Hshort.
  - exists appointments. split; [reflexivity | apply Permutation_refl].
  - apply Nat.leb_gt in Hshort.
    destruct appointments as [|first rest]; [simpl in Hshort; lia|].
    set (current := match startLocation with
                    | Some start => start
                    | None => coordsOf first
                    end).
    destruct (whileUnvisited_visits_all calculateDistance
                (length (first :: rest)) (first :: rest) [] current
                (Nat.le_refl _)) as [tail [Hrun Hperm]].
    exists tail. split; [|exact Hperm].
    destruct startLocation; exact Hrun.
Qed.

End RoundTripPermutation.

(** ** Nearest-neighbour selection *)

Section Greedy.

Variable calculateDistance : Coordinates -> Coordinates -> Q.

Local Abbreviation nearer := (OptimizeApi.nearer calculateDistance).
Local Abbreviation whileUnvisited := (OptimizeApi.whileUnvisited calculateDistance).
Local Abbreviation optimizeRoute := (OptimizeApi.optimizeRoute calculateDistance).

Lemma nth_error_snoc_last {A : Type} (l : list A) (x : A) :
  nth_error (l ++ [x]) (length l) = Some x.
Proof.
  rewrite nth_error_app2 by lia. now rewrite Nat.sub_diag.
Qed.

Lemma nth_error_snoc_cases {A : Type} (l : list A) (x y : A) (j : nat) :
  nth_error (l ++ [x]) j = Some y ->
  ((j < length l)%nat /\ nth_error l j = Some y)
  \/ (j = length l /\ y = x).
Proof.
  intros H. destruct (Nat.lt_ge_cases j (length l)) as [Hlt|Hge].
  - left. split; auto. now rewrite nth_error_app1 in H.
  - right. rewrite nth_error_app2 in H by lia.
    destruct (j - length l)%nat as [|k] eqn:E.
    + simpl in H. injection H as <-. split; auto. lia.
    + simpl in H. destruct k; discriminate H.
Qed.

(** A pass over [suffix] that continues a pass over [prefix] ends on the
    first nearest stop of the whole. *)
Lemma nearer_first_nearest (current : Coordinates)
  (suffix : list AppointmentData) :
  forall (prefix : list AppointmentData) (n : Nearest),
    (prefix = [] /\ nearestDistance n = Infinity)
    \/ firstNearest calculateDistance (fun _ => true) current prefix n ->
    suffix <> [] ->
    firstNearest calculateDistance (fun _ => true) current
      (prefix ++ suffix)
      (forEach (nearer current) suffix (length prefix) n).
Proof.
  induction suffix as [|x suffix IH]; intros prefix n Hn Hne; [congruence|].
  cbn [forEach].
  assert (Hstep : firstNearest calculateDistance (fun _ => true) current
                    (prefix ++ [x]) (nearer current n x (length prefix))).
  { unfold OptimizeApi.nearer.
    destruct Hn as [[-> Hinf]|[m [Hm [_ [Hd Hmin]]]]].
    - rewrite Hinf. cbn [lessThan]. exists x. cbn.
      repeat split; auto.
      + destruct j as [|[|j]]; simpl in H; try discriminate.
        injection H as <-. apply Qle_refl.
      + intros Hj. lia.
    - rewrite Hd. cbn [lessThan].
      destruct (Qltb (calculateDistance current (coordsOf x))
                  (calculateDistance current (coordsOf m))) eqn:Hlt.
      + apply Qltb_true in Hlt. exists x.
        cbn [nearestIndex nearestDistance].
        split; [apply nth_error_snoc_last|]. repeat split; auto.
        * destruct (nth_error_snoc_cases _ _ _ _ H) as [[Hj Hy]|[Hj ->]].
          -- apply Qlt_le_weak. eapply Qlt_le_trans; [exact Hlt|].
             now apply (Hmin j y).
          -- apply Qle_refl.
        * intros Hj.
          destruct (nth_error_snoc_cases _ _ _ _ H) as [[_ Hy]|[Hj' _]];
            [|lia].
          eapply Qlt_le_trans; [exact Hlt|]. now apply (Hmin j y).
      + apply Qltb_false in Hlt. exists m.
        assert (Hidx : (nearestIndex n < length prefix)%nat).
        { apply nth_error_Some. congruence. }
        split; [rewrite nth_error_app1 by exact Hidx; exact Hm|].
        repeat split; auto.
        * destruct (nth_error_snoc_cases _ _ _ _ H) as [[Hj Hy]|[Hj ->]].
          -- now apply (Hmin j y).
          -- exact Hlt.
        * intros Hj.
          destruct (nth_error_snoc_cases _ _ _ _ H) as [[_ Hy]|[Hj' _]];
            [|lia].
          now apply (Hmin j y). }
  destruct suffix as [|x' suffix].
  - exact Hstep.
  - specialize (IH (prefix ++ [x]) (nearer current n x (length prefix))
                  (or_intror Hstep)).
    rewrite length_app, Nat.add_1_r in IH.
    rewrite <- app_assoc in IH. apply IH. discriminate.
Qed.

(** The loop builds a greedy route. *)
Lemma whileUnvisited_greedy (turns : nat) :
  forall (unvisited route : list AppointmentData) (current : Coordinates),
    (length unvisited <= turns)%nat ->
    exists tail,
      whileUnvisited turns unvisited route current = Normal (route ++ tail)
      /\ Permutation tail unvisited
      /\ greedy calculateDistance current tail.
Proof.
  induction turns as [|turns IH]; intros unvisited route current Hlen.
  - destruct unvisited; [|simpl in Hlen; lia].
    exists []. simpl. rewrite app_nil_r. repeat split; auto.
  - destruct unvisited as [|u rest].
    + exists []. simpl. rewrite app_nil_r. repeat split; auto.
    + remember (u :: rest) as l eqn:El.
      assert (Hne : l <> []) by (subst; discriminate).
      pose proof (nearer_first_nearest current l [] noneYet
                    (or_introl (conj eq_refl eq_refl)) Hne) as Hfirst.
      cbn [app length] in Hfirst.
      destruct Hfirst as [x [Hx [_ [_ Hmin]]]].
      rewrite (whileUnvisited_turn calculateDistance turns l route current x
                 Hne Hx).
      pose proof (removeAt_length _ _ _ Hx) as Hl.
      pose proof (removeAt_perm _ _ _ Hx) as Hperm.
      set (i := nearestIndex (forEach (nearer current) l 0 noneYet)) in *.
      destruct (IH (removeAt i l) (route ++ [x]) (coordsOf x))
        as [tail [Ht [Hp Hg]]]; [lia|].
      exists (x :: tail). split; [|split].
      * rewrite Ht. now rewrite <- app_assoc.
      * rewrite Hp. exact Hperm.
      * split; [|exact Hg].
        apply Forall_forall. intros y Hy.
        assert (Hyl : In y l).
        { apply (Permutation_in y Hperm). right.
          now apply (Permutation_in y Hp). }
        destruct (In_nth_error _ _ Hyl) as [j Hj].
        now apply (Hmin j y).
Qed.

(** The open-path optimizer is greedy: on two stops or more, every stop of
    the returned route is, among the stops that come at or after it, one
    nearest to the place the route is at when the stop is chosen (the
    starting location, or the first appointment's place when none is given,
    then the stop chosen before). *)
Theorem optimizeRoute_greedy (first second : AppointmentData)
  (rest : list AppointmentData) (startLocation : option Coordinates) :
  exists route,
    optimizeRoute (first :: second :: rest) startLocation = Normal route
    /\ greedy calculateDistance
         (match startLocation with
          | Some start => start
          | None => coordsOf first
          end) route.
Proof.
  set (l := first :: second :: rest).
  set (current := match startLocation with
                  | Some start => start
                  | None => coordsOf first
                  end).
  destruct (whileUnvisited_greedy (length l) l [] current (Nat.le_refl _))
    as [route [Hrun [_ Hg]]].
  exists route. split; [|exact Hg].
  unfold OptimizeApi.optimizeRoute.
  change (length l <=? 1)%nat with false. cbv iota.
  unfold l at 1. destruct startLocation; exact Hrun.
Qed.

(** With a starting location and two stops or more, the first stop of the
    route is the first appointment, in input order, among those nearest to
    the starting location: no appointment is nearer, and every appointment
    before it in the input is strictly farther. *)
Theorem optimizeRoute_first_stop (first second : AppointmentData)
  (rest : list AppointmentData) (start : Coordinates) :
  exists i chosen tail,
    optimizeRoute (first :: second :: rest) (Some start)
    = Normal (chosen :: tail)
    /\ nth_error (first :: second :: rest) i = Some chosen
    /\ forall j y,
         nth_error (first :: second :: rest) j = Some y ->
         (calculateDistance start (coordsOf chosen)
          <= calculateDistance start (coordsOf y))%Q
         /\ ((j < i)%nat ->
             (calculateDistance start (coordsOf chosen)
              < calculateDistance start (coordsOf y))%Q).
Proof.
  set (l := first :: second :: rest).
  assert (Hne : l <> []) by discriminate.
  pose proof (nearer_first_nearest start l [] noneYet
                (or_introl (conj eq_refl eq_refl)) Hne) as Hfirst.
  cbn [app length] in Hfirst.
  destruct Hfirst as [x [Hx [_ [_ Hmin]]]].
  set (i := nearestIndex (forEach (nearer start) l 0 noneYet)) in *.
  pose proof (removeAt_length _ _ _ Hx) as Hl.
  destruct (whileUnvisited_visits_all calculateDistance
              (length (second :: rest)) (removeAt i l) [x] (coordsOf x))
    as [tail [Hrun _]].
  { simpl length in *. lia. }
  exists i, x, tail. split; [|split].
  - unfold OptimizeApi.optimizeRoute.
    change (length l <=? 1)%nat with false. cbv iota. cbn [bind].
    change (length l) with (S (length (second :: rest))).
    rewrite (whileUnvisited_turn calculateDistance _ l [] start x Hne Hx).
    exact Hrun.
  - exact Hx.
  - intros j y Hj. now apply (Hmin j y).
Qed.

End Greedy.

(** ** Nearest-neighbour selection with a forced-final stop *)

Section ConstrainedGreedy.

Variable calculateDistance : Coordinates -> Coordinates -> Q.

Local Abbreviation nearerExcept := (RoundTripApi.nearerExcept calculateDistance).
Local Abbreviation whileUnvisited :=
  (RoundTripApi.whileUnvisited calculateDistance).
Local Abbreviation optimizeSingleRoute :=
  (RoundTripApi.optimizeSingleRoute calculateDistance).

(** A pass that skips the target ends on the first nearest stop among the
    others, if there is one, and leaves the selection alone if not. *)
Lemma nearerExcept_first_nearest (len : nat) (target : AppointmentData)
  (current : Coordinates) (suffix : list AppointmentData) :
  (2 <= len)%nat ->
  forall (prefix : list AppointmentData) (n : Nearest),
    ((forall y, In y prefix -> id y = id target)
     /\ nearestDistance n = Infinity)
    \/ firstNearest calculateDistance
         (fun y => negb (String.eqb (id y) (id target))) current prefix n ->
    exists n',
      forEachC (nearerExcept len (Some target) current) suffix
        (length prefix) n = Normal n'
      /\ (((forall y, In y (prefix ++ suffix) -> id y = id target)
           /\ n' = n)
          \/ firstNearest calculateDistance
               (fun y => negb (String.eqb (id y) (id target))) current
               (prefix ++ suffix) n').
Proof.
  intros Hlen. induction suffix as [|x suffix IH]; intros prefix n Hn.
  - exists n. split; [reflexivity|]. rewrite app_nil_r.
    destruct Hn as [[Hall Hinf]|Hn]; [left; now split | now right].
  - cbn [forEachC]. unfold RoundTripApi.nearerExcept at 1.
    assert (Hl : (1 <? len)%nat = true) by (apply Nat.ltb_lt; lia).
    rewrite Hl. cbn [bind].
    assert (Hnext : forall n1,
               ((forall y, In y (prefix ++ [x]) -> id y = id target)
                /\ nearestDistance n1 = Infinity /\ n1 = n)
               \/ firstNearest calculateDistance
                    (fun y => negb (String.eqb (id y) (id target))) current
                    (prefix ++ [x]) n1 ->
               exists n',
                 forEachC (nearerExcept len (Some target) current) suffix
                   (S (length prefix)) n1 = Normal n'
                 /\ (((forall y, In y (prefix ++ x :: suffix) ->
                                 id y = id target) /\ n' = n)
                     \/ firstNearest calculateDistance
                          (fun y => negb (String.eqb (id y) (id target)))
                          current (prefix ++ x :: suffix) n')).
    { intros n1 Hn1.
      destruct (IH (prefix ++ [x]) n1) as [n' [Hrun Hn']].
      { destruct Hn1 as [[Hall [Hinf _]]|Hf]; [left; now split | now right]. }
      rewrite length_app, Nat.add_1_r in Hrun.
      rewrite <- app_assoc in Hn'. cbn [app] in Hn'.
      exists n'. split; [exact Hrun|].
      destruct Hn' as [[Hall ->]|Hf]; [|now right].
      destruct Hn1 as [[_ [_ ->]]|Hf1]; [left; now split|].
      exfalso. destruct Hf1 as [m [Hm [Hcount _]]].
      apply nth_error_In in Hm.
      assert (Hin : In m (prefix ++ x :: suffix)).
      { apply in_app_or in Hm. apply in_or_app.
        destruct Hm as [Hm|[<-|[]]]; [now left | right; now left]. }
      apply Hall in Hin. apply negb_true_iff in Hcount.
      apply String.eqb_neq in Hcount. contradiction. }
    destruct (String.eqb (id x) (id target)) eqn:Hid.
    + apply Hnext.
      destruct Hn as [[Hall Hinf]|[m [Hm [Hcount [Hd Hmin]]]]].
      * left. repeat split; auto. intros y Hy.
        apply in_app_or in Hy. destruct Hy as [Hy|[<-|[]]]; auto.
        now apply String.eqb_eq.
      * right. exists m.
        assert (Hidx : (nearestIndex n < length prefix)%nat).
        { apply nth_error_Some. congruence. }
        split; [rewrite nth_error_app1 by exact Hidx; exact Hm|].
        repeat split; auto.
        -- destruct (nth_error_snoc_cases _ _ _ _ H) as [[Hj Hy]|[Hj ->]].
           ++ now apply (Hmin j y).
           ++ rewrite Hid in H0. discriminate H0.
        -- intros Hj.
           destruct (nth_error_snoc_cases _ _ _ _ H) as [[_ Hy]|[Hj' _]];
             [|lia].
           now apply (Hmin j y).
    + assert (Hcx : negb (String.eqb (id x) (id target)) = true)
        by now rewrite Hid.
      destruct Hn as [[Hall Hinf]|[m [Hm [Hcount [Hd Hmin]]]]].
      * rewrite Hinf. cbn [lessThan]. apply Hnext. right. exists x.
        cbn [nearestIndex nearestDistance].
        split; [apply nth_error_snoc_last|]. repeat split; auto.
        -- destruct (nth_error_snoc_cases _ _ _ _ H) as [[Hj Hy]|[Hj ->]].
           ++ apply nth_error_In in Hy. apply Hall in Hy.
              apply negb_true_iff in H0. apply String.eqb_neq in H0.
              contradiction.
           ++ apply Qle_refl.
        -- intros Hj.
           destruct (nth_error_snoc_cases _ _ _ _ H) as [[_ Hy]|[Hj' _]];
             [|lia].
           apply nth_error_In in Hy. apply Hall in Hy.
           apply negb_true_iff in H0. apply String.eqb_neq in H0.
           contradiction.
      * rewrite Hd. cbn [lessThan].
        destruct (Qltb (calculateDistance current (coordsOf x))
                    (calculateDistance current (coordsOf m))) eqn:Hlt.
        -- apply Qltb_true in Hlt. apply Hnext. right. exists x.
           cbn [nearestIndex nearestDistance].
           split; [apply nth_error_snoc_last|]. repeat split; auto.
           ++ destruct (nth_error_snoc_cases _ _ _ _ H) as [[Hj Hy]|[Hj ->]].
              ** apply Qlt_le_weak. eapply Qlt_le_trans; [exact Hlt|].
                 now apply (Hmin j y).
              ** apply Qle_refl.
           ++ intros Hj.
              destruct (nth_error_snoc_cases _ _ _ _ H) as [[_ Hy]|[Hj' _]];
                [|lia].
              eapply Qlt_le_trans; [exact Hlt|]. now apply (Hmin j y).
        -- apply Qltb_false in Hlt. apply Hnext. right. exists m.
           assert (Hidx : (nearestIndex n < length prefix)%nat).
           { apply nth_error_Some. congruence. }
           split; [rewrite nth_error_app1 by exact Hidx; exact Hm|].
           repeat split; auto.
           ++ destruct (nth_error_snoc_cases _ _ _ _ H) as [[Hj Hy]|[Hj ->]].
              ** now apply (Hmin j y).
              ** exact Hlt.
           ++ intros Hj.
              destruct (nth_error_snoc_cases _ _ _ _ H) as [[_ Hy]|[Hj' _]];
                [|lia].
              now apply (Hmin j y).
Qed.

(** With pairwise-distinct ids the constrained loop is greedy on the stops
    other than the target and keeps the target for the end. *)
Lemma constrained_greedy (target : AppointmentData) (turns : nat) :
  forall (unvisited route : list AppointmentData) (current : Coordinates),
    (length unvisited <= turns)%nat ->
    NoDup (map id unvisited) ->
    In target unvisited ->
    exists front,
      whileUnvisited turns (Some target) unvisited route current
      = Normal (route ++ front ++ [target])
      /\ Permutation (front ++ [target]) unvisited
      /\ greedy calculateDistance current front.
Proof.
  induction turns as [|turns IH];
    intros unvisited route current Hlen Hnodup Hin.
  - destruct unvisited; [destruct Hin | simpl in Hlen; lia].
  - destruct unvisited as [|a [|b rest]].
    + destruct Hin.
    + destruct Hin as [->|[]]. exists []. repeat split; auto.
    + remember (a :: b :: rest) as l eqn:El.
      assert (Hl : (2 <= length l)%nat) by (subst; simpl; lia).
      rewrite (constrained_turn calculateDistance turns (Some target) l
                 route current Hl).
      destruct (nearerExcept_first_nearest (length l) target current l Hl
                  [] noneYet) as [n [Hrun Hsel]].
      { left. split; [intros y [] | reflexivity]. }
      cbn [app length] in Hrun, Hsel.
      assert (Hother : exists y, In y l /\ id y <> id target).
      { destruct (String.eqb (id a) (id target)) eqn:Ha.
        - apply String.eqb_eq in Ha. exists b. split.
          + subst l. simpl. auto.
          + intros Hb. subst l. simpl in Hnodup.
            inversion Hnodup as [|? ? Hnot _]. apply Hnot.
            left. congruence.
        - apply String.eqb_neq in Ha. exists a. split; auto.
          subst l. simpl. auto. }
      destruct Hsel as [[Hall _]|[x [Hx [Hcount [_ Hmin]]]]].
      { exfalso. destruct Hother as [y [Hy Hne]]. now apply Hne, Hall. }
      apply negb_true_iff in Hcount. apply String.eqb_neq in Hcount.
      rewrite Hrun. cbn [bind]. rewrite Hx.
      pose proof (removeAt_length _ _ _ Hx) as Hrem.
      pose proof (removeAt_perm _ _ _ Hx) as Hperm.
      assert (Hnodup' : NoDup (map id (removeAt (nearestIndex n) l))).
      { assert (Hp : Permutation (map id (x :: removeAt (nearestIndex n) l))
                       (map id l)) by now apply Permutation_map.
        apply Permutation_sym in Hp.
        pose proof (Permutation_NoDup Hp Hnodup) as Hnd.
        now inversion Hnd. }
      assert (Hin' : In target (removeAt (nearestIndex n) l)).
      { apply Permutation_sym in Hperm.
        pose proof (Permutation_in _ Hperm Hin) as [Heq|Hi]; auto.
        congruence. }
      destruct (IH (removeAt (nearestIndex n) l) (route ++ [x]) (coordsOf x))
        as [front [Ht [Hp Hg]]]; [lia | auto | auto |].
      exists (x :: front). split; [|split].
      * rewrite Ht. now rewrite <- app_assoc.
      * simpl. rewrite Hp. exact Hperm.
      * split; [|exact Hg].
        apply Forall_forall. intros y Hy.
        assert (Hyr : In y (removeAt (nearestIndex n) l)).
        { apply (Permutation_in y Hp). apply in_or_app. now left. }
        assert (Hyl : In y l).
        { apply (Permutation_in y Hperm). now right. }
        assert (Hyt : id y <> id target).
        { assert (Hpm : Permutation (map id (front ++ [target]))
                          (map id (removeAt (nearestIndex n) l)))
            by now apply Permutation_map.
          apply Permutation_sym in Hpm.
          pose proof (Permutation_NoDup Hpm Hnodup') as Hnd.
          rewrite map_app in Hnd. simpl in Hnd.
          apply NoDup_remove_2 in Hnd. rewrite app_nil_r in Hnd.
          intros Heq. apply Hnd. rewrite <- Heq. now apply in_map. }
        destruct (In_nth_error _ _ Hyl) as [j Hj].
        apply (Hmin j y Hj).
        apply negb_true_iff. now apply String.eqb_neq.
Qed.

(** Where every distance is a rational number: for appointments with
    pairwise-distinct ids, the constrained construction is greedy on every
    stop but the forced-final one. *)
Lemma optimizeSingleRoute_greedy (appointments : list AppointmentData)
  (origin : Coordinates) (k : nat) (target : AppointmentData) :
  NoDup (map id appointments) ->
  nth_error appointments k = Some target ->
  exists front,
    optimizeSingleRoute appointments origin k = Normal (front ++ [target])
    /\ greedy calculateDistance origin front.
Proof.
  intros Hnodup Hk. unfold RoundTripApi.optimizeSingleRoute. rewrite Hk.
  destruct (constrained_greedy target (length appointments) appointments []
              origin (Nat.le_refl _) Hnodup (nth_error_In _ _ Hk))
    as [front [Hrun [_ Hg]]].
  exists front. split; [exact Hrun | exact Hg].
Qed.

(** The two sums over the legs of a route are the same function. *)
Lemma addLegs_same (route : list AppointmentData) :
  forall (totalDistance : Q),
    RoundTripApi.addLegs calculateDistance route totalDistance
    = OptimizeApi.addLegs calculateDistance route totalDistance.
Proof.
  induction route as [|a route IH]; intros t; [reflexivity|].
  destruct route as [|b route]; [reflexivity|].
  cbn [RoundTripApi.addLegs OptimizeApi.addLegs]. apply IH.
Qed.

(** For a route of two stops or more the round-trip distance is the
    open-path total distance from the same origin plus the leg from the
    last stop back to the origin. *)
Theorem roundTrip_is_openPath_plus_return (first second : AppointmentData)
  (rest : list AppointmentData) (origin : Coordinates) :
  let route := first :: second :: rest in
  RoundTripApi.calculateRoundTripDistance calculateDistance route origin
  = (OptimizeApi.calculateTotalDistance calculateDistance route (Some origin)
     + calculateDistance (coordsOf (last route first)) origin)%Q.
Proof.
  intros route. unfold RoundTripApi.calculateRoundTripDistance,
    OptimizeApi.calculateTotalDistance, route.
  change (length (first :: second :: rest) <=? 1)%nat with false.
  cbv iota zeta. now rewrite addLegs_same.
Qed.

End ConstrainedGreedy.

(** ** The handlers of the two optimize routes *)

Lemma mapi_map {A B C : Type} (f : A -> nat -> B) (g : B -> C) (l : list A) :
  forall (index : nat),
    map g (mapi f l index) = mapi (fun x i => g (f x i)) l index.
Proof.
  induction l as [|x l IH]; intros index; simpl; [reflexivity|].
  now rewrite IH.
Qed.

Lemma mapi_first {A B : Type} (f : A -> nat -> B) (g : B -> A) (l : list A) :
  (forall x i, g (f x i) = x) ->
  forall (index : nat), map g (mapi f l index) = l.
Proof.
  intros Hg. induction l as [|x l IH]; intros index; simpl; [reflexivity|].
  now rewrite Hg, IH.
Qed.

Lemma mapi_order {A B : Type} (f : A -> nat -> B) (g : B -> nat) (l : list A) :
  (forall x i, g (f x i) = (i + 1)%nat) ->
  forall (index : nat), map g (mapi f l index) = seq (S index) (length l).
Proof.
  intros Hg. induction l as [|x l IH]; intros index; simpl; [reflexivity|].
  rewrite Hg, IH. f_equal. lia.
Qed.

Lemma mapi_Forall {A B : Type} (f : A -> nat -> B) (P : B -> Prop)
  (l : list A) :
  forall (index : nat),
    (forall k x, nth_error l k = Some x -> P (f x (index + k)%nat)) ->
    Forall P (mapi f l index).
Proof.
  induction l as [|x l IH]; intros index H; simpl; constructor.
  - specialize (H 0%nat x eq_refl). now rewrite Nat.add_0_r in H.
  - apply IH. intros k y Hk. specialize (H (S k) y Hk).
    now rewrite Nat.add_succ_comm.
Qed.

(** The sum of the durations, as the handler folds it. *)
Lemma fold_durations_from (l : list AppointmentData) :
  forall (sum : Z),
    fold_left (fun sum apt => (sum + duration apt)%Z) l sum
    = (sum + fold_left (fun sum apt => (sum + duration apt)%Z) l 0)%Z.
Proof.
  induction l as [|a l IH]; intros sum; cbn [fold_left].
  - lia.
  - rewrite IH. rewrite (IH (0 + duration a)%Z). lia.
Qed.

Lemma fold_durations_perm (l l' : list AppointmentData) :
  Permutation l l' ->
  fold_left (fun sum apt => (sum + duration apt)%Z) l 0%Z
  = fold_left (fun sum apt => (sum + duration apt)%Z) l' 0%Z.
Proof.
  induction 1 as [|x l l' _ IH|x y l|l l' l'' _ IH1 _ IH2];
    cbn [fold_left].
  - reflexivity.
  - rewrite (fold_durations_from l), (fold_durations_from l'). now rewrite IH.
  - rewrite (fold_durations_from l (0 + duration y + duration x)),
      (fold_durations_from l (0 + duration x + duration y)). lia.
  - now rewrite IH1.
Qed.

Section HandlerFacts.

Variable calculateDistance : Coordinates -> Coordinates -> Q.

(** The walks record one instant per stop. *)
Lemma roundTrip_walk_length (travelTimePerMile : Q)
  (origin : option Coordinates) (rest : list AppointmentData) :
  forall (previous : option AppointmentData) (currentTime : Date)
         (arrivals : list Date),
    length (fst (RoundTripApi.walk calculateDistance travelTimePerMile origin
                   previous rest currentTime arrivals))
    = (length arrivals + length rest)%nat.
Proof.
  induction rest as [|a rest IH]; intros previous currentTime arrivals.
  - simpl. lia.
  - cbn [RoundTripApi.walk]. rewrite IH. rewrite length_app. simpl. lia.
Qed.

Lemma openPath_walk_length (travelTimePerMile : Q)
  (rest : list AppointmentData) :
  forall (previous : option AppointmentData) (currentTime : Date)
         (arrivals : list Date),
    length (fst (OptimizeApi.walk calculateDistance travelTimePerMile
                   previous rest currentTime arrivals))
    = (length arrivals + length rest)%nat.
Proof.
  induction rest as [|a rest IH]; intros previous currentTime arrivals.
  - simpl. lia.
  - cbn [OptimizeApi.walk]. rewrite IH. rewrite length_app. simpl. lia.
Qed.

Lemma roundTrip_times_length (route : list AppointmentData)
  (startTime : TimeOfDay) (travelTimePerMile : Q)
  (origin : option Coordinates) :
  length (RoundTripApi.times
            (RoundTripApi.generateAppointmentTimes calculateDistance route
               startTime travelTimePerMile origin))
  = length route.
Proof.
  unfold RoundTripApi.generateAppointmentTimes.
  pose proof (roundTrip_walk_length travelTimePerMile origin route None
                (newDate startTime) []) as H.
  destruct (RoundTripApi.walk calculateDistance travelTimePerMile origin None
              route (newDate startTime) []) as [arrivals finalTime].
  cbn [fst RoundTripApi.times] in *. now rewrite length_map.
Qed.

Lemma roundTrip_returnTime (route : list AppointmentData)
  (startTime : TimeOfDay) (travelTimePerMile : Q)
  (origin : option Coordinates) :
  route <> [] ->
  (RoundTripApi.returnTime
     (RoundTripApi.generateAppointmentTimes calculateDistance route
        startTime travelTimePerMile origin) = None
   <-> origin = None).
Proof.
  intros Hne. unfold RoundTripApi.generateAppointmentTimes.
  destruct (RoundTripApi.walk calculateDistance travelTimePerMile origin None
              route (newDate startTime) []) as [arrivals finalTime].
  destruct route as [|first rest]; [congruence|].
  destruct origin as [start|]; cbn [RoundTripApi.returnTime];
    split; intros H; try discriminate H; reflexivity.
Qed.

End HandlerFacts.

Lemma truthy_zero (x : Q) : (x == 0)%Q -> truthy x = false.
Proof.
  intros H. unfold truthy. apply negb_false_iff. now apply Qeq_bool_iff.
Qed.

Section OptimizeHandlerFacts.

Variable calculateDistance : Coordinates -> Coordinates -> Q.

Local Abbreviation POST := (OptimizeHandler.POST calculateDistance).

(** A starting location whose latitude or longitude is zero is not used:
    the handler answers, and calls the store, exactly as it does for the
    same request without a starting location. *)
Theorem optimize_POST_ignores_zero_start (session : option string)
  (req : OptimizeHandler.Request) (given : Coordinates)
  (stored : list AppointmentData) :
  OptimizeHandler.startingLocation req = Some given ->
  (lat given == 0 \/ lng given == 0)%Q ->
  POST session (Some req) stored
  = POST session
      (Some {| OptimizeHandler.startTime := OptimizeHandler.startTime req;
               OptimizeHandler.startingLocation := None |})
      stored.
Proof.
  intros Hgiven Hzero.
  assert (Hstart : OptimizeHandler.startCoordsOf
                     (OptimizeHandler.startingLocation req) = None).
  { rewrite Hgiven. unfold OptimizeHandler.startCoordsOf.
    destruct Hzero as [H|H]; rewrite (truthy_zero _ H);
      [reflexivity | now rewrite andb_false_r]. }
  unfold OptimizeHandler.POST.
  cbn [OptimizeHandler.startTime OptimizeHandler.startingLocation].
  rewrite Hstart. reflexivity.
Qed.

(** For a signed-in user with at least one appointment the handler answers
    200 with every stored appointment once, numbered 1, 2, ... in route
    order and each with a suggested time; the route is the open-path route
    from the starting location it kept, the total distance is the open-path
    total of that route and the travel time is that total at three minutes
    per mile, rounded up; its calls to the store are the first read, one
    update per appointment carrying the order and the time it reports for
    it, and the final read. *)
Theorem optimize_POST_success (userId : string)
  (req : OptimizeHandler.Request) (stored : list AppointmentData) :
  userId <> ""%string ->
  stored <> [] ->
  exists result route,
    fst (POST (Some userId) (Some req) stored)
    = {| OptimizeHandler.Reply.body := OptimizeHandler.Reply.Success result;
         OptimizeHandler.Reply.status := 200 |}
    /\ OptimizeApi.optimizeRoute calculateDistance stored
         (OptimizeHandler.startCoordsOf
            (OptimizeHandler.startingLocation req)) = Normal route
    /\ map OptimizeHandler.Reply.appointment
         (OptimizeHandler.Reply.optimizedRoute result) = route
    /\ Permutation route stored
    /\ map OptimizeHandler.Reply.optimizedOrder
         (OptimizeHandler.Reply.optimizedRoute result)
       = seq 1 (length stored)
    /\ Forall (fun s => OptimizeHandler.Reply.suggestedTime s <> None)
         (OptimizeHandler.Reply.optimizedRoute result)
    /\ OptimizeHandler.Reply.totalDistance result
       = OptimizeApi.calculateTotalDistance calculateDistance route
           (OptimizeHandler.startCoordsOf
              (OptimizeHandler.startingLocation req))
    /\ OptimizeHandler.Reply.totalTravelTime result
       = Qceiling (OptimizeHandler.Reply.totalDistance result * 3)
    /\ snd (POST (Some userId) (Some req) stored)
       = PrismaFindMany userId "createdAt"
         :: map (fun s =>
                   PrismaUpdate (id (OptimizeHandler.Reply.appointment s))
                     (OptimizeHandler.Reply.optimizedOrder s)
                     (OptimizeHandler.Reply.suggestedTime s))
              (OptimizeHandler.Reply.optimizedRoute result)
         ++ [PrismaFindMany userId "optimizedOrder"].
Proof.
  intros Huser Hne.
  destruct (optimizeRoute_runs calculateDistance stored
              (OptimizeHandler.startCoordsOf
                 (OptimizeHandler.startingLocation req)))
    as [route [Hopt Hperm]].
  pose proof (Permutation_length Hperm) as Hlength.
  unfold OptimizeHandler.POST.
  assert (Hid : String.eqb userId "" = false) by now apply String.eqb_neq.
  assert (Hlen : (length stored =? 0)%nat = false).
  { destruct stored; [congruence | reflexivity]. }
  rewrite Hid, Hlen, Hopt. cbv zeta. cbn [fst snd].
  eexists. exists route. split; [reflexivity|].
  cbn [OptimizeHandler.Reply.optimizedRoute
         OptimizeHandler.Reply.totalDistance
         OptimizeHandler.Reply.totalTravelTime].
  split; [reflexivity|].
  split; [now rewrite mapi_first by reflexivity|].
  split; [exact Hperm|].
  split; [rewrite mapi_order by reflexivity; now rewrite Hlength|].
  split; [|split; [reflexivity|split; [reflexivity|]]].
  - apply mapi_Forall. intros k x Hk. cbn.
    intros Hnone. apply nth_error_None in Hnone.
    unfold OptimizeApi.generateAppointmentTimes, OptimizeApi.arrivalInstants
      in Hnone.
    rewrite length_map, openPath_walk_length in Hnone. simpl in Hnone.
    assert (k < length route)%nat by (apply nth_error_Some; congruence).
    lia.
  - cbn [app]. f_equal. f_equal. now rewrite mapi_map.
Qed.

End OptimizeHandlerFacts.

(** ** The distance route *)

Section DistanceApiFacts.

Variable haversine : Coordinates -> Coordinates -> Q.

Local Abbreviation POST := (DistanceApi.POST haversine).

(** What is read from the provider, or computed in its place, is always a
    distance and a duration. *)
Lemma distance_POST_answer_values (origin destination : Coordinates)
  (provider : DistanceApi.Provider) :
  exists distance duration,
    DistanceApi.fromProvider haversine origin destination provider
    = DistanceApi.Success distance duration.
Proof.
  unfold DistanceApi.fromProvider, DistanceApi.fallback.
  destruct provider as [|[data|]]; try (eexists; eexists; reflexivity).
  destruct (String.eqb (DistanceApi.Data.status data) "OK");
    [|eexists; eexists; reflexivity].
  destruct (DistanceApi.Data.rows data) as [|row more];
    [eexists; eexists; reflexivity|].
  destruct (DistanceApi.Row.elements row) as [|element others];
    [eexists; eexists; reflexivity|].
  destruct (String.eqb (DistanceApi.Element.status element) "OK");
    [|eexists; eexists; reflexivity].
  destruct (DistanceApi.Element.distance element),
    (DistanceApi.Element.duration element);
    eexists; eexists; reflexivity.
Qed.

(** A pair of points one of whose latitudes or longitudes is zero is
    refused as invalid, with status 400 and without a call to the
    provider. *)
Theorem distance_POST_refuses_zero (origin destination : Coordinates)
  (apiKey : option string) (provider : DistanceApi.Provider) :
  (lat origin == 0 \/ lng origin == 0
   \/ lat destination == 0 \/ lng destination == 0)%Q ->
  POST true
    (Some {| DistanceApi.origin := Some origin;
             DistanceApi.destination := Some destination |})
    apiKey provider
  = (DistanceApi.Failure "Invalid coordinates provided" 400, []).
Proof.
  intros Hzero.
  assert (Hvalid : DistanceApi.validPair origin destination = false).
  { unfold DistanceApi.validPair.
    destruct Hzero as [H|[H|[H|H]]]; rewrite (truthy_zero _ H);
      rewrite ?andb_false_r; reflexivity. }
  unfold DistanceApi.POST. cbn. now rewrite Hvalid.
Qed.


End DistanceApiFacts.

(** ** The distance-matrix route: the fallback *)

Lemma mapiC_throws {A B : Type} (f : A -> nat -> Completion B) (l : list A) :
  forall (start : nat),
    (exists k x, nth_error l k = Some x /\ f x (start + k)%nat = TypeError) ->
    DistanceMatrixApi.mapiC f l start = TypeError.
Proof.
  induction l as [|a l IH]; intros start [k [x [Hk Hf]]].
  - destruct k; discriminate Hk.
  - cbn [DistanceMatrixApi.mapiC]. destruct k as [|k].
    + injection Hk as <-. rewrite Nat.add_0_r in Hf. now rewrite Hf.
    + destruct (f a start); [|reflexivity]. cbn [bind].
      rewrite (IH (S start)); [reflexivity|].
      exists k, x. split; [exact Hk|]. now rewrite Nat.add_succ_comm.
Qed.

Section DistanceMatrixFallback.

Variable calculateHaversineDistance : Coordinates -> Coordinates -> Q.

Local Abbreviation haversineMatrix :=
  (DistanceMatrixApi.haversineMatrix calculateHaversineDistance).
Local Abbreviation POST := (DistanceMatrixApi.POST calculateHaversineDistance).

Lemma haversineMatrix_cell (origins destinations : list Coordinates)
  (i j : nat) (origin dest : Coordinates) :
  nth_error origins i = Some origin ->
  nth_error destinations j = Some dest ->
  exists row,
    nth_error (haversineMatrix origins destinations) i = Some row
    /\ nth_error row j = Some (calculateHaversineDistance origin dest).
Proof.
  intros Ho Hd. unfold DistanceMatrixApi.haversineMatrix.
  eexists. split.
  - rewrite nth_error_map, Ho. reflexivity.
  - rewrite nth_error_map, Hd. reflexivity.
Qed.

(** For a signed-in caller and lists of origins and destinations that are
    not empty, the handler answers with the full haversine matrix (one row
    per origin, one cell per destination, each the haversine distance of
    its pair) when no key is configured (the environment variable is unset
    or empty) and whenever the call to the provider is rejected, is not
    JSON or has a status other than "OK"; the provider is called exactly
    when a key is configured. *)
Theorem matrix_POST_fallback (origins destinations : list Coordinates)
  (apiKey : option string) (provider : DistanceMatrixApi.Provider) :
  origins <> [] -> destinations <> [] ->
  DistanceMatrixApi.configured apiKey = false
  \/ provider = DistanceMatrixApi.Rejected
  \/ provider = DistanceMatrixApi.Answered None
  \/ (exists data,
         provider = DistanceMatrixApi.Answered (Some data)
         /\ DistanceMatrixApi.Data.status data <> "OK"%string) ->
  let answer :=
    POST true
      (Some {| DistanceMatrixApi.origins := Some origins;
               DistanceMatrixApi.destinations := Some destinations |})
      apiKey provider in
  exists distanceMatrix,
    fst answer = DistanceMatrixApi.Success distanceMatrix
    /\ length distanceMatrix = length origins
    /\ Forall (fun row => length row = length destinations) distanceMatrix
    /\ (forall i j origin dest,
          nth_error origins i = Some origin ->
          nth_error destinations j = Some dest ->
          exists row,
            nth_error distanceMatrix i = Some row
            /\ nth_error row j
               = Some (calculateHaversineDistance origin dest))
    /\ (DistanceMatrixApi.configured apiKey = false <-> snd answer = []).
Proof.
  intros Ho Hd Hfail answer.
  exists (haversineMatrix origins destinations).
  assert (Hsome : ((length origins =? 0)%nat
                   || (length destinations =? 0)%nat)%bool = false).
  { destruct origins; [congruence|].
    destruct destinations; [congruence|]. reflexivity. }
  split; [|split; [|split; [|split]]].
  - unfold answer, DistanceMatrixApi.POST.
    cbn [negb DistanceMatrixApi.origins DistanceMatrixApi.destinations].
    rewrite Hsome.
    destruct (DistanceMatrixApi.configured apiKey); [|reflexivity].
    cbn [negb fst].
    destruct Hfail as [H|[->|[->|[data [-> Hstatus]]]]];
      [discriminate H | reflexivity | reflexivity |].
    apply String.eqb_neq in Hstatus. now rewrite Hstatus.
  - unfold DistanceMatrixApi.haversineMatrix. now rewrite length_map.
  - apply Forall_forall. intros row Hrow.
    apply in_map_iff in Hrow. destruct Hrow as [origin [<- _]].
    now rewrite length_map.
  - intros i j origin dest. apply haversineMatrix_cell.
  - unfold answer, DistanceMatrixApi.POST.
    cbn [negb DistanceMatrixApi.origins DistanceMatrixApi.destinations].
    rewrite Hsome.
    destruct (DistanceMatrixApi.configured apiKey); cbn [negb snd];
      split; intros H; try reflexivity; discriminate H.
Qed.

(** When the provider's answer is "OK" as a whole but cannot be converted
    at one element (the element is "OK" and carries no distance, or it is
    reported as failed at a position that is no origin or no destination of
    the request), the handler gives up every precise value: it answers with
    the full haversine matrix. *)
Theorem matrix_POST_all_or_nothing (origins destinations : list Coordinates)
  (key : string) (data : DistanceMatrixApi.Data.t) (i j : nat)
  (row : DistanceMatrixApi.Row.t) (element : DistanceMatrixApi.Element.t) :
  origins <> [] -> destinations <> [] ->
  DistanceMatrixApi.Data.status data = "OK"%string ->
  nth_error (DistanceMatrixApi.Data.rows data) i = Some row ->
  nth_error (DistanceMatrixApi.Row.elements row) j = Some element ->
  (DistanceMatrixApi.Element.status element = "OK"%string
   /\ DistanceMatrixApi.Element.distance element = None)
  \/ (DistanceMatrixApi.Element.status element <> "OK"%string
      /\ (nth_error origins i = None \/ nth_error destinations j = None)) ->
  fst (POST true
         (Some {| DistanceMatrixApi.origins := Some origins;
                  DistanceMatrixApi.destinations := Some destinations |})
         (Some key) (DistanceMatrixApi.Answered (Some data)))
  = DistanceMatrixApi.Success (haversineMatrix origins destinations).
Proof.
  intros Ho Hd Hstatus Hrow Helement Hbad.
  assert (Hsome : ((length origins =? 0)%nat
                   || (length destinations =? 0)%nat)%bool = false).
  { destruct origins; [congruence|].
    destruct destinations; [congruence|]. reflexivity. }
  assert (Hcell : DistanceMatrixApi.convertElement calculateHaversineDistance
                    origins destinations i element j = TypeError).
  { unfold DistanceMatrixApi.convertElement.
    destruct Hbad as [[Hs Hdist]|[Hs Hout]].
    - rewrite Hs, Hdist. reflexivity.
    - apply String.eqb_neq in Hs. rewrite Hs.
      destruct Hout as [H|H]; rewrite H; [reflexivity|].
      now destruct (nth_error origins i). }
  assert (Hrows : DistanceMatrixApi.convertRows calculateHaversineDistance
                    origins destinations data = TypeError).
  { unfold DistanceMatrixApi.convertRows. apply mapiC_throws.
    exists i, row. split; [exact Hrow|]. cbn [Nat.add].
    apply mapiC_throws. exists j, element. split; [exact Helement|].
    exact Hcell. }
  unfold DistanceMatrixApi.POST.
  cbn [negb DistanceMatrixApi.origins DistanceMatrixApi.destinations].
  rewrite Hsome.
  destruct (DistanceMatrixApi.configured (Some key)); [|reflexivity].
  cbn [negb]. rewrite Hstatus.
  change (String.eqb "OK" "OK") with true. cbv iota.
  now rewrite Hrows.
Qed.

End DistanceMatrixFallback.

(** ** The haversine distance: symmetry *)

(** The haversine distance of two points does not depend on their order. *)
Theorem haversine_symmetric (a b : Coordinates) :
  Haversine.calculateDistance a b = Haversine.calculateDistance b a.
Proof.
  unfold Haversine.calculateDistance. cbv zeta.
  replace ((Q2R (lat a) - Q2R (lat b)) * PI / 180 / 2)%R
    with (- ((Q2R (lat b) - Q2R (lat a)) * PI / 180 / 2))%R by field.
  replace ((Q2R (lng a) - Q2R (lng b)) * PI / 180 / 2)%R
    with (- ((Q2R (lng b) - Q2R (lng a)) * PI / 180 / 2))%R by field.
  rewrite !sin_neg.
  set (s := sin ((Q2R (lat b) - Q2R (lat a)) * PI / 180 / 2)).
  set (t := sin ((Q2R (lng b) - Q2R (lng a)) * PI / 180 / 2)).
  set (ca := cos (Q2R (lat a) * PI / 180)).
  set (cb := cos (Q2R (lat b) * PI / 180)).
  replace (- s * - s + cb * ca * - t * - t)%R
    with (s * s + ca * cb * t * t)%R by ring.
  reflexivity.
Qed.

(** ** The haversine distance of two antipodal points, in floating point *)

(** In double precision the haversine distance from (8, 0) to (-8, 180) is
    [NaN]: with the values [Math.sin] and [Math.cos] have at the four
    angles of the formula, the sum [a] is 1.0000000000000002, so [1 - a] is
    negative, its square root is [NaN] and [Math.atan2] of a [NaN] is
    [NaN]. *)
Theorem haversine_of_antipodes (sin cos : float -> float)
  (atan2 : float -> float -> float) :
  sin (-0x1.1df46a2529d39p-3)%float = (-0x1.1d06c968d9e19p-3)%float ->
  sin 0x1.921fb54442d18p+0%float = 1%float ->
  cos 0x1.1df46a2529d39p-3%float = 0x1.fb046a930947ap-1%float ->
  cos (-0x1.1df46a2529d39p-3)%float = 0x1.fb046a930947ap-1%float ->
  (forall y, atan2 y nan = nan) ->
  Doubles.calculateDistance sin cos atan2
    {| Doubles.lat := 8; Doubles.lng := 0 |}
    {| Doubles.lat := -8; Doubles.lng := 180 |} = nan.
Proof.
  intros Hsin Hsin' Hcos Hcos' Hatan2.
  unfold Doubles.calculateDistance. cbv zeta.
  cbn [Doubles.lat Doubles.lng].
  change ((-8 - 8) * Doubles.PI / 180 / 2)%float
    with (-0x1.1df46a2529d39p-3)%float.
  change ((180 - 0) * Doubles.PI / 180 / 2)%float
    with 0x1.921fb54442d18p+0%float.
  change (8 * Doubles.PI / 180)%float with 0x1.1df46a2529d39p-3%float.
  change (-8 * Doubles.PI / 180)%float with (-0x1.1df46a2529d39p-3)%float.
  rewrite Hsin, Hsin', Hcos, Hcos'.
  change (PrimFloat.sqrt
            (1 - (-0x1.1d06c968d9e19p-3 * -0x1.1d06c968d9e19p-3
                  + 0x1.fb046a930947ap-1 * 0x1.fb046a930947ap-1 * 1 * 1)))%float
    with nan.
  rewrite Hatan2. reflexivity.
Qed.

(** ** The client-side round-trip optimizer and the answer of its route *)

Section ClientAnswers.

Variable calculateHaversineDistance : Coordinates -> Coordinates -> Q.

Local Abbreviation optimizeRouteWithDriving :=
  (Client.optimizeRouteWithDriving calculateHaversineDistance).

(** The optimizer ends normally with a permutation whenever the matrix it
    obtains has a cell for every pair of points. *)
Lemma optimizeRouteWithDriving_on_square
  (appointments : list AppointmentData) (startLocation : option Coordinates)
  (outcome : Client.FetchOutcome) (matrix : list (list Q)) :
  (forall points, points <> [] ->
     Client.calculateDistanceMatrix calculateHaversineDistance points points
       outcome = Some matrix
     \/ Client.calculateDistanceMatrix calculateHaversineDistance points
          points outcome
        = Some (Client.haversineMatrix calculateHaversineDistance points
                  points)) ->
  square (S (length appointments)) matrix ->
  exists route,
    optimizeRouteWithDriving appointments startLocation outcome = Normal route
    /\ Permutation route appointments.
Proof.
  intros Hmatrix Hsquare.
  destruct appointments as [|first [|second rest]] eqn:Happ.
  - exists []. split; [reflexivity | constructor].
  - exists [first]. split; [reflexivity | apply Permutation_refl].
  - rewrite <- Happ in *.
    unfold Client.optimizeRouteWithDriving.
    assert (Hlong : (length appointments <=? 1)%nat = false)
      by now rewrite Happ.
    rewrite Hlong.
    set (origin := match startLocation with
                   | Some start => start
                   | None => coordsOf first
                   end).
    assert (Horigin : match startLocation, map coordsOf appointments with
                      | Some start, _ => Normal start
                      | None, f :: _ => Normal f
                      | None, [] => TypeError
                      end = Normal origin).
    { unfold origin. rewrite Happ. now destruct startLocation. }
    rewrite Horigin. cbn [bind].
    set (allCoords := origin :: map coordsOf appointments).
    assert (Hrun : forall m,
               square (S (length appointments)) m ->
               exists route,
                 Client.bestOverEndings appointments (Some m) origin
                   (match startLocation with
                    | Some _ => true
                    | None => false
                    end) = Normal route
                 /\ Permutation route appointments).
    { intros m Hm. unfold Client.bestOverEndings.
      destruct (client_forLoop appointments m Hm origin
                  (match startLocation with Some _ => true | None => false end)
                  (length appointments) 0
                  {| Client.bestRoute := [];
                     Client.bestTotalDistance := Infinity |})
        as [b [Hloop Hb]]; [simpl; lia | now left |].
      rewrite Hloop. cbn [bind]. exists (Client.bestRoute b).
      split; [reflexivity|].
      destruct Hb as [[Hzero _]|Hp]; [|exact Hp].
      rewrite Happ in Hzero. discriminate. }
    destruct (Hmatrix allCoords) as [-> | ->]; [discriminate | |].
    + now apply Hrun.
    + apply Hrun.
      replace (S (length appointments)) with (length allCoords).
      * apply (haversineMatrix_square calculateHaversineDistance).
      * unfold allCoords. simpl. now rewrite length_map.
Qed.

(** When the route answers OK with a matrix that has a row for the origin
    and for every appointment and as many cells in every row, the optimizer
    ends normally and returns a permutation of the appointments. *)
Theorem optimizeRouteWithDriving_full_matrix
  (appointments : list AppointmentData) (startLocation : option Coordinates)
  (matrix : list (list Q)) :
  square (S (length appointments)) matrix ->
  exists route,
    optimizeRouteWithDriving appointments startLocation
      (Client.Responded true
         (Some {| Client.distanceMatrix := Some matrix |})) = Normal route
    /\ Permutation route appointments.
Proof.
  intros Hsquare.
  apply optimizeRouteWithDriving_on_square with (matrix := matrix); auto.
  intros points Hne. left. unfold Client.calculateDistanceMatrix.
  destruct points; [congruence | reflexivity].
Qed.

(** The loop only appends to the route, and with two stops or more to
    visit and a turn to take it appends at least one. *)
Lemma client_loop_appends (turns : nat) (appointments : list AppointmentData)
  (distanceMatrix : option (list (list Q)))
  (target : option AppointmentData) :
  forall (unvisited route left route' : list AppointmentData)
         (currentIndex : nat),
    Client.whileSeveral turns appointments distanceMatrix target unvisited
      route currentIndex = Normal (left, route') ->
    exists tail,
      route' = route ++ tail
      /\ ((2 <= length unvisited)%nat -> (1 <= turns)%nat -> tail <> []).
Proof.
  induction turns as [|turns IH];
    intros unvisited route left route' currentIndex Hrun.
  - cbn [Client.whileSeveral] in Hrun.
    destruct (length unvisited <=? 1)%nat; injection Hrun as _ <-;
      exists []; rewrite app_nil_r; split; auto; lia.
  - cbn [Client.whileSeveral] in Hrun.
    destruct (length unvisited <=? 1)%nat eqn:E.
    + injection Hrun as _ <-. exists []. rewrite app_nil_r. split; auto.
      apply Nat.leb_le in E. lia.
    + destruct (Client.select appointments distanceMatrix target unvisited
                  currentIndex) as [s|]; [|discriminate Hrun].
      cbn [bind] in Hrun.
      destruct (nth_error unvisited (nearestIndex (Client.nearest s)))
        as [x|]; [|discriminate Hrun].
      destruct (IH _ _ _ _ _ Hrun) as [tail [-> _]].
      exists (x :: tail). rewrite <- app_assoc. split; [reflexivity|].
      intros _ _. discriminate.
Qed.

Lemma client_roundTrip_without_matrix (appointments route : list AppointmentData)
  (origin : Coordinates) (hasStartLocation : bool) :
  route <> [] ->
  Client.calculateRoundTripDistance appointments route origin None
    hasStartLocation = TypeError.
Proof.
  intros Hne. destruct route as [|first route]; [congruence|].
  unfold Client.calculateRoundTripDistance.
  destruct hasStartLocation; [reflexivity|]. cbn [bind].
  destruct route as [|second route]; reflexivity.
Qed.

(** When the route answers OK with a body that has no [distanceMatrix], the
    optimizer throws on two appointments or more: it does not return a
    route computed without distances. *)
Theorem optimizeRouteWithDriving_missing_matrix
  (first second : AppointmentData) (rest : list AppointmentData)
  (startLocation : option Coordinates) :
  optimizeRouteWithDriving (first :: second :: rest) startLocation
    (Client.Responded true (Some {| Client.distanceMatrix := None |}))
  = TypeError.
Proof.
  set (appointments := first :: second :: rest).
  unfold Client.optimizeRouteWithDriving.
  change (length appointments <=? 1)%nat with false. cbv iota.
  set (origin := match startLocation with
                 | Some start => start
                 | None => coordsOf first
                 end).
  assert (Horigin : match startLocation, map coordsOf appointments with
                    | Some start, _ => Normal start
                    | None, f :: _ => Normal f
                    | None, [] => TypeError
                    end = Normal origin).
  { unfold origin. now destruct startLocation. }
  rewrite Horigin. cbn [bind].
  change (Client.calculateDistanceMatrix calculateHaversineDistance
            (origin :: map coordsOf appointments)
            (origin :: map coordsOf appointments)
            (Client.Responded true
               (Some {| Client.distanceMatrix := None |})))
    with (@None (list (list Q))).
  unfold Client.bestOverEndings.
  change (length appointments) with (S (length (second :: rest))).
  cbn [forLoop]. unfold Client.tryEnding at 1.
  destruct (Client.optimizeSingleRoute appointments None origin 0 0)
    as [candidate|] eqn:Hcand; [|reflexivity].
  cbn [bind].
  rewrite client_roundTrip_without_matrix; [reflexivity|].
  unfold Client.optimizeSingleRoute in Hcand.
  destruct (Client.whileSeveral (length appointments) appointments None
              (nth_error appointments 0) appointments [] 0)
    as [[left route']|] eqn:Hloop; [|discriminate Hcand].
  destruct (client_loop_appends _ _ _ _ _ _ _ _ _ Hloop) as [tail [-> Htail]].
  cbn [bind fst snd app] in Hcand.
  assert (Hne : tail <> []) by (apply Htail; simpl; lia).
  destruct left as [|lastOne [|more left]]; injection Hcand as <-;
    try exact Hne.
  destruct tail; [congruence | discriminate].
Qed.

End ClientAnswers.

(** ** The client-side open-path optimizer *)

Lemma sameQ_refl (x : Q) : sameQ x x = true.
Proof.
  unfold sameQ. now rewrite Z.eqb_refl, Pos.eqb_refl.
Qed.

Lemma sameObject_refl (a : AppointmentData) : sameObject a a = true.
Proof.
  unfold sameObject. rewrite !String.eqb_refl, Z.eqb_refl, !sameQ_refl.
  destruct (notes a) as [s|]; simpl; [now rewrite String.eqb_refl|];
    reflexivity.
Qed.

Lemma findIndex_found {A : Type} (p : A -> bool) (l : list A) (x : A) :
  In x l -> p x = true -> exists i, findIndex p l = Some i.
Proof.
  induction l as [|y l IH]; intros Hin Hp; [destruct Hin|].
  simpl. destruct (p y) eqn:Hy; [now exists 0%nat|].
  destruct Hin as [->|Hin]; [congruence|].
  destruct (IH Hin Hp) as [i ->]. now exists (S i).
Qed.

Section OpenPathClientFacts.

Variable appointments : list AppointmentData.
Variable hasStart : bool.
Variable matrix : list (list Q).

Let size : nat := (length appointments + (if hasStart then 1 else 0))%nat.

Hypothesis matrix_square : square size matrix.

Lemma openPath_matrixIndex (x : AppointmentData) :
  In x appointments ->
  exists i,
    OpenPathClient.matrixIndex hasStart appointments x = Some i
    /\ (i < size)%nat.
Proof.
  intros Hin. unfold OpenPathClient.matrixIndex, indexOf.
  destruct (findIndex_found (sameObject x) appointments x Hin
              (sameObject_refl x)) as [i Hi].
  rewrite Hi. apply findIndex_bound in Hi. unfold size.
  destruct hasStart; eexists; split; try reflexivity; lia.
Qed.

Lemma openPath_cell (i j : nat) :
  (i < size)%nat -> (j < size)%nat ->
  exists q,
    OpenPathClient.cellAt (Some matrix) (Some i) (Some j) = Normal (Num q).
Proof.
  intros Hi Hj. destruct matrix_square as [Hrows Hcols].
  unfold OpenPathClient.cellAt. rewrite <- Hrows in Hi.
  destruct (nth_error_in_range matrix i Hi) as [row Hrow]. rewrite Hrow.
  rewrite Forall_forall in Hcols.
  pose proof (Hcols row (nth_error_In _ _ Hrow)) as Hlen.
  rewrite <- Hlen in Hj.
  destruct (nth_error_in_range row j Hj) as [q Hq]. rewrite Hq.
  now exists q.
Qed.

Lemma openPath_pass (current : nat) (l : list AppointmentData) :
  (current < size)%nat ->
  incl l appointments ->
  forall (i : nat) (n : Nearest),
  exists n',
    forEachC
      (OpenPathClient.nearer appointments (Some matrix) hasStart
         (Some current)) l i n = Normal n'
    /\ (nearestIndex n' = nearestIndex n
        \/ (i <= nearestIndex n' < i + length l)%nat).
Proof.
  intros Hcur. induction l as [|x l IH]; intros Hincl i n.
  - exists n. split; [reflexivity | now left].
  - cbn [forEachC]. unfold OpenPathClient.nearer at 1.
    destruct (openPath_matrixIndex x) as [j [Hj Hjlt]].
    { apply Hincl. now left. }
    rewrite Hj. destruct (openPath_cell current j Hcur Hjlt) as [q Hq].
    rewrite Hq. cbn [bind].
    assert (Hrest : incl l appointments).
    { intros y Hy. apply Hincl. now right. }
    destruct (lessThan (Num q) (nearestDistance n)); cbn [bind].
    + match goal with
      | |- exists n', forEachC _ _ _ ?n1 = _ /\ _ =>
          destruct (IH Hrest (S i) n1) as [n' [Hrun Hn']]
      end.
      exists n'. split; [exact Hrun|]. right. simpl in *.
      destruct Hn' as [->|Hr]; lia.
    + destruct (IH Hrest (S i) n) as [n' [Hrun Hn']].
      exists n'. split; [exact Hrun|]. simpl.
      destruct Hn' as [->|Hr]; [now left | right; lia].
Qed.

Lemma openPath_loop (turns : nat) :
  forall (unvisited route : list AppointmentData) (current : nat),
    (length unvisited <= turns)%nat ->
    (current < size)%nat ->
    incl unvisited appointments ->
    exists tail,
      OpenPathClient.whileUnvisited turns appointments (Some matrix) hasStart
        unvisited route (Some current) = Normal (route ++ tail)
      /\ Permutation tail unvisited.
Proof.
  induction turns as [|turns IH];
    intros unvisited route current Hlen Hcur Hincl.
  - destruct unvisited; [|simpl in Hlen; lia].
    exists []. simpl. now rewrite app_nil_r.
  - destruct unvisited as [|u rest].
    + exists []. simpl. now rewrite app_nil_r.
    + remember (u :: rest) as l eqn:El.
      assert (Hstep : OpenPathClient.whileUnvisited (S turns) appointments
                        (Some matrix) hasStart l route (Some current)
                      = bind (forEachC
                                (OpenPathClient.nearer appointments
                                   (Some matrix) hasStart (Some current))
                                l 0 noneYet)
                          (fun n =>
                             match nth_error l (nearestIndex n) with
                             | None => TypeError
                             | Some x =>
                                 OpenPathClient.whileUnvisited turns
                                   appointments (Some matrix) hasStart
                                   (removeAt (nearestIndex n) l)
                                   (route ++ [x])
                                   (OpenPathClient.matrixIndex hasStart
                                      appointments x)
                             end)).
      { subst l. reflexivity. }
      rewrite Hstep.
      destruct (openPath_pass current l Hcur Hincl 0 noneYet)
        as [n [Hrun Hn]].
      rewrite Hrun. cbn [bind].
      assert (Hr : (nearestIndex n < length l)%nat).
      { destruct Hn as [->|Hr]; [subst l; simpl; lia | lia]. }
      destruct (nth_error_in_range l _ Hr) as [x Hx]. rewrite Hx.
      pose proof (removeAt_length _ _ _ Hx) as Hrem.
      pose proof (removeAt_perm _ _ _ Hx) as Hperm.
      destruct (openPath_matrixIndex x) as [j [Hj Hjlt]].
      { apply Hincl. now apply nth_error_In with (nearestIndex n). }
      rewrite Hj.
      destruct (IH (removeAt (nearestIndex n) l) (route ++ [x]) j)
        as [tail [Ht Hp]]; [lia | exact Hjlt | |].
      { intros y Hy. apply Hincl. apply (Permutation_in y Hperm).
        now right. }
      exists (x :: tail). split.
      * rewrite Ht. now rewrite <- app_assoc.
      * rewrite Hp. exact Hperm.
Qed.

End OpenPathClientFacts.

Section OpenPathClientAnswers.

Variable calculateHaversineDistance : Coordinates -> Coordinates -> Q.

(** The open-path page optimizer ends normally and returns a permutation of
    the appointments whenever the request for the matrix fails as a whole
    (it then works on the haversine matrix) and whenever the answer is a
    matrix with a row for every point asked about (the starting location if
    any, then every appointment) and as many cells in every row. *)
Theorem openPath_optimizeRouteWithDriving_permutation
  (appointments : list AppointmentData) (startLocation : option Coordinates)
  (outcome : Client.FetchOutcome) :
  failsAsAWhole outcome
  \/ (exists matrix,
         outcome = Client.Responded true
                     (Some {| Client.distanceMatrix := Some matrix |})
         /\ square
              (length appointments
               + match startLocation with Some _ => 1 | None => 0 end)%nat
              matrix) ->
  exists route,
    OpenPathClient.optimizeRouteWithDriving calculateHaversineDistance
      appointments startLocation outcome = Normal route
    /\ Permutation route appointments.
Proof.
  intros Houtcome.
  destruct appointments as [|first [|second rest]] eqn:Happ.
  - exists []. split; [reflexivity | constructor].
  - exists [first]. split; [reflexivity | apply Permutation_refl].
  - rewrite <- Happ in *.
    unfold OpenPathClient.optimizeRouteWithDriving.
    assert (Hlong : (length appointments <=? 1)%nat = false)
      by now rewrite Happ.
    rewrite Hlong.
    set (hasStart := match startLocation with
                     | Some _ => true
                     | None => false
                     end).
    set (allCoords := match startLocation with
                      | Some start => start :: map coordsOf appointments
                      | None => map coordsOf appointments
                      end).
    assert (Hall : length allCoords
                   = (length appointments
                      + (if hasStart then 1 else 0))%nat).
    { unfold allCoords, hasStart. destruct startLocation; simpl;
        rewrite length_map; lia. }
    assert (Hne : allCoords <> []).
    { intros Hnil. rewrite Hnil in Hall. rewrite Happ in Hall.
      simpl in Hall. lia. }
    assert (Hmatrix : exists matrix,
               Client.calculateDistanceMatrix calculateHaversineDistance
                 allCoords allCoords outcome = Some matrix
               /\ square (length appointments
                          + (if hasStart then 1 else 0))%nat matrix).
    { destruct Houtcome as [Hfail|[matrix [-> Hsq]]].
      - exists (Client.haversineMatrix calculateHaversineDistance
                  allCoords allCoords).
        split; [now apply calculateDistanceMatrix_fallback|].
        rewrite <- Hall. apply haversineMatrix_square.
      - exists matrix. split.
        + unfold Client.calculateDistanceMatrix.
          destruct allCoords; [congruence | reflexivity].
        + unfold hasStart. now destruct startLocation. }
    destruct Hmatrix as [matrix [-> Hsq]].
    destruct (openPath_loop appointments hasStart matrix Hsq
                (length appointments) appointments [] 0)
      as [tail [Hrun Hperm]].
    + lia.
    + rewrite Happ. simpl. lia.
    + apply incl_refl.
    + exists tail. split; [exact Hrun | exact Hperm].
Qed.

End OpenPathClientAnswers.

(** ** The round-trip search against the open-path route *)

Section NeverWorse.

Variable calculateDistance : Coordinates -> Coordinates -> Q.

(** When the open-path loop ends on [target], the constrained loop with
    [target] as forced-final stop takes the same turns. *)
Lemma constrained_follows_openPath (target : AppointmentData) (turns : nat) :
  forall (unvisited route front : list AppointmentData)
         (current : Coordinates),
    (length unvisited <= turns)%nat ->
    NoDup (map id unvisited) ->
    OptimizeApi.whileUnvisited calculateDistance turns unvisited route current
    = Normal (route ++ front ++ [target]) ->
    RoundTripApi.whileUnvisited calculateDistance turns (Some target)
      unvisited route current
    = Normal (route ++ front ++ [target]).
Proof.
  induction turns as [|turns IH];
    intros unvisited route front current Hlen Hnodup Hopen.
  - destruct unvisited; [|simpl in Hlen; lia]. simpl in Hopen.
    injection Hopen as Hopen. exfalso.
    apply (f_equal (@length _)) in Hopen.
    rewrite !length_app in Hopen. simpl in Hopen. lia.
  - destruct unvisited as [|u rest].
    + simpl in Hopen. injection Hopen as Hopen. exfalso.
      apply (f_equal (@length _)) in Hopen.
      rewrite !length_app in Hopen. simpl in Hopen. lia.
    + remember (u :: rest) as l eqn:El.
      assert (Hne : l <> []) by (subst; discriminate).
      pose proof (nearer_first_nearest calculateDistance current l []
                    noneYet (or_introl (conj eq_refl eq_refl)) Hne) as Hfirst.
      cbn [app length] in Hfirst.
      destruct Hfirst as [x [Hx [_ [_ Hmin]]]].
      set (i := nearestIndex
                  (forEach (OptimizeApi.nearer calculateDistance current)
                     l 0 noneYet)) in *.
      rewrite (whileUnvisited_turn calculateDistance turns l route current x
                 Hne Hx) in Hopen.
      fold i in Hopen.
      pose proof (removeAt_length _ _ _ Hx) as Hrem.
      pose proof (removeAt_perm _ _ _ Hx) as Hperm.
      destruct (whileUnvisited_visits_all calculateDistance turns
                  (removeAt i l) (route ++ [x]) (coordsOf x))
        as [tail [Hrun Htail]]; [lia|].
      assert (Hshape : x :: tail = front ++ [target]).
      { rewrite Hrun in Hopen. injection Hopen as Hopen.
        rewrite <- app_assoc in Hopen. now apply app_inv_head in Hopen. }
      destruct rest as [|u' rest].
      * (* one stop left: it is the target *)
        subst l. destruct i; simpl in Hx; [|destruct i; discriminate Hx].
        injection Hx as <-. simpl in Htail.
        apply Permutation_sym, Permutation_nil in Htail. subst tail.
        destruct front as [|f front]; simpl in Hshape.
        -- injection Hshape as <-. reflexivity.
        -- injection Hshape as _ Hshape. destruct front; discriminate.
      * assert (Hl : (2 <= length l)%nat) by (subst; simpl; lia).
        destruct front as [|f front'].
        { simpl in Hshape. injection Hshape as _ ->.
          apply Permutation_length in Htail. simpl in Htail. lia. }
        simpl in Hshape. injection Hshape as <- ->.
        assert (Htin : In target (removeAt i l)).
        { apply (Permutation_in target Htail). apply in_or_app.
          right. now left. }
        assert (Hnd : NoDup (map id (x :: removeAt i l))).
        { assert (Hp : Permutation (map id (x :: removeAt i l)) (map id l))
            by now apply Permutation_map.
          apply Permutation_sym in Hp. exact (Permutation_NoDup Hp Hnodup). }
        assert (Hxt : id x <> id target).
        { simpl in Hnd. inversion Hnd as [|? ? Hnot _]. intros Heq.
          apply Hnot. rewrite Heq. now apply in_map. }
        rewrite (constrained_turn calculateDistance turns (Some target) l
                   route current Hl).
        destruct (nearerExcept_first_nearest calculateDistance (length l)
                    target current l Hl [] noneYet)
          as [n [Hscan Hsel]].
        { left. split; [intros y [] | reflexivity]. }
        cbn [app length] in Hscan, Hsel.
        destruct Hsel as [[Hall _]|[x' [Hx' [Hcount [_ Hmin']]]]].
        { exfalso. apply Hxt. apply Hall.
          now apply nth_error_In with i. }
        assert (Hcx : negb (String.eqb (id x) (id target)) = true).
        { apply negb_true_iff. now apply String.eqb_neq. }
        assert (Hidx : nearestIndex n = i).
        { destruct (Hmin (nearestIndex n) x' Hx' eq_refl) as [Hle Hlt].
          destruct (Hmin' i x Hx Hcx) as [Hle' Hlt'].
          destruct (Nat.lt_trichotomy (nearestIndex n) i) as [H|[H|H]];
            auto; exfalso.
          - apply (Qlt_irrefl (calculateDistance current (coordsOf x))).
            eapply Qlt_le_trans; [apply Hlt; exact H | exact Hle'].
          - apply (Qlt_irrefl (calculateDistance current (coordsOf x'))).
            eapply Qlt_le_trans; [apply Hlt'; exact H | exact Hle]. }
        rewrite Hscan. cbn [bind]. rewrite Hidx, Hx.
        replace (route ++ (x :: front') ++ [target])
          with ((route ++ [x]) ++ front' ++ [target])
          by (rewrite <- app_assoc; reflexivity).
        apply IH; [lia | now inversion Hnd |].
        replace ((route ++ [x]) ++ front' ++ [target])
          with (route ++ (x :: front') ++ [target])
          by (rewrite <- app_assoc; reflexivity).
        exact Hopen.
Qed.

(** Where every distance is a rational number: for appointments with
    pairwise-distinct ids and a starting location, the open-path route is
    one of the candidates of the round-trip search (the one that is forced
    to end where the open-path route ends), so the total the round-trip
    optimizer returns is never more than the round-trip distance of the
    open-path route. *)
Lemma roundTrip_never_worse_than_openPath
  (appointments : list AppointmentData) (origin : Coordinates) :
  NoDup (map id appointments) ->
  appointments <> [] ->
  exists best total openRoute k,
    RoundTripApi.optimizeRoundTripRoute calculateDistance appointments
      (Some origin) = Normal best
    /\ RoundTripApi.totalDistance best = Num total
    /\ OptimizeApi.optimizeRoute calculateDistance appointments (Some origin)
       = Normal openRoute
    /\ RoundTripApi.optimizeSingleRoute calculateDistance appointments
         origin k = Normal openRoute
    /\ (total <= RoundTripApi.calculateRoundTripDistance calculateDistance
                   openRoute origin)%Q.
Proof.
  intros Hnodup Hne.
  destruct appointments as [|a [|a' rest]]; [congruence| |].
  - exists {| RoundTripApi.route := [a];
              RoundTripApi.totalDistance :=
                Num (calculateDistance origin (coordsOf a)
                     + calculateDistance (coordsOf a) origin) |}.
    eexists. exists [a], 0%nat.
    split; [reflexivity|]. split; [reflexivity|].
    split; [reflexivity|]. split; [reflexivity|].
    unfold RoundTripApi.calculateRoundTripDistance. simpl.
    rewrite Qplus_0_l. apply Qle_refl.
  - set (l := a :: a' :: rest) in *.
    destruct (whileUnvisited_visits_all calculateDistance (length l) l []
                origin (Nat.le_refl _)) as [openRoute [Hopen Hperm]].
    simpl app in Hopen.
    assert (Hroute : OptimizeApi.optimizeRoute calculateDistance l
                       (Some origin) = Normal openRoute) by exact Hopen.
    assert (Hnonempty : openRoute <> []).
    { intros ->. apply Permutation_nil in Hperm. discriminate Hperm. }
    destruct (exists_last Hnonempty) as [front [target Hlast]].
    assert (Htin : In target l).
    { apply (Permutation_in target Hperm). rewrite Hlast.
      apply in_or_app. right. now left. }
    destruct (In_nth_error _ _ Htin) as [k Hk].
    assert (Hcand : RoundTripApi.optimizeSingleRoute calculateDistance l
                      origin k = Normal openRoute).
    { unfold RoundTripApi.optimizeSingleRoute. rewrite Hk, Hlast.
      apply (constrained_follows_openPath target (length l) l [] front
               origin (Nat.le_refl _) Hnodup).
      rewrite <- Hlast. exact Hopen. }
    destruct (forLoop_tryEnding calculateDistance l origin (length l) 0
                {| RoundTripApi.bestRoute := [];
                   RoundTripApi.bestTotalDistance := Infinity |})
      as [b [Hrun Hbest]]; [simpl; lia | left; repeat split |].
    destruct Hbest as [[_ [Hm0 _]]|[k' [Hk' [Hck [Hbk Hmin]]]]];
      [simpl in Hm0; discriminate|].
    exists {| RoundTripApi.route := RoundTripApi.bestRoute b;
              RoundTripApi.totalDistance :=
                RoundTripApi.bestTotalDistance b |},
      (RoundTripApi.calculateRoundTripDistance calculateDistance
         (RoundTripApi.bestRoute b) origin), openRoute, k.
    split; [|split; [exact Hbk|split; [exact Hroute|split; [exact Hcand|]]]].
    + unfold RoundTripApi.optimizeRoundTripRoute.
      change (length l <=? 1)%nat with false. cbv iota. cbn [bind].
      rewrite Hrun. reflexivity.
    + apply (Hmin k openRoute); [|exact Hcand].
      assert (k < length l)%nat by (apply nth_error_Some; congruence).
      lia.
Qed.

End NeverWorse.

(** ** Where every distance is a number

    On points whose distances are numbers the functions of [Js] compute
    what the functions on rational distances compute. *)

Lemma removeAt_In {A : Type} (l : list A) :
  forall (i : nat) (x : A), In x (removeAt i l) -> In x l.
Proof.
  induction l as [|y l IH]; intros i x H; [destruct i; destruct H|].
  destruct i as [|i]; cbn [removeAt] in H.
  - now right.
  - destruct H as [<-|H]; [now left | right; eauto].
Qed.

Section OnNumbers.

Variable calculateDistance : Coordinates -> Coordinates -> number.
Variable miles : Coordinates -> Coordinates -> Q.
Variable points : list Coordinates.

Hypothesis numbers : numbersAmong points calculateDistance miles.

(** The stops of a list are among the points. *)
Local Abbreviation among l := (forall x, In x l -> In (coordsOf x) points).

Lemma onNumbers_pass (len : nat) (target : option AppointmentData)
  (currentLocation : Coordinates) (l : list AppointmentData) :
  In currentLocation points -> among l ->
  forall (i : nat) (n : Nearest),
    forEachC
      (Js.RoundTripApi.nearerExcept calculateDistance len target
         currentLocation) l i n
    = forEachC (RoundTripApi.nearerExcept miles len target currentLocation)
        l i n.
Proof.
  intros Hcur. induction l as [|x l IH]; intros Hl i n; [reflexivity|].
  cbn [forEachC].
  assert (Hx : Js.RoundTripApi.nearerExcept calculateDistance len target
                 currentLocation n x i
               = RoundTripApi.nearerExcept miles len target currentLocation
                   n x i).
  { unfold Js.RoundTripApi.nearerExcept, RoundTripApi.nearerExcept.
    rewrite (numbers currentLocation (coordsOf x) Hcur (Hl x (or_introl eq_refl))).
    reflexivity. }
  rewrite Hx.
  destruct (RoundTripApi.nearerExcept miles len target currentLocation n x i)
    as [n'|]; [|reflexivity].
  cbn [bind]. apply IH. intros y Hy. apply Hl. now right.
Qed.

Lemma onNumbers_loop (target : option AppointmentData) (turns : nat) :
  forall (unvisited route : list AppointmentData)
         (currentLocation : Coordinates),
    In currentLocation points -> among unvisited ->
    Js.RoundTripApi.whileUnvisited calculateDistance turns target unvisited
      route currentLocation
    = RoundTripApi.whileUnvisited miles turns target unvisited route
        currentLocation.
Proof.
  induction turns as [|turns IH]; intros unvisited route cur Hcur Hun.
  - destruct unvisited as [|a [|b unvisited]]; reflexivity.
  - destruct unvisited as [|a [|b unvisited]]; try reflexivity.
    cbn [Js.RoundTripApi.whileUnvisited RoundTripApi.whileUnvisited].
    rewrite onNumbers_pass by auto.
    destruct (forEachC
                (RoundTripApi.nearerExcept miles
                   (length (a :: b :: unvisited)) target cur)
                (a :: b :: unvisited) 0 noneYet) as [n|]; [|reflexivity].
    cbn [bind].
    destruct (nth_error (a :: b :: unvisited) (nearestIndex n))
      as [x|] eqn:Hx; [|reflexivity].
    apply IH.
    + apply Hun. now apply nth_error_In with (nearestIndex n).
    + intros y Hy. apply Hun. now apply removeAt_In with (nearestIndex n).
Qed.

Lemma onNumbers_optimizeSingleRoute (appointments : list AppointmentData)
  (origin : Coordinates) (k : nat) :
  In origin points -> among appointments ->
  Js.RoundTripApi.optimizeSingleRoute calculateDistance appointments origin k
  = RoundTripApi.optimizeSingleRoute miles appointments origin k.
Proof.
  intros Ho Happ. apply onNumbers_loop; auto.
Qed.

Lemma onNumbers_addLegs (route : list AppointmentData) :
  among route ->
  forall (total : Q),
    Js.RoundTripApi.addLegs calculateDistance route (Num total)
    = Num (RoundTripApi.addLegs miles route total).
Proof.
  induction route as [|a route IH]; intros Hroute total; [reflexivity|].
  destruct route as [|b route]; [reflexivity|].
  cbn [Js.RoundTripApi.addLegs RoundTripApi.addLegs].
  rewrite (numbers (coordsOf a) (coordsOf b)); cbn [plus].
  - apply IH. intros y Hy. apply Hroute. now right.
  - apply Hroute. now left.
  - apply Hroute. right. now left.
Qed.

Lemma last_In {A : Type} (l : list A) (default : A) :
  l <> [] -> In (last l default) l.
Proof.
  induction l as [|a l IH]; intros Hne; [congruence|].
  destruct l as [|b l]; [now left|].
  right. apply IH. discriminate.
Qed.

Lemma onNumbers_calculateRoundTripDistance (route : list AppointmentData)
  (origin : Coordinates) :
  In origin points -> among route ->
  Js.RoundTripApi.calculateRoundTripDistance calculateDistance route origin
  = Num (RoundTripApi.calculateRoundTripDistance miles route origin).
Proof.
  intros Ho Hroute.
  unfold Js.RoundTripApi.calculateRoundTripDistance,
    RoundTripApi.calculateRoundTripDistance.
  destruct route as [|first route]; [reflexivity|].
  rewrite (numbers origin (coordsOf first) Ho (Hroute first (or_introl eq_refl))).
  cbn [plus]. rewrite onNumbers_addLegs by exact Hroute.
  rewrite (numbers (coordsOf (last (first :: route) first)) origin);
    [reflexivity | | exact Ho].
  apply Hroute. apply last_In. discriminate.
Qed.

Lemma onNumbers_forLoop (appointments : list AppointmentData)
  (origin : Coordinates) (count : nat) :
  In origin points -> among appointments ->
  forall (m : nat) (b : RoundTripApi.Best),
    (m + count <= length appointments)%nat ->
    forLoop (Js.RoundTripApi.tryEnding calculateDistance appointments origin)
      m count b
    = forLoop (RoundTripApi.tryEnding miles appointments origin) m count b.
Proof.
  intros Ho Happ. induction count as [|count IH]; intros m b Hm;
    [reflexivity|].
  cbn [forLoop].
  assert (Htry : Js.RoundTripApi.tryEnding calculateDistance appointments
                   origin b m
                 = RoundTripApi.tryEnding miles appointments origin b m).
  { unfold Js.RoundTripApi.tryEnding, RoundTripApi.tryEnding.
    rewrite onNumbers_optimizeSingleRoute by auto.
    destruct (optimizeSingleRoute_total miles appointments origin m)
      as [candidate [-> Hperm]]; [lia|].
    cbn [bind]. rewrite onNumbers_calculateRoundTripDistance; auto.
    intros x Hx. apply Happ.
    now apply (Permutation_in _ Hperm). }
  rewrite Htry.
  destruct (RoundTripApi.tryEnding miles appointments origin b m);
    [|reflexivity].
  cbn [bind]. apply IH. lia.
Qed.

Lemma onNumbers_optimizeRoundTripRoute (appointments : list AppointmentData)
  (startLocation : option Coordinates) :
  (forall start, startLocation = Some start -> In start points) ->
  among appointments ->
  Js.RoundTripApi.optimizeRoundTripRoute calculateDistance appointments
    startLocation
  = RoundTripApi.optimizeRoundTripRoute miles appointments startLocation.
Proof.
  intros Hstart Happ.
  unfold Js.RoundTripApi.optimizeRoundTripRoute,
    RoundTripApi.optimizeRoundTripRoute.
  destruct appointments as [|first [|second rest]].
  - reflexivity.
  - cbn [length Nat.leb]. destruct startLocation as [start|]; [|reflexivity].
    rewrite (numbers start (coordsOf first)), (numbers (coordsOf first) start);
      auto using in_eq.
  - change (length (first :: second :: rest) <=? 1)%nat with false.
    cbv iota.
    assert (Horigin : forall origin,
              match startLocation with
              | Some start => Normal start
              | None => Normal (coordsOf first)
              end = Normal origin -> In origin points).
    { intros origin H. destruct startLocation as [start|];
        injection H as <-; auto using in_eq. }
    destruct (match startLocation with
              | Some start => Normal start
              | None => Normal (coordsOf first)
              end) as [origin|] eqn:Ho.
    + replace (match startLocation with
               | Some start => Normal start
               | None => Normal (coordsOf first)
               end) with (Normal origin)
        by (destruct startLocation; exact (eq_sym Ho)).
      cbn [bind]. rewrite onNumbers_forLoop; auto.
    + destruct startLocation; discriminate Ho.
Qed.

End OnNumbers.

(** ** The round-trip optimizer where every distance is a number *)

Section RoundTripOnNumbers.

Variable calculateDistance : Coordinates -> Coordinates -> number.
Variable miles : Coordinates -> Coordinates -> Q.

Lemma among_map (l : list AppointmentData) (points : list Coordinates) :
  (forall p, In p (map coordsOf l) -> In p points) ->
  forall x, In x l -> In (coordsOf x) points.
Proof.
  intros H x Hx. apply H. now apply in_map.
Qed.

(** Where the distances among the starting location and the stops are
    numbers, the round-trip optimizer ends normally; its route is a
    permutation of the appointments, its total distance a finite number,
    and for two stops or more that number is the round-trip distance of the
    route from the origin (the starting location, or the first appointment
    when none is given). *)
Theorem optimizeRoundTripRoute_permutation_on_numbers
  (appointments : list AppointmentData) (startLocation : option Coordinates) :
  numbersAmong
    (match startLocation with
     | Some start => start :: map coordsOf appointments
     | None => map coordsOf appointments
     end) calculateDistance miles ->
  exists best total,
    Js.RoundTripApi.optimizeRoundTripRoute calculateDistance appointments
      startLocation = Normal best
    /\ Permutation (RoundTripApi.route best) appointments
    /\ RoundTripApi.totalDistance best = Num total
    /\ forall first second rest,
         appointments = first :: second :: rest ->
         Js.RoundTripApi.calculateRoundTripDistance calculateDistance
           (RoundTripApi.route best)
           (match startLocation with
            | Some start => start
            | None => coordsOf first
            end)
         = Num total.
Proof.
  intros Hnum.
  set (points := match startLocation with
                 | Some start => start :: map coordsOf appointments
                 | None => map coordsOf appointments
                 end) in *.
  assert (Happ : forall x, In x appointments -> In (coordsOf x) points).
  { apply among_map. intros p Hp. unfold points.
    destruct startLocation; [now right | exact Hp]. }
  assert (Hstart : forall start, startLocation = Some start ->
                                 In start points).
  { intros start ->. now left. }
  destruct (optimizeRoundTripRoute_runs miles appointments startLocation)
    as [best [total [Hrun [Hperm [Htotal Hlong]]]]].
  exists best, total.
  rewrite (onNumbers_optimizeRoundTripRoute calculateDistance miles points
             Hnum appointments startLocation Hstart Happ).
  split; [exact Hrun|]. split; [exact Hperm|]. split; [exact Htotal|].
  intros first second rest Heq.
  rewrite (onNumbers_calculateRoundTripDistance calculateDistance miles
             points Hnum).
  - now rewrite (Hlong first second rest Heq).
  - destruct startLocation as [start|]; [now apply Hstart|].
    apply Happ. rewrite Heq. now left.
  - intros x Hx. apply Happ. now apply (Permutation_in _ Hperm).
Qed.

(** Where the distances among the origin and the stops are numbers and the
    appointments have pairwise-distinct ids, the constrained construction
    is greedy on every stop but the forced-final one: each stop before the
    last is, among the stops between it and the last, one nearest to the
    place the route is at when it is chosen; the forced-final stop comes
    last whatever its distance. *)
Theorem optimizeSingleRoute_greedy_on_numbers
  (appointments : list AppointmentData) (origin : Coordinates) (k : nat)
  (target : AppointmentData) :
  numbersAmong (origin :: map coordsOf appointments) calculateDistance miles ->
  NoDup (map id appointments) ->
  nth_error appointments k = Some target ->
  exists front,
    Js.RoundTripApi.optimizeSingleRoute calculateDistance appointments
      origin k = Normal (front ++ [target])
    /\ greedy miles origin front.
Proof.
  intros Hnum Hnodup Hk.
  rewrite (onNumbers_optimizeSingleRoute calculateDistance miles
             (origin :: map coordsOf appointments) Hnum).
  - now apply optimizeSingleRoute_greedy.
  - now left.
  - apply among_map. intros p Hp. now right.
Qed.

(** Where the distances among the starting location and the stops are
    numbers and the appointments have pairwise-distinct ids, the open-path
    route is one of the candidates of the round-trip search (the one that
    is forced to end where the open-path route ends), so the total the
    round-trip optimizer returns is never more than the round-trip distance
    of the open-path route. *)
Theorem roundTrip_never_worse_on_numbers
  (appointments : list AppointmentData) (origin : Coordinates) :
  numbersAmong (origin :: map coordsOf appointments) calculateDistance miles ->
  NoDup (map id appointments) ->
  appointments <> [] ->
  exists best total openRoute openTotal k,
    Js.RoundTripApi.optimizeRoundTripRoute calculateDistance appointments
      (Some origin) = Normal best
    /\ RoundTripApi.totalDistance best = Num total
    /\ OptimizeApi.optimizeRoute miles appointments (Some origin)
       = Normal openRoute
    /\ Js.RoundTripApi.optimizeSingleRoute calculateDistance appointments
         origin k = Normal openRoute
    /\ Js.RoundTripApi.calculateRoundTripDistance calculateDistance
         openRoute origin = Num openTotal
    /\ (total <= openTotal)%Q.
Proof.
  intros Hnum Hnodup Hne.
  set (points := origin :: map coordsOf appointments) in *.
  assert (Happ : forall x, In x appointments -> In (coordsOf x) points).
  { apply among_map. intros p Hp. now right. }
  assert (Horigin : In origin points) by now left.
  destruct (roundTrip_never_worse_than_openPath miles appointments origin
              Hnodup Hne)
    as [best [total [openRoute [k [Hrun [Htotal [Hopen [Hcand Hle]]]]]]]].
  exists best, total, openRoute,
    (RoundTripApi.calculateRoundTripDistance miles openRoute origin), k.
  rewrite (onNumbers_optimizeRoundTripRoute calculateDistance miles points
             Hnum appointments (Some origin)); auto;
    [|intros start H; injection H as <-; exact Horigin].
  rewrite (onNumbers_optimizeSingleRoute calculateDistance miles points Hnum);
    auto.
  rewrite (onNumbers_calculateRoundTripDistance calculateDistance miles
             points Hnum); auto.
  - repeat split; assumption.
  - destruct (optimizeRoute_runs miles appointments (Some origin))
      as [r [Hr Hperm]].
    rewrite Hopen in Hr. injection Hr as <-.
    intros x Hx. apply Happ. now apply (Permutation_in _ Hperm).
Qed.

End RoundTripOnNumbers.

Lemma last_at_end {A : Type} (l : list A) (a default : A) :
  nth_error l (length l - 1) = Some a -> last l default = a.
Proof.
  induction l as [|x l IH]; intros H; [discriminate H|].
  destruct l as [|y l].
  - simpl in H. now injection H.
  - replace (length (x :: y :: l) - 1)%nat
      with (S (length (y :: l) - 1))%nat in H by (simpl; lia).
    cbn [nth_error] in H. cbn [last]. now apply IH.
Qed.

(** ** The schedule on dates that may be invalid, stop by stop *)

Section JsScheduleSteps.

Variable calculateDistance : Coordinates -> Coordinates -> number.
Variable newYear : Z.
Variable travelTimePerMile : Q.

(** The clock after the travel over a distance. *)
Local Abbreviation after currentTime distance :=
  (Js.setMinutes newYear currentTime
     (Js.travelMinutes distance travelTimePerMile)).

(** The clock after a service. *)
Local Abbreviation served currentTime appointment :=
  (Js.setMinutes newYear currentTime (Some (duration appointment))).

(** The instants the round-trip walk records: the first is the clock moved
    by the travel to the first stop, each next one is the one before moved
    by the service there and then by the travel between the two, and the
    clock is left at the end of the last service. *)
Lemma js_roundTrip_walk_steps (origin : option Coordinates)
  (rest : list AppointmentData) :
  forall (previous : option AppointmentData) (currentTime : Js.Date)
         (arrivals : list Js.Date),
  exists new,
    fst (Js.RoundTripApi.walk calculateDistance newYear travelTimePerMile
           origin previous rest currentTime arrivals) = arrivals ++ new
    /\ length new = length rest
    /\ (forall first more, rest = first :: more ->
          nth_error new 0
          = Some (match previous, origin with
                  | Some before, _ =>
                      after currentTime
                        (calculateDistance (coordsOf before) (coordsOf first))
                  | None, Some start =>
                      after currentTime
                        (calculateDistance start (coordsOf first))
                  | None, None => currentTime
                  end))
    /\ (forall i a b t,
          nth_error rest i = Some a -> nth_error rest (S i) = Some b ->
          nth_error new i = Some t ->
          nth_error new (S i)
          = Some (after (served t a)
                    (calculateDistance (coordsOf a) (coordsOf b))))
    /\ (forall a t,
          nth_error rest (length rest - 1) = Some a ->
          nth_error new (length rest - 1) = Some t ->
          snd (Js.RoundTripApi.walk calculateDistance newYear
                 travelTimePerMile origin previous rest currentTime arrivals)
          = served t a).
Proof.
  induction rest as [|a rest IH]; intros previous currentTime arrivals.
  - exists []. cbn. rewrite app_nil_r. repeat split; auto.
    + intros ? ? H. discriminate H.
    + intros [|i] ? ? ? H; discriminate H.
    + intros a t H. discriminate H.
  - cbn [Js.RoundTripApi.walk].
    set (arrival :=
           match previous, origin with
           | Some before, _ =>
               after currentTime
                 (calculateDistance (coordsOf before) (coordsOf a))
           | None, Some start =>
               after currentTime (calculateDistance start (coordsOf a))
           | None, None => currentTime
           end).
    destruct (IH (Some a) (served arrival a) (arrivals ++ [arrival]))
      as [new [Hw [Hl [Hfirst [Hstep Hend]]]]].
    exists (arrival :: new). rewrite Hw, <- app_assoc.
    split; [reflexivity|]. split; [simpl; now rewrite Hl|].
    split; [|split].
    + intros first more Heq. injection Heq as <- _. reflexivity.
    + intros [|i] x b t Hx Hb Ht.
      * cbn [nth_error] in *. injection Hx as <-. injection Ht as <-.
        destruct rest as [|b' rest']; [discriminate Hb|].
        injection Hb as ->.
        now rewrite (Hfirst b rest' eq_refl).
      * cbn [nth_error] in *. now apply (Hstep i x b t).
    + intros x t Hx Ht. destruct rest as [|b rest'].
      * cbn [length Nat.sub nth_error] in Hx, Ht.
        injection Hx as <-. injection Ht as <-. cbn. reflexivity.
      * replace (length (a :: b :: rest') - 1)%nat
          with (S (length (b :: rest') - 1))%nat in Hx, Ht
          by (simpl; lia).
        cbn [nth_error] in Hx, Ht. now apply (Hend x t).
Qed.

(** The open-path walk is the round-trip walk without an origin. *)
Lemma js_openPath_walk_is_roundTrip_walk (rest : list AppointmentData) :
  forall (previous : option AppointmentData) (currentTime : Js.Date)
         (arrivals : list Js.Date),
    Js.OptimizeApi.walk calculateDistance newYear travelTimePerMile previous
      rest currentTime arrivals
    = Js.RoundTripApi.walk calculateDistance newYear travelTimePerMile None
        previous rest currentTime arrivals.
Proof.
  induction rest as [|a rest IH]; intros previous currentTime arrivals;
    [reflexivity|].
  cbn [Js.OptimizeApi.walk Js.RoundTripApi.walk]. rewrite IH.
  now destruct previous.
Qed.

(** The round-trip schedule, stop by stop, on dates that may be invalid.
    The first arrival is the start time moved by the travel from the
    origin, or the start time itself without an origin; every next arrival
    is the arrival before it moved by the service duration there and then
    by the travel between the two stops; and with an origin the return time
    is the clock reading of the last arrival moved by the last service
    duration and then by the travel back to the origin.  A travel takes
    [ceil(distance * travelTimePerMile)] minutes; moving a date is
    [setMinutes], which gives the Invalid Date from the Invalid Date, for a
    travel over a distance that is not a number and past the range of a
    date. *)
Theorem js_roundTrip_schedule_steps (route : list AppointmentData)
  (startTime : TimeOfDay) (origin : option Coordinates) :
  let arrivals :=
    Js.RoundTripApi.arrivalInstants calculateDistance newYear route startTime
      travelTimePerMile origin in
  (forall first more, route = first :: more ->
     nth_error arrivals 0
     = Some (match origin with
             | Some start =>
                 after (Js.newDate newYear startTime)
                   (calculateDistance start (coordsOf first))
             | None => Js.newDate newYear startTime
             end))
  /\ (forall i a b t,
        nth_error route i = Some a -> nth_error route (S i) = Some b ->
        nth_error arrivals i = Some t ->
        nth_error arrivals (S i)
        = Some (after (served t a)
                  (calculateDistance (coordsOf a) (coordsOf b))))
  /\ (forall start a t,
        origin = Some start ->
        nth_error route (length route - 1) = Some a ->
        nth_error arrivals (length route - 1) = Some t ->
        RoundTripApi.returnTime
          (Js.RoundTripApi.generateAppointmentTimes calculateDistance newYear
             route startTime travelTimePerMile origin)
        = Some (Js.clock
                  (after (served t a)
                     (calculateDistance (coordsOf a) start)))).
Proof.
  intros arrivals.
  destruct (js_roundTrip_walk_steps origin route None
              (Js.newDate newYear startTime) [])
    as [new [Hw [Hl [Hfirst [Hstep Hend]]]]].
  cbn [app] in Hw.
  assert (Harr : arrivals = new) by exact Hw.
  rewrite Harr. split; [|split].
  - intros first more Heq. rewrite (Hfirst first more Heq).
    now destruct origin.
  - exact Hstep.
  - intros start a t -> Ha Ht.
    specialize (Hend a t Ha Ht).
    unfold Js.RoundTripApi.generateAppointmentTimes.
    destruct (Js.RoundTripApi.walk calculateDistance newYear
                travelTimePerMile (Some start) None route
                (Js.newDate newYear startTime) [])
      as [recorded finalTime].
    cbn [snd] in Hend. subst finalTime.
    destruct route as [|first more]; [discriminate Ha|].
    cbn [RoundTripApi.returnTime].
    rewrite (last_at_end (first :: more) a first Ha).
    reflexivity.
Qed.

(** The open-path schedule, stop by stop, on dates that may be invalid.
    The first arrival is the start time itself: no travel to the first stop
    is counted, whether or not the route was built from a starting
    location.  Every next arrival is the arrival before it moved by the
    service duration there and then by the travel between the two stops,
    the Invalid Date when one of the two moves gives it. *)
Theorem js_openPath_schedule_steps (route : list AppointmentData)
  (startTime : TimeOfDay) :
  let arrivals :=
    Js.OptimizeApi.arrivalInstants calculateDistance newYear route startTime
      travelTimePerMile in
  (route <> [] -> nth_error arrivals 0 = Some (Js.newDate newYear startTime))
  /\ (forall i a b t,
        nth_error route i = Some a -> nth_error route (S i) = Some b ->
        nth_error arrivals i = Some t ->
        nth_error arrivals (S i)
        = Some (after (served t a)
                  (calculateDistance (coordsOf a) (coordsOf b)))).
Proof.
  intros arrivals.
  destruct (js_roundTrip_walk_steps None route None
              (Js.newDate newYear startTime) [])
    as [new [Hw [Hl [Hfirst [Hstep _]]]]].
  cbn [app] in Hw.
  assert (Harr : arrivals = new).
  { unfold arrivals, Js.OptimizeApi.arrivalInstants.
    now rewrite js_openPath_walk_is_roundTrip_walk. }
  rewrite Harr. split.
  - intros Hne. destruct route as [|first more]; [congruence|].
    exact (Hfirst first more eq_refl).
  - exact Hstep.
Qed.

End JsScheduleSteps.

(** ** The round-trip page *)

Lemma last_coordsOf (route : list AppointmentData) (first : AppointmentData)
  (default : Coordinates) :
  route <> [] ->
  last (map coordsOf route) default = coordsOf (last route first).
Proof.
  induction route as [|a route IH]; intros Hne; [congruence|].
  destruct route as [|b route]; [reflexivity|].
  change (last (map coordsOf (a :: b :: route)) default)
    with (last (map coordsOf (b :: route)) default).
  change (last (a :: b :: route) first) with (last (b :: route) first).
  apply IH. discriminate.
Qed.

Section PageFacts.

Variable calculateHaversineDistance : Coordinates -> Coordinates -> Q.
Variable distanceApi : nat -> DrivingClient.FetchOutcome.

Local Abbreviation outbound :=
  (RoundTripPage.outbound calculateHaversineDistance distanceApi).
Local Abbreviation metrics :=
  (RoundTripPage.metrics calculateHaversineDistance distanceApi).
Local Abbreviation schedule :=
  (RoundTripPage.schedule calculateHaversineDistance distanceApi).
Local Abbreviation optimizeAppointments :=
  (RoundTripPage.optimizeAppointments calculateHaversineDistance distanceApi).

Lemma outbound_turn (a b : Coordinates) (rest : list Coordinates)
  (distance time : number) (sent : RoundTripPage.Requests) :
  outbound (a :: b :: rest) distance time sent
  = let leg :=
      DrivingClient.calculateDrivingDistance calculateHaversineDistance a b
        (distanceApi (length sent)) in
    outbound (b :: rest)
      (plus distance (toNumber (DrivingClient.distance leg)))
      (plus time (toNumber (DrivingClient.duration leg)))
      (sent ++ [(a, b)]).
Proof. reflexivity. Qed.

(** The loop over the legs sends one request per leg, in order. *)
Lemma outbound_sent (routeCoords : list Coordinates) :
  forall (distance time : number) (sent : RoundTripPage.Requests),
  exists distance' time',
    outbound routeCoords distance time sent
    = (distance', time', sent ++ legs routeCoords).
Proof.
  induction routeCoords as [|a routeCoords IH]; intros distance time sent.
  - exists distance, time. simpl. now rewrite app_nil_r.
  - destruct routeCoords as [|b routeCoords].
    + exists distance, time. simpl. now rewrite app_nil_r.
    + rewrite outbound_turn. cbv zeta.
      match goal with
      | |- context [outbound (b :: routeCoords) ?d ?t ?s] =>
          destruct (IH d t s) as [d' [t' H]]
      end.
      exists d', t'. rewrite H. cbn [legs]. now rewrite <- app_assoc.
Qed.

Lemma schedule_runs (startingLocation : RoundTripPage.StartingLocation.t)
  (rest : list AppointmentData) :
  forall (previous : option AppointmentData) (currentTime : option Date)
         (scheduled : list RoundTripPage.Scheduled.t)
         (sent : RoundTripPage.Requests),
  exists entries currentTime',
    schedule startingLocation previous rest currentTime scheduled sent
    = (scheduled ++ entries, currentTime',
       sent ++ scheduleLegs startingLocation previous rest)
    /\ map RoundTripPage.Scheduled.appointment entries = rest
    /\ Forall (fun entry =>
                 RoundTripPage.Scheduled.isStart entry = false
                 /\ RoundTripPage.Scheduled.coordinates entry
                    = coordsOf (RoundTripPage.Scheduled.appointment entry))
         entries.
Proof.
  induction rest as [|a rest IH]; intros previous currentTime scheduled sent.
  - exists [], currentTime. repeat split; [|constructor].
    cbn [RoundTripPage.schedule]. rewrite app_nil_r.
    unfold scheduleLegs, routeCoordsOf.
    destruct previous; [|destruct (startOf startingLocation)];
      simpl; now rewrite app_nil_r.
  - cbn [RoundTripPage.schedule].
    set (step := match previous with
                 | Some _ => _
                 | None => _
                 end).
    assert (Hstep : exists t,
               step = (t, sent ++ match previous with
                                  | Some before =>
                                      [(coordsOf before, coordsOf a)]
                                  | None =>
                                      match startOf startingLocation with
                                      | Some start => [(start, coordsOf a)]
                                      | None => []
                                      end
                                  end)).
    { unfold step, startOf. destruct previous as [before|].
      - cbn [RoundTripPage.drive]. eexists. reflexivity.
      - destruct (RoundTripPage.StartingLocation.isSet startingLocation).
        + cbn [RoundTripPage.drive]. eexists. reflexivity.
        + exists currentTime. now rewrite app_nil_r. }
    destruct Hstep as [t ->].
    match goal with
    | |- context [schedule _ _ _ ?ct ?sch ?snt] =>
        destruct (IH (Some a) ct sch snt) as [entries [t' [H [Hmap Hall]]]]
    end.
    eexists (_ :: entries), t'. rewrite H.
    repeat split.
    + rewrite <- !app_assoc. cbn [app]. do 2 f_equal.
      unfold scheduleLegs, routeCoordsOf.
      destruct previous as [before|]; [reflexivity|].
      destruct (startOf startingLocation); [reflexivity|].
      cbn [map]. destruct rest; reflexivity.
    + cbn [map RoundTripPage.Scheduled.appointment]. now rewrite Hmap.
    + constructor; [now split | exact Hall].
Qed.

Lemma legs_length (points : list Coordinates) :
  length (legs points) = (length points - 1)%nat.
Proof.
  induction points as [|a points IH]; [reflexivity|].
  destruct points as [|b points]; [reflexivity|].
  change (legs (a :: b :: points)) with ((a, b) :: legs (b :: points)).
  cbn [length] in *. rewrite IH. lia.
Qed.

(** The metrics block: its requests, and whether it throws. *)
Lemma metrics_runs (startingLocation : RoundTripPage.StartingLocation.t)
  (route : list AppointmentData) :
  route <> [] ->
  let routeCoords := routeCoordsOf startingLocation route in
  exists result,
    metrics startingLocation route
    = (result, legs routeCoords ++ closingLeg routeCoords)
    /\ (result = TypeError
        <-> closingLegUnanswered distanceApi routeCoords = true).
Proof.
  intros Hne routeCoords. unfold RoundTripPage.metrics.
  destruct route as [|first route]; [congruence|].
  change (0 <? length (first :: route))%nat with true. cbv iota.
  assert (Hcoords :
            (if RoundTripPage.StartingLocation.isSet startingLocation
             then RoundTripPage.StartingLocation.coordinates startingLocation
                  :: map coordsOf (first :: route)
             else map coordsOf (first :: route)) = routeCoords).
  { unfold routeCoords, routeCoordsOf, startOf.
    now destruct (RoundTripPage.StartingLocation.isSet startingLocation). }
  rewrite Hcoords.
  destruct (outbound_sent routeCoords (Num 0) (Num 0) [])
    as [distance [time Hout]].
  rewrite Hout. cbn [app].
  unfold closingLeg, closingLegUnanswered.
  destruct routeCoords as [|a [|b more]] eqn:Hrc.
  - eexists. split; [reflexivity|]. split; discriminate.
  - eexists. split; [reflexivity|]. split; discriminate.
  - rewrite <- Hrc. cbn [RoundTripPage.drive].
    rewrite legs_length.
    destruct (distanceApi (length routeCoords - 1)) as [|[|] [leg|]];
      cbn [DrivingClient.calculateDrivingDistance DrivingClient.distance].
    + eexists. split; [reflexivity|]. split; discriminate.
    + destruct (DrivingClient.distance leg).
      * eexists. split; [reflexivity|]. split; discriminate.
      * eexists. split; [reflexivity|]. split; reflexivity.
    + eexists. split; [reflexivity|]. split; discriminate.
    + eexists. split; [reflexivity|]. split; discriminate.
    + eexists. split; [reflexivity|]. split; discriminate.
Qed.

(** The entries the page holds before the loop over the route. *)
Local Abbreviation opening startingLocation startTime :=
  (if RoundTripPage.StartingLocation.isSet startingLocation
   then [RoundTripPage.startingPoint startingLocation
           (Some (newDate startTime))]
   else []).

Lemma optimizeAppointments_empty (appointments : list AppointmentData)
  (startingLocation : RoundTripPage.StartingLocation.t)
  (startTime : TimeOfDay) (returnTime : option string)
  (matrix : Client.FetchOutcome) :
  Client.optimizeRouteWithDriving calculateHaversineDistance appointments
    (startOf startingLocation) matrix = Normal [] ->
  optimizeAppointments appointments startingLocation startTime returnTime
    matrix
  = (Normal
       {| RoundTripPage.optimizedRoute := opening startingLocation startTime;
          RoundTripPage.scheduledAppointments :=
            opening startingLocation startTime;
          RoundTripPage.totalDistance := Num 0;
          RoundTripPage.returnTime :=
            if RoundTripPage.StartingLocation.isSet startingLocation
            then Some (toLocaleTimeString (newDate startTime))
            else returnTime |}, []).
Proof.
  intros Hopt. unfold RoundTripPage.optimizeAppointments.
  unfold startOf in Hopt. rewrite Hopt.
  now destruct (RoundTripPage.StartingLocation.isSet startingLocation).
Qed.

Lemma optimizeAppointments_runs (appointments : list AppointmentData)
  (startingLocation : RoundTripPage.StartingLocation.t)
  (startTime : TimeOfDay) (returnTime : option string)
  (matrix : Client.FetchOutcome) (route : list AppointmentData) :
  Client.optimizeRouteWithDriving calculateHaversineDistance appointments
    (startOf startingLocation) matrix = Normal route ->
  route <> [] ->
  let routeCoords := routeCoordsOf startingLocation route in
  if closingLegUnanswered distanceApi routeCoords
  then
    optimizeAppointments appointments startingLocation startTime returnTime
      matrix
    = (TypeError, legs routeCoords ++ closingLeg routeCoords)
  else
    exists entries total estimatedReturnTime,
      optimizeAppointments appointments startingLocation startTime
        returnTime matrix
      = (Normal
           {| RoundTripPage.optimizedRoute :=
                opening startingLocation startTime ++ entries;
              RoundTripPage.scheduledAppointments :=
                opening startingLocation startTime ++ entries;
              RoundTripPage.totalDistance := total;
              RoundTripPage.returnTime :=
                if RoundTripPage.StartingLocation.isSet startingLocation
                then Some estimatedReturnTime
                else returnTime |},
         (legs routeCoords ++ closingLeg routeCoords)
         ++ legs routeCoords
         ++ (if RoundTripPage.StartingLocation.isSet startingLocation
             then closingLeg routeCoords
             else []))
      /\ map RoundTripPage.Scheduled.appointment entries = route
      /\ Forall (fun entry =>
                   RoundTripPage.Scheduled.isStart entry = false
                   /\ RoundTripPage.Scheduled.coordinates entry
                      = coordsOf (RoundTripPage.Scheduled.appointment entry))
           entries.
Proof.
  intros Hopt Hne routeCoords.
  unfold RoundTripPage.optimizeAppointments.
  unfold startOf in Hopt. rewrite Hopt.
  destruct (metrics_runs startingLocation route Hne) as [result [Hm Hiff]].
  fold routeCoords in Hm, Hiff. rewrite Hm.
  destruct (closingLegUnanswered distanceApi routeCoords).
  - destruct result as [[d t]|]; [|reflexivity].
    destruct Hiff as [_ Hiff]. now specialize (Hiff eq_refl).
  - destruct result as [[d t]|];
      [|destruct Hiff as [Hiff _]; now specialize (Hiff eq_refl)].
    match goal with
    | |- context [schedule _ _ _ ?ct ?sch ?snt] =>
        destruct (schedule_runs startingLocation route None ct sch snt)
          as [entries [t' [H [Hmap Hall]]]]
    end.
    rewrite H. clear H.
    destruct route as [|first more]; [congruence|].
    unfold scheduleLegs. fold routeCoords.
    destruct (RoundTripPage.StartingLocation.isSet startingLocation) eqn:Hset.
    + cbn [RoundTripPage.drive].
      eexists entries, d, _. split; [|now split].
      f_equal. rewrite <- !app_assoc. do 3 f_equal.
      unfold routeCoords, routeCoordsOf, startOf. rewrite Hset.
      cbn [map closingLeg]. f_equal. f_equal.
      change (last (RoundTripPage.StartingLocation.coordinates
                      startingLocation :: coordsOf first
                                       :: map coordsOf more)
                (RoundTripPage.StartingLocation.coordinates startingLocation))
        with (last (map coordsOf (first :: more))
                (RoundTripPage.StartingLocation.coordinates
                   startingLocation)).
      symmetry. apply last_coordsOf. discriminate.
    + eexists entries, d, EmptyString. split; [|now split].
      now rewrite app_nil_r.
Qed.

(** With a starting location the page asks [/api/distance] for every leg
    of the round trip twice, in order: once for the total distance, once
    for the schedule.  Without one it asks for the legs between the stops
    and the leg back to the first stop, then for the legs between the stops
    again.  An empty route asks for nothing. *)
Theorem optimizeAppointments_requests (appointments : list AppointmentData)
  (startingLocation : RoundTripPage.StartingLocation.t)
  (startTime : TimeOfDay) (returnTime : option string)
  (matrix : Client.FetchOutcome) (page : RoundTripPage.Page) :
  fst (optimizeAppointments appointments startingLocation startTime
         returnTime matrix) = Normal page ->
  exists route,
    Client.optimizeRouteWithDriving calculateHaversineDistance appointments
      (startOf startingLocation) matrix = Normal route
    /\ let routeCoords := routeCoordsOf startingLocation route in
       let tour := legs routeCoords ++ closingLeg routeCoords in
       let sent :=
         snd (optimizeAppointments appointments startingLocation startTime
                returnTime matrix) in
       (route = [] -> sent = [])
       /\ (route <> [] ->
           sent = if RoundTripPage.StartingLocation.isSet startingLocation
                  then tour ++ tour
                  else tour ++ legs routeCoords)
       /\ (route <> [] ->
           RoundTripPage.StartingLocation.isSet startingLocation = true ->
           length sent = (2 * (length route + 1))%nat).
Proof.
  intros Hpage.
  destruct (Client.optimizeRouteWithDriving calculateHaversineDistance
              appointments (startOf startingLocation) matrix)
    as [route|] eqn:Hopt.
  2:{ unfold RoundTripPage.optimizeAppointments in Hpage.
      unfold startOf in Hopt. rewrite Hopt in Hpage. discriminate Hpage. }
  exists route. split; [reflexivity|]. cbv zeta.
  destruct route as [|first more].
  - rewrite (optimizeAppointments_empty _ _ _ _ _ Hopt).
    repeat split; congruence.
  - assert (Hne : first :: more <> []) by discriminate.
    pose proof (optimizeAppointments_runs appointments startingLocation
                  startTime returnTime matrix (first :: more) Hopt Hne)
      as Hrun.
    cbv zeta in Hrun.
    destruct (closingLegUnanswered distanceApi
                (routeCoordsOf startingLocation (first :: more))).
    + rewrite Hrun in Hpage. discriminate Hpage.
    + destruct Hrun as [entries [total [ret [Hrun _]]]].
      rewrite Hrun. cbn [snd].
      split; [congruence|]. split.
      * intros _.
        destruct (RoundTripPage.StartingLocation.isSet startingLocation);
          [now rewrite <- !app_assoc | now rewrite app_nil_r].
      * intros _ Hset. rewrite Hset.
        unfold routeCoordsOf, startOf. rewrite Hset.
        rewrite !length_app, legs_length.
        cbn [map closingLeg length]. rewrite length_map. lia.
Qed.

(** When the page's own optimization runs to its end, the schedule it
    shows is the starting point (when one is set, at the start time)
    followed by one entry per stop of the optimized route, in route order,
    each with the stop's own coordinates.  The return time is written only
    when a starting location is set; otherwise the one shown before
    stays. *)
Theorem optimizeAppointments_schedule (appointments : list AppointmentData)
  (startingLocation : RoundTripPage.StartingLocation.t)
  (startTime : TimeOfDay) (returnTime : option string)
  (matrix : Client.FetchOutcome) (page : RoundTripPage.Page) :
  fst (optimizeAppointments appointments startingLocation startTime
         returnTime matrix) = Normal page ->
  exists route entries,
    Client.optimizeRouteWithDriving calculateHaversineDistance appointments
      (startOf startingLocation) matrix = Normal route
    /\ RoundTripPage.optimizedRoute page
       = (if RoundTripPage.StartingLocation.isSet startingLocation
          then [RoundTripPage.startingPoint startingLocation
                  (Some (newDate startTime))]
          else []) ++ entries
    /\ RoundTripPage.scheduledAppointments page
       = RoundTripPage.optimizedRoute page
    /\ map RoundTripPage.Scheduled.appointment entries = route
    /\ Forall (fun entry =>
                 RoundTripPage.Scheduled.isStart entry = false
                 /\ RoundTripPage.Scheduled.coordinates entry
                    = coordsOf (RoundTripPage.Scheduled.appointment entry))
         entries
    /\ (RoundTripPage.StartingLocation.isSet startingLocation = false ->
        RoundTripPage.returnTime page = returnTime)
    /\ (RoundTripPage.StartingLocation.isSet startingLocation = true ->
        RoundTripPage.returnTime page <> None).
Proof.
  intros Hpage.
  destruct (Client.optimizeRouteWithDriving calculateHaversineDistance
              appointments (startOf startingLocation) matrix)
    as [route|] eqn:Hopt.
  2:{ unfold RoundTripPage.optimizeAppointments in Hpage.
      unfold startOf in Hopt. rewrite Hopt in Hpage. discriminate Hpage. }
  exists route.
  destruct route as [|first more].
  - rewrite (optimizeAppointments_empty _ _ _ _ _ Hopt) in Hpage.
    cbn [fst] in Hpage. injection Hpage as <-.
    exists []. cbn [RoundTripPage.optimizedRoute
                     RoundTripPage.scheduledAppointments
                     RoundTripPage.returnTime].
    rewrite app_nil_r. repeat split; auto.
    + intros ->. reflexivity.
    + intros ->. discriminate.
  - assert (Hne : first :: more <> []) by discriminate.
    pose proof (optimizeAppointments_runs appointments startingLocation
                  startTime returnTime matrix (first :: more) Hopt Hne)
      as Hrun.
    cbv zeta in Hrun.
    destruct (closingLegUnanswered distanceApi
                (routeCoordsOf startingLocation (first :: more))).
    + rewrite Hrun in Hpage. discriminate Hpage.
    + destruct Hrun as [entries [total [ret [Hrun [Hmap Hall]]]]].
      rewrite Hrun in Hpage. cbn [fst] in Hpage. injection Hpage as <-.
      exists entries. cbn [RoundTripPage.optimizedRoute
                            RoundTripPage.scheduledAppointments
                            RoundTripPage.returnTime].
      repeat split; auto.
      * intros ->. reflexivity.
      * intros ->. discriminate.
Qed.

(** The page gives up its own optimization, and asks the server to
    optimize instead, in exactly two cases: the optimizer throws, or the
    route has a leg back to close the round trip and the answer to the
    request for that leg is OK but carries no distance. *)
Theorem optimizeAppointments_gives_up (appointments : list AppointmentData)
  (startingLocation : RoundTripPage.StartingLocation.t)
  (startTime : TimeOfDay) (returnTime : option string)
  (matrix : Client.FetchOutcome) :
  fst (optimizeAppointments appointments startingLocation startTime
         returnTime matrix) = TypeError
  <-> (Client.optimizeRouteWithDriving calculateHaversineDistance
         appointments (startOf startingLocation) matrix = TypeError
       \/ exists route,
            Client.optimizeRouteWithDriving calculateHaversineDistance
              appointments (startOf startingLocation) matrix = Normal route
            /\ route <> []
            /\ closingLegUnanswered distanceApi
                 (routeCoordsOf startingLocation route) = true).
Proof.
  destruct (Client.optimizeRouteWithDriving calculateHaversineDistance
              appointments (startOf startingLocation) matrix)
    as [route|] eqn:Hopt.
  2:{ split; [now left|]. intros _.
      unfold RoundTripPage.optimizeAppointments.
      unfold startOf in Hopt. now rewrite Hopt. }
  destruct route as [|first more].
  - rewrite (optimizeAppointments_empty _ _ _ _ _ Hopt). cbn [fst].
    split; [discriminate|].
    intros [H|[route [H [Hne _]]]]; [discriminate H|].
    injection H as <-. congruence.
  - assert (Hne : first :: more <> []) by discriminate.
    pose proof (optimizeAppointments_runs appointments startingLocation
                  startTime returnTime matrix (first :: more) Hopt Hne)
      as Hrun.
    cbv zeta in Hrun.
    destruct (closingLegUnanswered distanceApi
                (routeCoordsOf startingLocation (first :: more))) eqn:Hun.
    + rewrite Hrun. cbn [fst]. split; [|reflexivity].
      intros _. right. exists (first :: more). now repeat split.
    + destruct Hrun as [entries [total [ret [Hrun _]]]].
      rewrite Hrun. cbn [fst]. split; [discriminate|].
      intros [H|[route [H [_ Htrue]]]]; [discriminate H|].
      injection H as <-. congruence.
Qed.

(** *** No answer from the distance route *)

Section Offline.

Hypothesis offline : forall k, fallsBack (distanceApi k).

Lemma drive_offline (origin destination : Coordinates) (k : nat) :
  DrivingClient.calculateDrivingDistance calculateHaversineDistance origin
    destination (distanceApi k)
  = {| DrivingClient.distance :=
         Some (calculateHaversineDistance origin destination);
       DrivingClient.duration :=
         Some (calculateHaversineDistance origin destination * 3) |}.
Proof.
  destruct (offline k) as [-> | [[json ->] | ->]]; reflexivity.
Qed.

Lemma outbound_offline (route : list AppointmentData) :
  forall (distance time : Q) (sent : RoundTripPage.Requests),
  exists time',
    outbound (map coordsOf route) (Num distance) (Num time) sent
    = (Num (RoundTripApi.addLegs calculateHaversineDistance route distance),
       time', sent ++ legs (map coordsOf route)).
Proof.
  induction route as [|a route IH]; intros distance time sent.
  - eexists. simpl. now rewrite app_nil_r.
  - destruct route as [|b route].
    + eexists. simpl. now rewrite app_nil_r.
    + change (map coordsOf (a :: b :: route))
        with (coordsOf a :: coordsOf b :: map coordsOf route).
      rewrite outbound_turn. cbv zeta. rewrite drive_offline.
      cbn [DrivingClient.distance DrivingClient.duration toNumber plus].
      change (coordsOf b :: map coordsOf route)
        with (map coordsOf (b :: route)).
      match goal with
      | |- context [outbound _ (Num ?d) (Num ?t) ?s] =>
          destruct (IH d t s) as [t' H]
      end.
      exists t'. rewrite H.
      change (legs (coordsOf a :: map coordsOf (b :: route)))
        with ((coordsOf a, coordsOf b) :: legs (map coordsOf (b :: route))).
      now rewrite <- app_assoc.
Qed.

Lemma schedule_offline (startingLocation : RoundTripPage.StartingLocation.t)
  (rest : list AppointmentData) :
  forall (previous : option AppointmentData) (currentTime : Date)
         (scheduled : list RoundTripPage.Scheduled.t)
         (sent : RoundTripPage.Requests) (arrivals : list Date),
  exists entries new sent',
    schedule startingLocation previous rest (Some currentTime) scheduled sent
    = (scheduled ++ entries,
       Some (snd (RoundTripApi.walk calculateHaversineDistance 3
                    (startOf startingLocation) previous rest currentTime
                    arrivals)),
       sent')
    /\ fst (RoundTripApi.walk calculateHaversineDistance 3
              (startOf startingLocation) previous rest currentTime arrivals)
       = arrivals ++ new
    /\ map RoundTripPage.Scheduled.suggestedTime entries
       = map toLocaleTimeString new
    /\ Forall (fun entry => RoundTripPage.Scheduled.isStart entry = false)
         entries.
Proof.
  induction rest as [|a rest IH];
    intros previous currentTime scheduled sent arrivals.
  - exists [], [], sent. cbn [RoundTripPage.schedule RoundTripApi.walk fst snd].
    rewrite !app_nil_r. repeat split. constructor.
  - cbn [RoundTripPage.schedule RoundTripApi.walk].
    set (arrival := match previous, startOf startingLocation with
                    | Some before, _ => _
                    | None, Some start => _
                    | None, None => currentTime
                    end).
    set (step := match previous with
                 | Some _ => _
                 | None => _
                 end).
    assert (Hstep : exists sent', step = (Some arrival, sent')).
    { unfold step, arrival, startOf. destruct previous as [before|].
      - cbn [RoundTripPage.drive]. rewrite drive_offline.
        eexists. reflexivity.
      - destruct (RoundTripPage.StartingLocation.isSet startingLocation).
        + cbn [RoundTripPage.drive]. rewrite drive_offline.
          eexists. reflexivity.
        + eexists. reflexivity. }
    destruct Hstep as [sent1 ->].
    cbn [RoundTripPage.plusMinutes RoundTripPage.clock].
    match goal with
    | |- context [schedule _ _ _ (Some ?ct) ?sch ?snt] =>
        destruct (IH (Some a) ct sch snt (arrivals ++ [arrival]))
          as [entries [new [sent' [H [Hwalk [Htimes Hall]]]]]]
    end.
    eexists (_ :: entries), (arrival :: new), sent'.
    rewrite H. unfold addMinutes in *. rewrite Hwalk.
    rewrite <- !app_assoc. cbn [app].
    repeat split.
    + cbn [map RoundTripPage.Scheduled.suggestedTime]. now rewrite Htimes.
    + constructor; [reflexivity | exact Hall].
Qed.

Lemma closingLeg_answered (routeCoords : list Coordinates) :
  closingLegUnanswered distanceApi routeCoords = false.
Proof.
  unfold closingLegUnanswered.
  destruct routeCoords as [|a [|b more]]; try reflexivity.
  destruct (offline (length (a :: b :: more) - 1))
    as [-> | [[json ->] | ->]]; reflexivity.
Qed.

Lemma metrics_offline (startingLocation : RoundTripPage.StartingLocation.t)
  (route : list AppointmentData) :
  route <> [] ->
  exists distance time sent,
    metrics startingLocation route = (Normal (distance, time), sent)
    /\ forall start,
         startOf startingLocation = Some start ->
         distance = Num (RoundTripApi.calculateRoundTripDistance
                           calculateHaversineDistance route start).
Proof.
  intros Hne.
  destruct (startOf startingLocation) as [start|] eqn:Hstart.
  - unfold RoundTripPage.metrics.
    destruct route as [|first more]; [congruence|].
    change (0 <? length (first :: more))%nat with true. cbv iota.
    unfold startOf in Hstart.
    destruct (RoundTripPage.StartingLocation.isSet startingLocation);
      [|discriminate Hstart].
    injection Hstart as Hstart. rewrite Hstart.
    change (map coordsOf (first :: more))
      with (coordsOf first :: map coordsOf more).
    rewrite outbound_turn. cbv zeta. rewrite drive_offline.
    cbn [DrivingClient.distance DrivingClient.duration toNumber plus].
    change (coordsOf first :: map coordsOf more)
      with (map coordsOf (first :: more)).
    match goal with
    | |- context [outbound _ (Num ?d) (Num ?t) ?s] =>
        destruct (outbound_offline (first :: more) d t s) as [t' H]
    end.
    rewrite H. cbn [RoundTripPage.drive]. rewrite drive_offline.
    cbn [DrivingClient.distance DrivingClient.duration].
    eexists _, _, _. split; [reflexivity|].
    intros start' Hstart'. injection Hstart' as <-.
    cbn [plus]. unfold RoundTripApi.calculateRoundTripDistance.
    do 2 f_equal. f_equal.
    change (last (start :: map coordsOf (first :: more)) start)
      with (last (map coordsOf (first :: more)) start).
    apply last_coordsOf. discriminate.
  - destruct (metrics_runs startingLocation route Hne) as [result [Hm Hiff]].
    rewrite closingLeg_answered in Hiff.
    destruct result as [[d t]|].
    + exists d, t. eexists. split; [exact Hm|]. intros start Hs.
      discriminate Hs.
    + destruct Hiff as [Hiff _]. now specialize (Hiff eq_refl).
Qed.

(** When no request to [/api/distance] is answered, the page computes
    every leg by itself and ends with the figures the round-trip route of
    the server computes for the route the optimizer returned: the same
    suggested time at every stop and, with a starting location, the same
    total distance and, for a route that is not empty, the same return
    time. *)
Theorem optimizeAppointments_offline (appointments : list AppointmentData)
  (startingLocation : RoundTripPage.StartingLocation.t)
  (startTime : TimeOfDay) (returnTime : option string)
  (matrix : Client.FetchOutcome) (route : list AppointmentData) :
  Client.optimizeRouteWithDriving calculateHaversineDistance appointments
    (startOf startingLocation) matrix = Normal route ->
  let server :=
    RoundTripApi.generateAppointmentTimes calculateHaversineDistance route
      startTime 3 (startOf startingLocation) in
  exists page,
    fst (optimizeAppointments appointments startingLocation startTime
           returnTime matrix) = Normal page
    /\ map RoundTripPage.Scheduled.suggestedTime
         (filter (fun entry => negb (RoundTripPage.Scheduled.isStart entry))
            (RoundTripPage.optimizedRoute page))
       = RoundTripApi.times server
    /\ (forall start,
          startOf startingLocation = Some start ->
          RoundTripPage.totalDistance page
          = Num (RoundTripApi.calculateRoundTripDistance
                   calculateHaversineDistance route start)
          /\ (route <> [] ->
              RoundTripPage.returnTime page = RoundTripApi.returnTime server)).
Proof.
  intros Hopt server.
  unfold RoundTripPage.optimizeAppointments.
  pose proof Hopt as Hopt'. unfold startOf in Hopt'. rewrite Hopt'.
  clear Hopt'.
  destruct route as [|first more].
  - cbn [RoundTripPage.metrics length Nat.ltb Nat.leb RoundTripPage.schedule].
    eexists. split; [reflexivity|].
    cbn [RoundTripPage.optimizedRoute RoundTripPage.totalDistance fst].
    split.
    + now destruct (RoundTripPage.StartingLocation.isSet startingLocation).
    + intros start Hstart. split; [reflexivity | congruence].
  - assert (Hne : first :: more <> []) by discriminate.
    destruct (metrics_offline startingLocation (first :: more) Hne)
      as [distance [time [sent [Hm Htotal]]]].
    rewrite Hm.
    match goal with
    | |- context [schedule _ _ _ (Some ?ct) ?sch ?snt] =>
        destruct (schedule_offline startingLocation (first :: more) None
                    ct sch snt [])
          as [entries [new [sent' [H [Hwalk [Htimes Hall]]]]]]
    end.
    rewrite H. clear H. cbn [app] in Hwalk.
    assert (Hserver : RoundTripApi.times server
                      = map toLocaleTimeString new).
    { unfold server, RoundTripApi.generateAppointmentTimes.
      destruct (RoundTripApi.walk calculateHaversineDistance 3
                  (startOf startingLocation) None (first :: more)
                  (newDate startTime) []) as [arrivals finish].
      cbn [fst] in Hwalk. subst arrivals. reflexivity. }
    assert (Hfilter : forall l,
               Forall (fun entry =>
                         RoundTripPage.Scheduled.isStart entry = false) l ->
               filter (fun entry =>
                         negb (RoundTripPage.Scheduled.isStart entry)) l
               = l).
    { induction l as [|x l IHl]; intros Hl; [reflexivity|].
      inversion Hl as [|? ? Hx Hl']; subst. cbn [filter]. rewrite Hx.
      cbn [negb]. now rewrite IHl. }
    destruct (RoundTripPage.StartingLocation.isSet startingLocation)
      eqn:Hset.
    + cbn [RoundTripPage.drive]. rewrite drive_offline.
      eexists. split; [reflexivity|].
      cbn [RoundTripPage.optimizedRoute RoundTripPage.totalDistance
             RoundTripPage.returnTime fst].
      split.
      * cbn [app filter RoundTripPage.startingPoint
               RoundTripPage.Scheduled.isStart negb].
        rewrite Hfilter by exact Hall. now rewrite Htimes, Hserver.
      * intros start Hstart. split; [now apply Htotal|]. intros _.
        unfold server, RoundTripApi.generateAppointmentTimes.
        destruct (RoundTripApi.walk calculateHaversineDistance 3
                    (startOf startingLocation) None (first :: more)
                    (newDate startTime) []) as [arrivals finish].
        rewrite Hstart. cbn [snd RoundTripApi.returnTime].
        unfold startOf in Hstart. rewrite Hset in Hstart.
        injection Hstart as ->. reflexivity.
    + eexists. split; [reflexivity|].
      cbn [RoundTripPage.optimizedRoute RoundTripPage.totalDistance
             RoundTripPage.returnTime fst].
      split.
      * cbn [app]. rewrite Hfilter by exact Hall.
        now rewrite Htimes, Hserver.
      * intros start Hstart. unfold startOf in Hstart.
        rewrite Hset in Hstart. discriminate Hstart.
Qed.

End Offline.

End PageFacts.

(** * Part V: the further properties on sample data *)

Lemma sample_matrix_square : square 4 Sample.matrix.
Proof.
  split; [reflexivity|]. repeat constructor.
Qed.

Lemma unreachable_fallsBack : forall k, fallsBack (Sample.unreachable k).
Proof.
  intros k. now left.
Qed.

(** The page on the sample: the optimizer returns a2, a3, a1 and the
    page shows the schedule of the round-trip route of the server. *)
Example sample_page :
  RoundTripPage.optimizeAppointments Sample.taxicab Sample.unreachable
    Sample.stops Sample.startingLocation Sample.nine None Client.Rejected
  = (Normal Sample.page,
     [ (Sample.home, coordsOf Sample.a2);
       (coordsOf Sample.a2, coordsOf Sample.a3);
       (coordsOf Sample.a3, coordsOf Sample.a1);
       (coordsOf Sample.a1, Sample.home);
       (Sample.home, coordsOf Sample.a2);
       (coordsOf Sample.a2, coordsOf Sample.a3);
       (coordsOf Sample.a3, coordsOf Sample.a1);
       (coordsOf Sample.a1, Sample.home) ]).
Proof.
  vm_compute. reflexivity.
Qed.

Lemma optimize_POST_ignores_zero_start_witness :
  OptimizeHandler.startingLocation Sample.optimizeRequest = Some Sample.home
  /\ (lat Sample.home == 0 \/ lng Sample.home == 0)%Q
  /\ OptimizeHandler.POST Sample.taxicab (Some "user"%string)
       (Some Sample.optimizeRequest) Sample.stops
     = OptimizeHandler.POST Sample.taxicab (Some "user"%string)
         (Some {| OptimizeHandler.startTime :=
                    OptimizeHandler.startTime Sample.optimizeRequest;
                  OptimizeHandler.startingLocation := None |})
         Sample.stops.
Proof.
  split; [reflexivity|]. split; [left; reflexivity|].
  apply (optimize_POST_ignores_zero_start Sample.taxicab
           (Some "user"%string) Sample.optimizeRequest Sample.home
           Sample.stops).
  - reflexivity.
  - left. reflexivity.
Defined.

Lemma optimize_POST_success_witness :
  "user"%string <> ""%string
  /\ Sample.stops <> []
  /\ exists result route,
       fst (OptimizeHandler.POST Sample.taxicab (Some "user"%string)
              (Some Sample.optimizeRequest) Sample.stops)
       = {| OptimizeHandler.Reply.body :=
              OptimizeHandler.Reply.Success result;
            OptimizeHandler.Reply.status := 200 |}
       /\ map OptimizeHandler.Reply.appointment
            (OptimizeHandler.Reply.optimizedRoute result) = route
       /\ Permutation route Sample.stops.
Proof.
  split; [discriminate|]. split; [discriminate|].
  destruct (optimize_POST_success Sample.taxicab "user"
              Sample.optimizeRequest Sample.stops)
    as [result [route [Hpost [_ [Hmap [Hperm _]]]]]].
  - discriminate.
  - discriminate.
  - exists result, route. repeat split; assumption.
Defined.

Lemma distance_POST_refuses_zero_witness :
  (lat Sample.home == 0 \/ lng Sample.home == 0
   \/ lat Sample.office == 0 \/ lng Sample.office == 0)%Q
  /\ DistanceApi.POST Sample.taxicab true
       (Some {| DistanceApi.origin := Some Sample.home;
                DistanceApi.destination := Some Sample.office |})
       (Some "key"%string) DistanceApi.Rejected
     = (DistanceApi.Failure "Invalid coordinates provided" 400, []).
Proof.
  split; [left; reflexivity|].
  apply (distance_POST_refuses_zero Sample.taxicab Sample.home
           Sample.office (Some "key"%string) DistanceApi.Rejected).
  left. reflexivity.
Defined.


Lemma matrix_POST_fallback_witness :
  Sample.places <> []
  /\ (DistanceMatrixApi.configured (Some ""%string) = false
      \/ DistanceMatrixApi.Rejected = DistanceMatrixApi.Rejected
      \/ DistanceMatrixApi.Rejected = DistanceMatrixApi.Answered None
      \/ (exists data,
             DistanceMatrixApi.Rejected
             = DistanceMatrixApi.Answered (Some data)
             /\ DistanceMatrixApi.Data.status data <> "OK"%string))
  /\ exists distanceMatrix,
       fst (DistanceMatrixApi.POST Sample.taxicab true
              (Some {| DistanceMatrixApi.origins := Some Sample.places;
                       DistanceMatrixApi.destinations :=
                         Some Sample.places |})
              (Some ""%string) DistanceMatrixApi.Rejected)
       = DistanceMatrixApi.Success distanceMatrix
       /\ length distanceMatrix = length Sample.places.
Proof.
  split; [discriminate|]. split; [now left|].
  destruct (matrix_POST_fallback Sample.taxicab Sample.places Sample.places
              (Some ""%string) DistanceMatrixApi.Rejected)
    as [distanceMatrix [Hpost [Hlen _]]].
  - discriminate.
  - discriminate.
  - now left.
  - exists distanceMatrix. split; [exact Hpost | exact Hlen].
Defined.

Lemma matrix_POST_all_or_nothing_witness :
  Sample.places <> []
  /\ DistanceMatrixApi.Data.status Sample.silentAnswer = "OK"%string
  /\ nth_error (DistanceMatrixApi.Data.rows Sample.silentAnswer) 0
     = Some {| DistanceMatrixApi.Row.elements :=
                 [Sample.ok 0; Sample.silent] |}
  /\ DistanceMatrixApi.Element.status Sample.silent = "OK"%string
  /\ DistanceMatrixApi.Element.distance Sample.silent = None
  /\ fst (DistanceMatrixApi.POST Sample.taxicab true
            (Some {| DistanceMatrixApi.origins := Some Sample.places;
                     DistanceMatrixApi.destinations := Some Sample.places |})
            (Some "key"%string)
            (DistanceMatrixApi.Answered (Some Sample.silentAnswer)))
     = DistanceMatrixApi.Success
         (DistanceMatrixApi.haversineMatrix Sample.taxicab Sample.places
            Sample.places).
Proof.
  split; [discriminate|]. split; [reflexivity|]. split; [reflexivity|].
  split; [reflexivity|]. split; [reflexivity|].
  apply (matrix_POST_all_or_nothing Sample.taxicab Sample.places
           Sample.places "key" Sample.silentAnswer 0 1
           {| DistanceMatrixApi.Row.elements :=
                [Sample.ok 0; Sample.silent] |}
           Sample.silent).
  - discriminate.
  - discriminate.
  - reflexivity.
  - reflexivity.
  - reflexivity.
  - left. split; reflexivity.
Defined.

Lemma optimizeRouteWithDriving_full_matrix_witness :
  square (S (length Sample.stops)) Sample.matrix
  /\ exists route,
       Client.optimizeRouteWithDriving Sample.taxicab Sample.stops
         (Some Sample.home)
         (Client.Responded true
            (Some {| Client.distanceMatrix := Some Sample.matrix |}))
       = Normal route
       /\ Permutation route Sample.stops.
Proof.
  split; [exact sample_matrix_square|].
  apply (optimizeRouteWithDriving_full_matrix Sample.taxicab Sample.stops
           (Some Sample.home) Sample.matrix).
  exact sample_matrix_square.
Defined.

Lemma openPath_optimizeRouteWithDriving_permutation_witness :
  failsAsAWhole Client.Rejected
  /\ exists route,
       OpenPathClient.optimizeRouteWithDriving Sample.taxicab Sample.stops
         (Some Sample.home) Client.Rejected = Normal route
       /\ Permutation route Sample.stops.
Proof.
  split; [now left|].
  apply (openPath_optimizeRouteWithDriving_permutation Sample.taxicab
           Sample.stops (Some Sample.home) Client.Rejected).
  left. now left.
Defined.

Lemma optimizeAppointments_requests_witness :
  fst (RoundTripPage.optimizeAppointments Sample.taxicab Sample.unreachable
         Sample.stops Sample.startingLocation Sample.nine None
         Client.Rejected) = Normal Sample.page
  /\ exists route,
       Client.optimizeRouteWithDriving Sample.taxicab Sample.stops
         (startOf Sample.startingLocation) Client.Rejected = Normal route
       /\ (route <> [] ->
           RoundTripPage.StartingLocation.isSet Sample.startingLocation
           = true ->
           length
             (snd (RoundTripPage.optimizeAppointments Sample.taxicab
                     Sample.unreachable Sample.stops Sample.startingLocation
                     Sample.nine None Client.Rejected))
           = (2 * (length route + 1))%nat).
Proof.
  split; [vm_compute; reflexivity|].
  destruct (optimizeAppointments_requests Sample.taxicab Sample.unreachable
              Sample.stops Sample.startingLocation Sample.nine None
              Client.Rejected Sample.page)
    as [route [Hopt H]].
  - vm_compute. reflexivity.
  - cbv zeta in H. destruct H as [_ [_ Hcount]].
    exists route. split; [exact Hopt | exact Hcount].
Defined.

Lemma optimizeAppointments_schedule_witness :
  fst (RoundTripPage.optimizeAppointments Sample.taxicab Sample.unreachable
         Sample.stops Sample.startingLocation Sample.nine None
         Client.Rejected) = Normal Sample.page
  /\ exists route entries,
       Client.optimizeRouteWithDriving Sample.taxicab Sample.stops
         (startOf Sample.startingLocation) Client.Rejected = Normal route
       /\ RoundTripPage.optimizedRoute Sample.page
          = (if RoundTripPage.StartingLocation.isSet Sample.startingLocation
             then [RoundTripPage.startingPoint Sample.startingLocation
                     (Some (newDate Sample.nine))]
             else []) ++ entries
       /\ map RoundTripPage.Scheduled.appointment entries = route.
Proof.
  split; [vm_compute; reflexivity|].
  destruct (optimizeAppointments_schedule Sample.taxicab Sample.unreachable
              Sample.stops Sample.startingLocation Sample.nine None
              Client.Rejected Sample.page)
    as [route [entries [Hopt [Hshown [_ [Hmap _]]]]]].
  - vm_compute. reflexivity.
  - exists route, entries. repeat split; assumption.
Defined.

Lemma optimizeAppointments_offline_witness :
  (forall k, fallsBack (Sample.unreachable k))
  /\ Client.optimizeRouteWithDriving Sample.taxicab Sample.stops
       (startOf Sample.startingLocation) Client.Rejected
     = Normal [Sample.a2; Sample.a3; Sample.a1]
  /\ exists page,
       fst (RoundTripPage.optimizeAppointments Sample.taxicab
              Sample.unreachable Sample.stops Sample.startingLocation
              Sample.nine None Client.Rejected) = Normal page
       /\ map RoundTripPage.Scheduled.suggestedTime
            (filter
               (fun entry => negb (RoundTripPage.Scheduled.isStart entry))
               (RoundTripPage.optimizedRoute page))
          = RoundTripApi.times
              (RoundTripApi.generateAppointmentTimes Sample.taxicab
                 [Sample.a2; Sample.a3; Sample.a1] Sample.nine 3
                 (startOf Sample.startingLocation)).
Proof.
  split; [exact unreachable_fallsBack|].
  split; [vm_compute; reflexivity|].
  destruct (optimizeAppointments_offline Sample.taxicab Sample.unreachable
              unreachable_fallsBack Sample.stops Sample.startingLocation
              Sample.nine None Client.Rejected
              [Sample.a2; Sample.a3; Sample.a1])
    as [page [Hpage [Htimes _]]].
  - vm_compute. reflexivity.
  - exists page. split; [exact Hpage | exact Htimes].
Defined.

Lemma optimizeRoundTripRoute_permutation_on_numbers_witness :
  numbersAmong (Sample.home :: map coordsOf Sample.stops) Sample.measured
    Sample.taxicab
  /\ exists best,
       Js.RoundTripApi.optimizeRoundTripRoute Sample.measured Sample.stops
         (Some Sample.home) = Normal best
       /\ Permutation (RoundTripApi.route best) Sample.stops.
Proof.
  split; [exact measured_numbers|].
  destruct (optimizeRoundTripRoute_permutation_on_numbers Sample.measured
              Sample.taxicab Sample.stops (Some Sample.home)
              measured_numbers)
    as [best [total [Hrun [Hperm _]]]].
  exists best. split; [exact Hrun | exact Hperm].
Defined.

Lemma optimizeSingleRoute_greedy_on_numbers_witness :
  numbersAmong (Sample.home :: map coordsOf Sample.stops) Sample.measured
    Sample.taxicab
  /\ NoDup (map id Sample.stops)
  /\ nth_error Sample.stops 1 = Some Sample.a2
  /\ exists front,
       Js.RoundTripApi.optimizeSingleRoute Sample.measured Sample.stops
         Sample.home 1 = Normal (front ++ [Sample.a2])
       /\ greedy Sample.taxicab Sample.home front.
Proof.
  split; [exact measured_numbers|].
  split; [exact sample_ids_distinct|]. split; [reflexivity|].
  apply (optimizeSingleRoute_greedy_on_numbers Sample.measured Sample.taxicab
           Sample.stops Sample.home 1 Sample.a2).
  - exact measured_numbers.
  - exact sample_ids_distinct.
  - reflexivity.
Defined.

Lemma roundTrip_never_worse_on_numbers_witness :
  numbersAmong (Sample.home :: map coordsOf Sample.stops) Sample.measured
    Sample.taxicab
  /\ NoDup (map id Sample.stops)
  /\ Sample.stops <> []
  /\ exists best total openRoute openTotal,
       Js.RoundTripApi.optimizeRoundTripRoute Sample.measured Sample.stops
         (Some Sample.home) = Normal best
       /\ RoundTripApi.totalDistance best = Num total
       /\ OptimizeApi.optimizeRoute Sample.taxicab Sample.stops
            (Some Sample.home) = Normal openRoute
       /\ Js.RoundTripApi.calculateRoundTripDistance Sample.measured
            openRoute Sample.home = Num openTotal
       /\ (total <= openTotal)%Q.
Proof.
  split; [exact measured_numbers|].
  split; [exact sample_ids_distinct|]. split; [discriminate|].
  destruct (roundTrip_never_worse_on_numbers Sample.measured Sample.taxicab
              Sample.stops Sample.home measured_numbers sample_ids_distinct)
    as [best [total [openRoute [openTotal [k [H1 [H2 [H3 [_ [H4 H5]]]]]]]]]];
    [discriminate|].
  exists best, total, openRoute, openTotal. repeat split; assumption.
Defined.

Lemma haversine_of_antipodes_witness :
  Sample.sinAt (-0x1.1df46a2529d39p-3)%float = (-0x1.1d06c968d9e19p-3)%float
  /\ Sample.sinAt 0x1.921fb54442d18p+0%float = 1%float
  /\ Sample.cosAt 0x1.1df46a2529d39p-3%float = 0x1.fb046a930947ap-1%float
  /\ Sample.cosAt (-0x1.1df46a2529d39p-3)%float
     = 0x1.fb046a930947ap-1%float
  /\ (forall y, Sample.atan2At y nan = nan)
  /\ Doubles.calculateDistance Sample.sinAt Sample.cosAt Sample.atan2At
       {| Doubles.lat := 8; Doubles.lng := 0 |}
       {| Doubles.lat := -8; Doubles.lng := 180 |} = nan.
Proof.
  split; [reflexivity|]. split; [reflexivity|]. split; [reflexivity|].
  split; [reflexivity|]. split; [reflexivity|].
  apply (haversine_of_antipodes Sample.sinAt Sample.cosAt Sample.atan2At);
    reflexivity.
Defined.
